(** * CVSandbox DirectShow local video device: frame converter and
      device life cycle

    A shallow embedding of [XLocalVideoDevice.cpp]
    (sources/afx/video/afx_video_dshow+): the sample grabber callback
    [SampleGrabber::BufferCB] with its scalar and SSSE3 conversion paths,
    the facade operations of [XLocalVideoDevice] / [XLocalVideoDeviceData]
    on the shared device record, the block of [RunVideo] that runs when the
    capture graph starts delivering frames, the format enumeration of
    [GetPinCapabilitiesAndConfigureIt], the crossbar helpers, the
    discovery run [RunVideo( false )] behind [CollectInfo] and one turn of
    the event loop. *)

From Stdlib Require Import ZArith Lia List Bool String.
From stdpp Require Import base option list gmap strings sorting.

Local Open Scope Z_scope.

(** ** Machine integers

    [int] and [long] are 32 bits wide on the platform of this code
    (Windows, LLP64).  Signed overflow and division by zero are undefined,
    so the checked operations give [None] there; [uint32_t] wraps. *)

Definition INT_MIN : Z := - 2 ^ 31.
Definition INT_MAX : Z := 2 ^ 31 - 1.

Definition in_int (z : Z) : bool := (INT_MIN <=? z) && (z <=? INT_MAX).

Definition int_checked (z : Z) : option Z :=
  if in_int z then Some z else None.

Definition int_mul (a b : Z) : option Z := int_checked (a * b).
Definition int_sub (a b : Z) : option Z := int_checked (a - b).
Definition int_div (a b : Z) : option Z :=
  if b =? 0 then None else int_checked (Z.quot a b).

Definition to_uint32 (z : Z) : Z := z mod 2 ^ 32.
Definition to_int32 (z : Z) : Z := (z + 2 ^ 31) mod 2 ^ 32 - 2 ^ 31.

(** ** Byte buffers

    A buffer is the list of its bytes; a pointer into it is a byte offset.
    An access outside the buffer is undefined behaviour and gives [None]. *)

Definition load (m : list Z) (p : Z) : option Z :=
  if 0 <=? p then m !! Z.to_nat p else None.

Definition store (m : list Z) (p : Z) (v : Z) : option (list Z) :=
  if 0 <=? p then
    match m !! Z.to_nat p with
    | Some _ => Some (<[Z.to_nat p := v]> m)
    | None => None
    end
  else None.

(** ** The SSE intrinsics of the vector path

    A 128-bit register is the list of its 16 bytes, lowest byte first. *)

Definition m128i : Type := list Z.

(** [_mm_set_epi8] takes the bytes from the highest (e15) to the lowest. *)
Definition _mm_set_epi8 (e15 e14 e13 e12 e11 e10 e9 e8
                         e7 e6 e5 e4 e3 e2 e1 e0 : Z) : m128i :=
  [e0; e1; e2; e3; e4; e5; e6; e7; e8; e9; e10; e11; e12; e13; e14; e15].

(** [pshufb]: a mask byte with bit 7 set gives zero, otherwise its low four
    bits select a byte of [a]. *)
Definition _mm_shuffle_epi8 (a b : m128i) : m128i :=
  map (fun m => if Z.testbit m 7 then 0
                else nth (Z.to_nat (Z.land m 15)) a 0) b.

Definition _mm_or_si128 (a b : m128i) : m128i := zip_with Z.lor a b.

Fixpoint load_bytes (n : nat) (m : list Z) (p : Z) : option (list Z) :=
  match n with
  | O => Some []
  | S n' =>
      b ← load m p;
      r ← load_bytes n' m (p + 1);
      Some (b :: r)
  end.

Fixpoint store_bytes (m : list Z) (p : Z) (v : list Z) : option (list Z) :=
  match v with
  | [] => Some m
  | b :: v' =>
      m' ← store m p b;
      store_bytes m' (p + 1) v'
  end.

Definition _mm_loadu_si128 (m : list Z) (p : Z) : option m128i :=
  load_bytes 16 m p.

Definition _mm_storeu_si128 (m : list Z) (p : Z) (v : m128i)
  : option (list Z) :=
  store_bytes m p v.

(** ** Colour component indices

    Modelled from the spec: the indices [RedIndex], [GreenIndex] and
    [BlueIndex] come from the imaging library's header, which is not among
    the sources.  The converter swaps the R and B channels of the device's
    BGR data (the branch compiled when PIXEL_FORMAT_BGRA is not defined),
    so the image layout is R, G, B. *)

Definition RedIndex : Z := 0.
Definition GreenIndex : Z := 1.
Definition BlueIndex : Z := 2.

(** ** The conversion loops of [BufferCB] *)

(** The per-pixel loop
    [for ( x = 0; x < n; x++, dstRow += 3, srcRow += 3 )]. *)
Fixpoint pixel_loop (n : nat) (src dst : list Z) (srcRow dstRow : Z)
  : option (list Z) :=
  match n with
  | O => Some dst
  | S n' =>
      b ← load src (srcRow + 0);
      dst1 ← store dst (dstRow + BlueIndex) b;
      g ← load src (srcRow + 1);
      dst2 ← store dst1 (dstRow + GreenIndex) g;
      r ← load src (srcRow + 2);
      dst3 ← store dst2 (dstRow + RedIndex) r;
      pixel_loop n' src dst3 (srcRow + 3) (dstRow + 3)
  end.

Definition swapIndeces_0 : m128i :=
  _mm_set_epi8 (-1) 12 13 14 9 10 11 6 7 8 3 4 5 0 1 2.
Definition swapIndeces_1 : m128i :=
  _mm_set_epi8 15 (-1) 11 12 13 8 9 10 5 6 7 2 3 4 (-1) 0.
Definition swapIndeces_2 : m128i :=
  _mm_set_epi8 13 14 15 10 11 12 7 8 9 4 5 6 1 2 3 (-1).
Definition chunk0IndecesFrom1 : m128i :=
  _mm_set_epi8 1 (-1) (-1) (-1) (-1) (-1) (-1) (-1)
               (-1) (-1) (-1) (-1) (-1) (-1) (-1) (-1).
Definition chunk2IndecesFrom1 : m128i :=
  _mm_set_epi8 (-1) (-1) (-1) (-1) (-1) (-1) (-1) (-1)
               (-1) (-1) (-1) (-1) (-1) (-1) (-1) 14.
Definition chunk1IndecesFrom0 : m128i :=
  _mm_set_epi8 (-1) (-1) (-1) (-1) (-1) (-1) (-1) (-1)
               (-1) (-1) (-1) (-1) (-1) (-1) 15 (-1).
Definition chunk1IndecesFrom2 : m128i :=
  _mm_set_epi8 (-1) 0 (-1) (-1) (-1) (-1) (-1) (-1)
               (-1) (-1) (-1) (-1) (-1) (-1) (-1) (-1).

(** One iteration of the 16-pixel loop: three loads, three shuffled
    stores. *)
Definition pack_step (src dst : list Z) (srcRow dstRow : Z)
  : option (list Z) :=
  chunk0 ← _mm_loadu_si128 src srcRow;
  chunk1 ← _mm_loadu_si128 src (srcRow + 16);
  chunk2 ← _mm_loadu_si128 src (srcRow + 32);
  dst1 ← _mm_storeu_si128 dst dstRow
    (_mm_or_si128 (_mm_shuffle_epi8 chunk0 swapIndeces_0)
                  (_mm_shuffle_epi8 chunk1 chunk0IndecesFrom1));
  dst2 ← _mm_storeu_si128 dst1 (dstRow + 16)
    (_mm_or_si128
       (_mm_or_si128 (_mm_shuffle_epi8 chunk1 swapIndeces_1)
                     (_mm_shuffle_epi8 chunk0 chunk1IndecesFrom0))
       (_mm_shuffle_epi8 chunk2 chunk1IndecesFrom2));
  _mm_storeu_si128 dst2 (dstRow + 32)
    (_mm_or_si128 (_mm_shuffle_epi8 chunk2 swapIndeces_2)
                  (_mm_shuffle_epi8 chunk1 chunk2IndecesFrom1)).

(** [for ( x = 0; x < packs; x++, srcRow += 48, dstRow += 48 )]; the
    pointers it leaves are where the remainder loop goes on. *)
Fixpoint pack_loop (n : nat) (src dst : list Z) (srcRow dstRow : Z)
  : option (list Z * Z * Z) :=
  match n with
  | O => Some (dst, srcRow, dstRow)
  | S n' =>
      dst' ← pack_step src dst srcRow dstRow;
      pack_loop n' src dst' (srcRow + 48) (dstRow + 48)
  end.

(** The body of the row loop on the scalar path. *)
Definition scalar_row (mWidth : Z) (src dst : list Z) (srcRow dstRow : Z)
  : option (list Z) :=
  pixel_loop (Z.to_nat mWidth) src dst srcRow dstRow.

(** The body of the row loop on the SSSE3 path. *)
Definition ssse3_row (mWidth : Z) (src dst : list Z) (srcRow dstRow : Z)
  : option (list Z) :=
  let packs := Z.quot mWidth 16 in
  let rem := Z.rem mWidth 16 in
  '(dst', srcRow', dstRow') ←
    pack_loop (Z.to_nat packs) src dst srcRow dstRow;
  pixel_loop (Z.to_nat rem) src dst' srcRow' dstRow'.

(** [for ( y = 0; y < mHeight; y++ )] with
    [dstRow = dst - y * dstStride] and [srcRow = pBuffer + y * srcStride];
    [dstBase] is the offset of [dst] in the image data. *)
Fixpoint row_loop (row : list Z -> list Z -> Z -> Z -> option (list Z))
    (n : nat) (y : Z) (dstStride srcStride dstBase : Z)
    (src dst : list Z) : option (list Z) :=
  match n with
  | O => Some dst
  | S n' =>
      dOff ← int_mul y dstStride;
      sOff ← int_mul y srcStride;
      dst' ← row src dst sOff (dstBase - dOff);
      row_loop row n' (y + 1) dstStride srcStride dstBase src dst'
  end.

(** ** Images and the sample grabber *)

(** [XImage] (declared outside these sources): the accessors the callback
    uses.  Rows are [img_Stride] bytes apart, top row first. *)
Record XImage := {
  img_Width : Z;
  img_Height : Z;
  img_Stride : Z;
  img_Data : list Z
}.

Definition with_Data (data : list Z) (img : XImage) : XImage :=
  {| img_Width := img_Width img; img_Height := img_Height img;
     img_Stride := img_Stride img; img_Data := data |}.

(** ** Platform types *)

Definition HRESULT : Type := Z.
Definition SUCCEEDED (hr : HRESULT) : bool := 0 <=? hr.
Definition FAILED (hr : HRESULT) : bool := hr <? 0.
Definition S_OK : HRESULT := 0.
Definition E_FAIL : HRESULT := to_int32 0x80004005.
(** HRESULT_FROM_WIN32( ERROR_NOT_FOUND ) *)
Definition E_PROP_ID_UNSUPPORTED : HRESULT := to_int32 0x80070490.

Inductive VideoProcAmpProperty :=
  | VideoProcAmp_Brightness | VideoProcAmp_Contrast | VideoProcAmp_Hue
  | VideoProcAmp_Saturation | VideoProcAmp_Sharpness | VideoProcAmp_Gamma
  | VideoProcAmp_ColorEnable | VideoProcAmp_WhiteBalance
  | VideoProcAmp_BacklightCompensation | VideoProcAmp_Gain.

Inductive CameraControlProperty :=
  | CameraControl_Pan | CameraControl_Tilt | CameraControl_Roll
  | CameraControl_Zoom | CameraControl_Exposure | CameraControl_Iris
  | CameraControl_Focus.

Definition VideoProcAmp_Flags_Auto : Z := 1.
Definition VideoProcAmp_Flags_Manual : Z := 2.
Definition CameraControl_Flags_Auto : Z := 1.
Definition CameraControl_Flags_Manual : Z := 2.

(** The hardware control interfaces: what each method answers.  [Get]
    answers the result code, the value and the flags. *)
Record IAMVideoProcAmp := {
  vpa_Set : VideoProcAmpProperty -> Z -> Z -> HRESULT;
  vpa_Get : VideoProcAmpProperty -> HRESULT * Z * Z
}.

Record IAMCameraControl := {
  cc_Set : CameraControlProperty -> Z -> Z -> HRESULT
}.

(** The source filter, as far as [RunVideo] queries it for the two control
    interfaces: the result code and the pointer written. *)
Record IBaseFilter := {
  QueryInterface_IAMVideoProcAmp : HRESULT * option IAMVideoProcAmp;
  QueryInterface_IAMCameraControl : HRESULT * option IAMCameraControl
}.

(** ** Error codes, capabilities, pins *)

Inductive XErrorCode :=
  | SuccessCode
  | ErrorFailed
  | ErrorNullParameter
  | ErrorInvalidConfiguration
  | ErrorInvalidProperty
  | ErrorDeivceNotReady
  | ErrorConfigurationNotSupported
  | ErrorUnsupportedProperty.

#[global] Instance XErrorCode_eq_dec : EqDecision XErrorCode.
Proof. solve_decision. Defined.

Record XDeviceCapabilities := {
  cap_Width : Z;
  cap_Height : Z;
  cap_BitCount : Z;
  cap_AverageFrameRate : Z;
  cap_MinimumFrameRate : Z;
  cap_MaximumFrameRate : Z
}.

(** Modelled from the spec: the default constructor of
    [XDeviceCapabilities] is defined outside these sources.  A capability
    that was not read from a video format has no width (the enumeration
    tests [xcap.Width( ) != 0] for it), so all its fields are zero. *)
Definition XDeviceCapabilities_default : XDeviceCapabilities :=
  {| cap_Width := 0; cap_Height := 0; cap_BitCount := 0;
     cap_AverageFrameRate := 0; cap_MinimumFrameRate := 0;
     cap_MaximumFrameRate := 0 |}.

(** Modelled from the spec: [XDeviceCapabilities::operator==] is defined
    outside these sources; "Equality compares all fields". *)
Definition cap_eqb (a b : XDeviceCapabilities) : bool :=
  (cap_Width a =? cap_Width b) && (cap_Height a =? cap_Height b) &&
  (cap_BitCount a =? cap_BitCount b) &&
  (cap_AverageFrameRate a =? cap_AverageFrameRate b) &&
  (cap_MinimumFrameRate a =? cap_MinimumFrameRate b) &&
  (cap_MaximumFrameRate a =? cap_MaximumFrameRate b).

Record XDevicePinInfo := {
  pin_Index : Z;
  pin_Type : Z;
  pin_IsInput : bool
}.

(** ** Video and camera properties *)

(** [enum class XVideoProperty]: an enumeration value is the integer under
    it, and the operations check the range themselves. *)
Definition XVideoProperty : Type := Z.

Module XVideoProperty.
Definition Brightness : XVideoProperty := 0.
Definition Contrast : XVideoProperty := 1.
Definition Hue : XVideoProperty := 2.
Definition Saturation : XVideoProperty := 3.
Definition Sharpness : XVideoProperty := 4.
Definition Gamma : XVideoProperty := 5.
Definition ColorEnable : XVideoProperty := 6.
Definition WhiteBalance : XVideoProperty := 7.
Definition BacklightCompensation : XVideoProperty := 8.
Definition Gain : XVideoProperty := 9.
End XVideoProperty.

Definition XCameraProperty : Type := Z.

Module XCameraProperty.
Definition Pan : XCameraProperty := 0.
Definition Tilt : XCameraProperty := 1.
Definition Roll : XCameraProperty := 2.
Definition Zoom : XCameraProperty := 3.
Definition Exposure : XCameraProperty := 4.
Definition Iris : XCameraProperty := 5.
Definition Focus : XCameraProperty := 6.
End XCameraProperty.

Definition nativeVideoProperties : list VideoProcAmpProperty :=
  [ VideoProcAmp_Brightness; VideoProcAmp_Contrast; VideoProcAmp_Hue;
    VideoProcAmp_Saturation; VideoProcAmp_Sharpness; VideoProcAmp_Gamma;
    VideoProcAmp_ColorEnable; VideoProcAmp_WhiteBalance;
    VideoProcAmp_BacklightCompensation; VideoProcAmp_Gain ].

Definition nativeCameraProperties : list CameraControlProperty :=
  [ CameraControl_Pan; CameraControl_Tilt; CameraControl_Roll;
    CameraControl_Zoom; CameraControl_Exposure; CameraControl_Iris;
    CameraControl_Focus ].

(** [pair<uint32_t, bool>] *)
Definition PropValue : Type := (Z * bool)%type.

(** ** The device record *)

(** [XThread], as far as the device uses it. *)
Inductive XThread := ThreadIdle | ThreadRunning.

Definition XThread_IsRunning (t : XThread) : bool :=
  match t with ThreadRunning => true | ThreadIdle => false end.

(** A listener pointer; [None] is [nullptr]. *)
Definition IVideoSourceListener : Type := nat.

(** [XLocalVideoDeviceData].  A manual-reset event is the flag that tells
    whether it is signalled; the two mutexes have no state of their own in
    a model where each operation runs as a whole. *)
Record XLocalVideoDeviceData := {
  DeviceMoniker : string;
  Resolution : XDeviceCapabilities;
  RequestedFps : Z;
  VideoInput : XDevicePinInfo;
  NeedToSetVideoInput : bool;
  Capabilities : list XDeviceCapabilities;
  VideoPins : list XDevicePinInfo;
  IsCrossbarAvailable : bool;
  InfoCollectedEvent : bool;
  Listener : option IVideoSourceListener;
  ExitEvent : bool;
  BackgroundThread : XThread;
  FramesCounter : Z;
  DeviceIsRunningEvent : bool;
  DeviceIsRunning : bool;
  VideoProcAmp : option IAMVideoProcAmp;
  CameraControl : option IAMCameraControl;
  VideoPropertiesToSet : gmap Z PropValue;
  CameraPropertiesToSet : gmap Z PropValue
}.

(** What an operation does to the world outside the record. *)
Inductive Event :=
  | EvOnNewImage (img : XImage)
  | EvOnError (message : string)
  | EvThreadCreate
  | EvVideoProcAmpSet (prop : VideoProcAmpProperty) (value flags : Z)
  | EvVideoProcAmpGet (prop : VideoProcAmpProperty)
  | EvCameraControlSet (prop : CameraControlProperty) (value flags : Z).

(** The constructor of [XLocalVideoDeviceData]; [pin0] is the
    default-constructed [XDevicePinInfo]. *)
Definition XLocalVideoDeviceData_new (pin0 : XDevicePinInfo)
    (deviceMoniker : string) : XLocalVideoDeviceData :=
  {| DeviceMoniker := deviceMoniker;
     Resolution := XDeviceCapabilities_default;
     RequestedFps := 0;
     VideoInput := pin0;
     NeedToSetVideoInput := false;
     Capabilities := [];
     VideoPins := [];
     IsCrossbarAvailable := false;
     InfoCollectedEvent := false;
     Listener := None;
     ExitEvent := false;
     BackgroundThread := ThreadIdle;
     FramesCounter := 0;
     DeviceIsRunningEvent := false;
     DeviceIsRunning := false;
     VideoProcAmp := None;
     CameraControl := None;
     VideoPropertiesToSet := ∅;
     CameraPropertiesToSet := ∅ |}.

Definition set_Listener (v : option IVideoSourceListener)
    (s : XLocalVideoDeviceData) : XLocalVideoDeviceData :=
  {| DeviceMoniker := DeviceMoniker s; Resolution := Resolution s;
     RequestedFps := RequestedFps s; VideoInput := VideoInput s;
     NeedToSetVideoInput := NeedToSetVideoInput s;
     Capabilities := Capabilities s; VideoPins := VideoPins s;
     IsCrossbarAvailable := IsCrossbarAvailable s;
     InfoCollectedEvent := InfoCollectedEvent s;
     Listener := v;
     ExitEvent := ExitEvent s; BackgroundThread := BackgroundThread s;
     FramesCounter := FramesCounter s;
     DeviceIsRunningEvent := DeviceIsRunningEvent s;
     DeviceIsRunning := DeviceIsRunning s;
     VideoProcAmp := VideoProcAmp s; CameraControl := CameraControl s;
     VideoPropertiesToSet := VideoPropertiesToSet s;
     CameraPropertiesToSet := CameraPropertiesToSet s |}.

Definition set_ExitEvent (v : bool)
    (s : XLocalVideoDeviceData) : XLocalVideoDeviceData :=
  {| DeviceMoniker := DeviceMoniker s; Resolution := Resolution s;
     RequestedFps := RequestedFps s; VideoInput := VideoInput s;
     NeedToSetVideoInput := NeedToSetVideoInput s;
     Capabilities := Capabilities s; VideoPins := VideoPins s;
     IsCrossbarAvailable := IsCrossbarAvailable s;
     InfoCollectedEvent := InfoCollectedEvent s;
     Listener := Listener s;
     ExitEvent := v; BackgroundThread := BackgroundThread s;
     FramesCounter := FramesCounter s;
     DeviceIsRunningEvent := DeviceIsRunningEvent s;
     DeviceIsRunning := DeviceIsRunning s;
     VideoProcAmp := VideoProcAmp s; CameraControl := CameraControl s;
     VideoPropertiesToSet := VideoPropertiesToSet s;
     CameraPropertiesToSet := CameraPropertiesToSet s |}.

Definition set_FramesCounter (v : Z)
    (s : XLocalVideoDeviceData) : XLocalVideoDeviceData :=
  {| DeviceMoniker := DeviceMoniker s; Resolution := Resolution s;
     RequestedFps := RequestedFps s; VideoInput := VideoInput s;
     NeedToSetVideoInput := NeedToSetVideoInput s;
     Capabilities := Capabilities s; VideoPins := VideoPins s;
     IsCrossbarAvailable := IsCrossbarAvailable s;
     InfoCollectedEvent := InfoCollectedEvent s;
     Listener := Listener s;
     ExitEvent := ExitEvent s; BackgroundThread := BackgroundThread s;
     FramesCounter := v;
     DeviceIsRunningEvent := DeviceIsRunningEvent s;
     DeviceIsRunning := DeviceIsRunning s;
     VideoProcAmp := VideoProcAmp s; CameraControl := CameraControl s;
     VideoPropertiesToSet := VideoPropertiesToSet s;
     CameraPropertiesToSet := CameraPropertiesToSet s |}.

Definition set_VideoPropertiesToSet (v : gmap Z PropValue)
    (s : XLocalVideoDeviceData) : XLocalVideoDeviceData :=
  {| DeviceMoniker := DeviceMoniker s; Resolution := Resolution s;
     RequestedFps := RequestedFps s; VideoInput := VideoInput s;
     NeedToSetVideoInput := NeedToSetVideoInput s;
     Capabilities := Capabilities s; VideoPins := VideoPins s;
     IsCrossbarAvailable := IsCrossbarAvailable s;
     InfoCollectedEvent := InfoCollectedEvent s;
     Listener := Listener s;
     ExitEvent := ExitEvent s; BackgroundThread := BackgroundThread s;
     FramesCounter := FramesCounter s;
     DeviceIsRunningEvent := DeviceIsRunningEvent s;
     DeviceIsRunning := DeviceIsRunning s;
     VideoProcAmp := VideoProcAmp s; CameraControl := CameraControl s;
     VideoPropertiesToSet := v;
     CameraPropertiesToSet := CameraPropertiesToSet s |}.

Definition set_CameraPropertiesToSet (v : gmap Z PropValue)
    (s : XLocalVideoDeviceData) : XLocalVideoDeviceData :=
  {| DeviceMoniker := DeviceMoniker s; Resolution := Resolution s;
     RequestedFps := RequestedFps s; VideoInput := VideoInput s;
     NeedToSetVideoInput := NeedToSetVideoInput s;
     Capabilities := Capabilities s; VideoPins := VideoPins s;
     IsCrossbarAvailable := IsCrossbarAvailable s;
     InfoCollectedEvent := InfoCollectedEvent s;
     Listener := Listener s;
     ExitEvent := ExitEvent s; BackgroundThread := BackgroundThread s;
     FramesCounter := FramesCounter s;
     DeviceIsRunningEvent := DeviceIsRunningEvent s;
     DeviceIsRunning := DeviceIsRunning s;
     VideoProcAmp := VideoProcAmp s; CameraControl := CameraControl s;
     VideoPropertiesToSet := VideoPropertiesToSet s;
     CameraPropertiesToSet := v |}.

Definition set_VideoProcAmp (v : option IAMVideoProcAmp)
    (s : XLocalVideoDeviceData) : XLocalVideoDeviceData :=
  {| DeviceMoniker := DeviceMoniker s; Resolution := Resolution s;
     RequestedFps := RequestedFps s; VideoInput := VideoInput s;
     NeedToSetVideoInput := NeedToSetVideoInput s;
     Capabilities := Capabilities s; VideoPins := VideoPins s;
     IsCrossbarAvailable := IsCrossbarAvailable s;
     InfoCollectedEvent := InfoCollectedEvent s;
     Listener := Listener s;
     ExitEvent := ExitEvent s; BackgroundThread := BackgroundThread s;
     FramesCounter := FramesCounter s;
     DeviceIsRunningEvent := DeviceIsRunningEvent s;
     DeviceIsRunning := DeviceIsRunning s;
     VideoProcAmp := v; CameraControl := CameraControl s;
     VideoPropertiesToSet := VideoPropertiesToSet s;
     CameraPropertiesToSet := CameraPropertiesToSet s |}.

Definition set_CameraControl (v : option IAMCameraControl)
    (s : XLocalVideoDeviceData) : XLocalVideoDeviceData :=
  {| DeviceMoniker := DeviceMoniker s; Resolution := Resolution s;
     RequestedFps := RequestedFps s; VideoInput := VideoInput s;
     NeedToSetVideoInput := NeedToSetVideoInput s;
     Capabilities := Capabilities s; VideoPins := VideoPins s;
     IsCrossbarAvailable := IsCrossbarAvailable s;
     InfoCollectedEvent := InfoCollectedEvent s;
     Listener := Listener s;
     ExitEvent := ExitEvent s; BackgroundThread := BackgroundThread s;
     FramesCounter := FramesCounter s;
     DeviceIsRunningEvent := DeviceIsRunningEvent s;
     DeviceIsRunning := DeviceIsRunning s;
     VideoProcAmp := VideoProcAmp s; CameraControl := v;
     VideoPropertiesToSet := VideoPropertiesToSet s;
     CameraPropertiesToSet := CameraPropertiesToSet s |}.

(** [DeviceIsRunning = v; DeviceIsRunningEvent.Signal( )] or [Reset( )] *)
Definition set_DeviceIsRunning (v : bool)
    (s : XLocalVideoDeviceData) : XLocalVideoDeviceData :=
  {| DeviceMoniker := DeviceMoniker s; Resolution := Resolution s;
     RequestedFps := RequestedFps s; VideoInput := VideoInput s;
     NeedToSetVideoInput := NeedToSetVideoInput s;
     Capabilities := Capabilities s; VideoPins := VideoPins s;
     IsCrossbarAvailable := IsCrossbarAvailable s;
     InfoCollectedEvent := InfoCollectedEvent s;
     Listener := Listener s;
     ExitEvent := ExitEvent s; BackgroundThread := BackgroundThread s;
     FramesCounter := FramesCounter s;
     DeviceIsRunningEvent := v;
     DeviceIsRunning := v;
     VideoProcAmp := VideoProcAmp s; CameraControl := CameraControl s;
     VideoPropertiesToSet := VideoPropertiesToSet s;
     CameraPropertiesToSet := CameraPropertiesToSet s |}.

(** ** [SampleGrabber] *)

Record SampleGrabber := {
  mImage : option XImage;
  mWidth : Z;
  mHeight : Z;
  mSSSE3supported : bool
}.

Definition set_mImage (img : option XImage) (g : SampleGrabber)
  : SampleGrabber :=
  {| mImage := img; mWidth := mWidth g; mHeight := mHeight g;
     mSSSE3supported := mSSSE3supported g |}.

Definition set_mSSSE3supported (b : bool) (g : SampleGrabber)
  : SampleGrabber :=
  {| mImage := mImage g; mWidth := mWidth g; mHeight := mHeight g;
     mSSSE3supported := b |}.

(** [SetVideoSize] *)
Definition SetVideoSize (width height : Z) (g : SampleGrabber)
  : SampleGrabber :=
  {| mImage := mImage g; mWidth := width; mHeight := height;
     mSSSE3supported := mSSSE3supported g |}.

(** The image the callback writes to: the one it holds when that has the
    size of the frames, a newly allocated one otherwise.  [Allocate] is
    [XImage::Allocate( width, height, XPixelFormatRGB24 )], defined outside
    these sources; a null image gives [None]. *)
Definition frame_image (Allocate : Z -> Z -> option XImage)
    (g : SampleGrabber) : option XImage :=
  match mImage g with
  | Some img =>
      if negb (img_Width img =? mWidth g) || negb (img_Height img =? mHeight g)
      then Allocate (mWidth g) (mHeight g)
      else Some img
  | None => Allocate (mWidth g) (mHeight g)
  end.

(** The conversion of one frame into the image data, on either path. *)
Definition convert_frame (ssse3 : bool) (mWidth mHeight : Z)
    (pBuffer : list Z) (bufferLen : Z) (img : XImage) : option (list Z) :=
  let dstStride := img_Stride img in
  srcStride ← int_div bufferLen mHeight;
  rows ← int_sub mHeight 1;
  dst ← int_mul dstStride rows;
  row_loop (if negb ssse3 then scalar_row mWidth else ssse3_row mWidth)
           (Z.to_nat mHeight) 0 dstStride srcStride dst
           pBuffer (img_Data img).

(** [SampleGrabber::BufferCB]: the grabber and its parent after the call
    and what the listener received.  A failed [assert] ends the program,
    which is [None] as well. *)
Definition BufferCB (Allocate : Z -> Z -> option XImage)
    (g : SampleGrabber) (mParent : XLocalVideoDeviceData)
    (pBuffer : option (list Z)) (bufferLen : Z)
  : option (SampleGrabber * XLocalVideoDeviceData * list Event) :=
  if (mWidth g =? 0) || (mHeight g =? 0) then None
  else
    let mParent' :=
      if negb (ExitEvent mParent)
      then set_FramesCounter (to_uint32 (FramesCounter mParent + 1)) mParent
      else mParent in
    match Listener mParent, pBuffer with
    | Some _, Some buffer =>
        if negb (bufferLen =? 0) then
          img ← frame_image Allocate g;
          data ← convert_frame (mSSSE3supported g) (mWidth g) (mHeight g)
                               buffer bufferLen img;
          let img' := with_Data data img in
          Some (set_mImage (Some img') g, mParent', [EvOnNewImage img'])
        else Some (g, mParent', [])
    | _, _ => Some (g, mParent', [])
    end.

(** ** The facade and the device data *)

Definition string_empty (s : string) : bool :=
  match s with EmptyString => true | String _ _ => false end.

(** [XLocalVideoDeviceData::IsRunning] *)
Definition IsRunning (s : XLocalVideoDeviceData) : bool :=
  XThread_IsRunning (BackgroundThread s).

(** [XLocalVideoDeviceData::FramesReceived] *)
Definition FramesReceived (s : XLocalVideoDeviceData) : Z :=
  FramesCounter s.

(** [XLocalVideoDeviceData::IsDeviceRunning] *)
Definition IsDeviceRunning (s : XLocalVideoDeviceData) : bool :=
  DeviceIsRunning s.

(** [XLocalVideoDeviceData::SetListener] *)
Definition SetListener (listener : option IVideoSourceListener)
    (s : XLocalVideoDeviceData) : XLocalVideoDeviceData :=
  set_Listener listener s.

(** [XLocalVideoDevice::SetDeviceMoniker]; [pin0] is the
    default-constructed [XDevicePinInfo]. *)
Definition SetDeviceMoniker (pin0 : XDevicePinInfo) (moniker : string)
    (s : XLocalVideoDeviceData) : bool * XLocalVideoDeviceData :=
  if negb (IsRunning s) then
    (true,
     {| DeviceMoniker := moniker;
        Capabilities := [];
        VideoPins := [];
        IsCrossbarAvailable := false;
        InfoCollectedEvent := false;
        Resolution := XDeviceCapabilities_default;
        VideoInput := pin0;
        RequestedFps := 0;
        NeedToSetVideoInput := NeedToSetVideoInput s;
        Listener := Listener s;
        ExitEvent := ExitEvent s; BackgroundThread := BackgroundThread s;
        FramesCounter := FramesCounter s;
        DeviceIsRunningEvent := DeviceIsRunningEvent s;
        DeviceIsRunning := DeviceIsRunning s;
        VideoProcAmp := VideoProcAmp s; CameraControl := CameraControl s;
        VideoPropertiesToSet := VideoPropertiesToSet s;
        CameraPropertiesToSet := CameraPropertiesToSet s |})
  else (false, s).

(** [XLocalVideoDevice::SetResolution] *)
Definition SetResolution (resolution : XDeviceCapabilities)
    (requestedFps : Z) (s : XLocalVideoDeviceData)
  : bool * XLocalVideoDeviceData :=
  if negb (IsRunning s) then
    (true,
     {| Resolution := resolution;
        RequestedFps := requestedFps;
        DeviceMoniker := DeviceMoniker s; VideoInput := VideoInput s;
        NeedToSetVideoInput := NeedToSetVideoInput s;
        Capabilities := Capabilities s; VideoPins := VideoPins s;
        IsCrossbarAvailable := IsCrossbarAvailable s;
        InfoCollectedEvent := InfoCollectedEvent s;
        Listener := Listener s;
        ExitEvent := ExitEvent s; BackgroundThread := BackgroundThread s;
        FramesCounter := FramesCounter s;
        DeviceIsRunningEvent := DeviceIsRunningEvent s;
        DeviceIsRunning := DeviceIsRunning s;
        VideoProcAmp := VideoProcAmp s; CameraControl := CameraControl s;
        VideoPropertiesToSet := VideoPropertiesToSet s;
        CameraPropertiesToSet := CameraPropertiesToSet s |})
  else (false, s).

(** [XLocalVideoDevice::SetVideoInput] *)
Definition SetVideoInput (input : XDevicePinInfo)
    (s : XLocalVideoDeviceData) : XLocalVideoDeviceData :=
  {| VideoInput := input;
     NeedToSetVideoInput := true;
     DeviceMoniker := DeviceMoniker s; Resolution := Resolution s;
     RequestedFps := RequestedFps s;
     Capabilities := Capabilities s; VideoPins := VideoPins s;
     IsCrossbarAvailable := IsCrossbarAvailable s;
     InfoCollectedEvent := InfoCollectedEvent s;
     Listener := Listener s;
     ExitEvent := ExitEvent s; BackgroundThread := BackgroundThread s;
     FramesCounter := FramesCounter s;
     DeviceIsRunningEvent := DeviceIsRunningEvent s;
     DeviceIsRunning := DeviceIsRunning s;
     VideoProcAmp := VideoProcAmp s; CameraControl := CameraControl s;
     VideoPropertiesToSet := VideoPropertiesToSet s;
     CameraPropertiesToSet := CameraPropertiesToSet s |}.

(** [XLocalVideoDeviceData::Start].  [created] is what
    [BackgroundThread.Create] answers if it is called. *)
Definition Start (created : bool) (s : XLocalVideoDeviceData)
  : XErrorCode * XLocalVideoDeviceData * list Event :=
  if string_empty (DeviceMoniker s) then (ErrorInvalidConfiguration, s, [])
  else if IsRunning s then (SuccessCode, s, [])
  else
    (if created then SuccessCode else ErrorFailed,
     {| FramesCounter := 0;
        ExitEvent := false;
        InfoCollectedEvent := false;
        BackgroundThread :=
          if created then ThreadRunning else BackgroundThread s;
        DeviceMoniker := DeviceMoniker s; Resolution := Resolution s;
        RequestedFps := RequestedFps s; VideoInput := VideoInput s;
        NeedToSetVideoInput := NeedToSetVideoInput s;
        Capabilities := Capabilities s; VideoPins := VideoPins s;
        IsCrossbarAvailable := IsCrossbarAvailable s;
        Listener := Listener s;
        DeviceIsRunningEvent := DeviceIsRunningEvent s;
        DeviceIsRunning := DeviceIsRunning s;
        VideoProcAmp := VideoProcAmp s; CameraControl := CameraControl s;
        VideoPropertiesToSet := VideoPropertiesToSet s;
        CameraPropertiesToSet := CameraPropertiesToSet s |},
     [EvThreadCreate]).

(** [XLocalVideoDeviceData::SignalToStop] *)
Definition SignalToStop (s : XLocalVideoDeviceData)
  : XLocalVideoDeviceData :=
  if IsRunning s then set_ExitEvent true s else s.

(** [XLocalVideoDeviceData::CollectInfo], as far as it decides where the
    information about the device comes from: nowhere without a moniker,
    from the record when the info-collected event is signalled, from the
    running thread after a wait, from a run of the video graph that does
    not start the video otherwise. *)
Inductive InfoSource :=
  | InfoUnavailable | InfoCollected | InfoAwaited | InfoDiscovered.

Definition CollectInfo_source (s : XLocalVideoDeviceData) : InfoSource :=
  if negb (string_empty (DeviceMoniker s)) then
    if InfoCollectedEvent s then InfoCollected
    else if XThread_IsRunning (BackgroundThread s) then InfoAwaited
    else InfoDiscovered
  else InfoUnavailable.

(** [XLocalVideoDeviceData::NotifyError]: what the listener receives. *)
Definition NotifyError (errorMessage : string) (fatal : bool)
    (s : XLocalVideoDeviceData) : list Event :=
  match Listener s with
  | Some _ =>
      [EvOnError ((if fatal then "Fatal: " else "") ++ errorMessage)%string]
  | None => []
  end.

(** [XLocalVideoDeviceData::SetVideoProperty] *)
Definition SetVideoProperty (property : XVideoProperty) (value : Z)
    (automatic : bool) (s : XLocalVideoDeviceData)
  : XErrorCode * XLocalVideoDeviceData * list Event :=
  if (property <? XVideoProperty.Brightness) ||
     (property >? XVideoProperty.Gain)
  then (ErrorInvalidProperty, s, [])
  else if negb (DeviceIsRunning s) then
    (SuccessCode,
     set_VideoPropertiesToSet
       (<[property := (to_uint32 value, automatic)]>
          (VideoPropertiesToSet s)) s,
     [])
  else
    match VideoProcAmp s with
    | None => (ErrorConfigurationNotSupported, s, [])
    | Some amp =>
        let prop :=
          nth (Z.to_nat property) nativeVideoProperties
              VideoProcAmp_Brightness in
        let flags := if automatic then VideoProcAmp_Flags_Auto
                     else VideoProcAmp_Flags_Manual in
        let hr := vpa_Set amp prop value flags in
        (if FAILED hr
         then (if hr =? E_PROP_ID_UNSUPPORTED
               then ErrorUnsupportedProperty else ErrorFailed)
         else SuccessCode,
         s, [EvVideoProcAmpSet prop value flags])
    end.

(** [XLocalVideoDeviceData::GetVideoProperty].  The two pointers are given
    by whether they are non-null; the answer carries what was written
    through them. *)
Definition GetVideoProperty (property : XVideoProperty)
    (value automatic : bool) (s : XLocalVideoDeviceData)
  : XErrorCode * option Z * option bool * list Event :=
  if negb value then (ErrorNullParameter, None, None, [])
  else if (property <? XVideoProperty.Brightness) ||
          (property >? XVideoProperty.Gain)
  then (ErrorInvalidProperty, None, None, [])
  else if negb (DeviceIsRunning s) then (ErrorDeivceNotReady, None, None, [])
  else
    match VideoProcAmp s with
    | None => (ErrorConfigurationNotSupported, None, None, [])
    | Some amp =>
        let prop :=
          nth (Z.to_nat property) nativeVideoProperties
              VideoProcAmp_Brightness in
        let '(hr, propValue, propFlags) := vpa_Get amp prop in
        if FAILED hr then
          (if hr =? E_PROP_ID_UNSUPPORTED
           then ErrorUnsupportedProperty else ErrorFailed,
           None, None, [EvVideoProcAmpGet prop])
        else
          (SuccessCode, Some propValue,
           if automatic then Some (propFlags =? VideoProcAmp_Flags_Auto)
           else None,
           [EvVideoProcAmpGet prop])
    end.

(** [XLocalVideoDeviceData::SetCameraProperty] *)
Definition SetCameraProperty (property : XCameraProperty) (value : Z)
    (automatic : bool) (s : XLocalVideoDeviceData)
  : XErrorCode * XLocalVideoDeviceData * list Event :=
  if (property <? XCameraProperty.Pan) || (property >? XCameraProperty.Focus)
  then (ErrorInvalidProperty, s, [])
  else if negb (DeviceIsRunning s) then
    (SuccessCode,
     set_CameraPropertiesToSet
       (<[property := (to_uint32 value, automatic)]>
          (CameraPropertiesToSet s)) s,
     [])
  else
    match CameraControl s with
    | None => (ErrorConfigurationNotSupported, s, [])
    | Some ctl =>
        let prop :=
          nth (Z.to_nat property) nativeCameraProperties CameraControl_Pan in
        let flags := if automatic then CameraControl_Flags_Auto
                     else CameraControl_Flags_Manual in
        let hr := cc_Set ctl prop value flags in
        (if FAILED hr
         then (if hr =? E_PROP_ID_UNSUPPORTED
               then ErrorUnsupportedProperty else ErrorFailed)
         else SuccessCode,
         s, [EvCameraControlSet prop value flags])
    end.

(** ** [RunVideo]: the device starts streaming *)

(** A [std::map] is walked in the order of its keys. *)
Definition key_le (a b : Z * PropValue) : Prop := a.1 <= b.1.

#[global] Instance key_le_dec (a b : Z * PropValue) : Decision (key_le a b).
Proof. unfold key_le. apply _. Defined.

Definition map_entries (m : gmap Z PropValue) : list (Z * PropValue) :=
  merge_sort key_le (map_to_list m).

(** [for ( auto property : ... ) configOK &= ( Set...( ... ) == SuccessCode )]
    for either map; [set] is [SetVideoProperty] or [SetCameraProperty]. *)
Fixpoint apply_properties
    (set : Z -> Z -> bool -> XLocalVideoDeviceData ->
           XErrorCode * XLocalVideoDeviceData * list Event)
    (entries : list (Z * PropValue)) (configOK : bool)
    (s : XLocalVideoDeviceData)
  : bool * XLocalVideoDeviceData * list Event :=
  match entries with
  | [] => (configOK, s, [])
  | property :: rest =>
      let '(ret, s1, ev1) :=
        set property.1 (to_int32 property.2.1) property.2.2 s in
      let configOK1 :=
        configOK && bool_decide (ret = SuccessCode) in
      let '(ok, s2, ev2) := apply_properties set rest configOK1 s1 in
      (ok, s2, ev1 ++ ev2)
  end.

(** The block of [RunVideo] that follows a successful
    [pMediaControl->Run( )]: signal that the device runs, take the control
    interfaces the source filter offers and apply the properties set
    before.  The event loop follows it in every case. *)
Definition RunVideo_device_started (pSourceFilter : IBaseFilter)
    (s : XLocalVideoDeviceData) : XLocalVideoDeviceData * list Event :=
  let s := set_DeviceIsRunning true s in
  (* video: image adjustments *)
  let '(hr, amp) := QueryInterface_IAMVideoProcAmp pSourceFilter in
  let s := set_VideoProcAmp amp s in
  let '(s, ev1) :=
    if SUCCEEDED hr && bool_decide (is_Some (VideoProcAmp s)) then
      let '(configOK, s, ev) :=
        apply_properties SetVideoProperty
          (map_entries (VideoPropertiesToSet s)) true s in
      let s := set_VideoPropertiesToSet ∅ s in
      (s, ev ++ (if negb configOK
                 then NotifyError "Failed applying video configuration"
                                  false s
                 else []))
    else (s, []) in
  (* camera control *)
  let '(hr, ctl) := QueryInterface_IAMCameraControl pSourceFilter in
  let s := set_CameraControl ctl s in
  let '(s, ev2) :=
    if SUCCEEDED hr && bool_decide (is_Some (CameraControl s)) then
      let '(configOK, s, ev) :=
        apply_properties SetCameraProperty
          (map_entries (CameraPropertiesToSet s)) true s in
      let s := set_CameraPropertiesToSet ∅ s in
      (s, ev ++ (if negb configOK
                 then NotifyError "Failed applying camera configuration"
                                  false s
                 else []))
    else (s, []) in
  (s, ev1 ++ ev2).

(** The block of [RunVideo] that follows the event loop. *)
Definition RunVideo_device_stopped (s : XLocalVideoDeviceData)
  : XLocalVideoDeviceData :=
  set_DeviceIsRunning false (set_CameraControl None (set_VideoProcAmp None s)).

(** ** Format enumeration *)

Inductive FormatType := FORMAT_VideoInfo | FORMAT_VideoInfo2 | FORMAT_Other.

(** [AM_MEDIA_TYPE] with the fields of the video info header that the
    enumeration reads. *)
Record AM_MEDIA_TYPE := {
  formattype : FormatType;
  biWidth : Z;
  biHeight : Z;
  biBitCount : Z;
  AvgTimePerFrame : Z
}.

Record VIDEO_STREAM_CONFIG_CAPS := {
  MinFrameInterval : Z;
  MaxFrameInterval : Z
}.

(** What [GetStreamCaps( i, &pMediaType, &caps )] answers. *)
Record StreamCaps := {
  sc_hr : HRESULT;
  sc_pMediaType : option AM_MEDIA_TYPE;
  sc_caps : VIDEO_STREAM_CONFIG_CAPS
}.

(** [(int) ( 10000000LL / interval )]; a division by zero has no value. *)
Definition frame_rate (interval : Z) : option Z :=
  if interval =? 0 then None
  else Some (to_int32 (Z.quot 10000000 interval)).

(** The capability read from one media type; the three rates are the
    fourth to sixth constructor arguments, in this order. *)
Definition read_capability (mt : AM_MEDIA_TYPE)
    (caps : VIDEO_STREAM_CONFIG_CAPS) : option XDeviceCapabilities :=
  match formattype mt with
  | FORMAT_VideoInfo | FORMAT_VideoInfo2 =>
      avg ← frame_rate (AvgTimePerFrame mt);
      r5 ← frame_rate (MinFrameInterval caps);
      r6 ← frame_rate (MaxFrameInterval caps);
      Some {| cap_Width := biWidth mt; cap_Height := biHeight mt;
              cap_BitCount := biBitCount mt;
              cap_AverageFrameRate := avg;
              cap_MinimumFrameRate := r5;
              cap_MaximumFrameRate := r6 |}
  | FORMAT_Other => Some XDeviceCapabilities_default
  end.

(** The locals of the enumeration loop. *)
Record EnumState := {
  capabilites : list XDeviceCapabilities;
  pExactMediaType : option AM_MEDIA_TYPE;
  pCloseMediaType : option AM_MEDIA_TYPE
}.

(** One turn of [for ( int i = 0; i < count; i++ )]. *)
Definition enum_step (capToSet : XDeviceCapabilities) (st : EnumState)
    (sc : StreamCaps) : option EnumState :=
  match sc_pMediaType sc with
  | Some pMediaType =>
      if SUCCEEDED (sc_hr sc) then
        xcap ← read_capability pMediaType (sc_caps sc);
        if negb (cap_Width xcap =? 0) && (cap_BitCount xcap >? 12) then
          let caps' :=
            if existsb (fun c => cap_eqb c xcap) (capabilites st)
            then capabilites st
            else capabilites st ++ [xcap] in
          if cap_eqb xcap capToSet &&
             bool_decide (pExactMediaType st = None :> option AM_MEDIA_TYPE)
          then Some {| capabilites := caps';
                       pExactMediaType := Some pMediaType;
                       pCloseMediaType := pCloseMediaType st |}
          else if (cap_Width xcap =? cap_Width capToSet) &&
                  (cap_Height xcap =? cap_Height capToSet) &&
                  bool_decide (pCloseMediaType st = None
                               :> option AM_MEDIA_TYPE)
          then Some {| capabilites := caps';
                       pExactMediaType := pExactMediaType st;
                       pCloseMediaType := Some pMediaType |}
          else Some {| capabilites := caps';
                       pExactMediaType := pExactMediaType st;
                       pCloseMediaType := pCloseMediaType st |}
        else Some st
      else Some st
  | None => Some st
  end.

Fixpoint enum_loop (capToSet : XDeviceCapabilities) (st : EnumState)
    (formats : list StreamCaps) : option EnumState :=
  match formats with
  | [] => Some st
  | sc :: rest =>
      st' ← enum_step capToSet st sc;
      enum_loop capToSet st' rest
  end.

(** [OverrideAverageTimePerFrame] *)
Definition OverrideAverageTimePerFrame (pMediaType : AM_MEDIA_TYPE)
    (requestedFps : Z) : AM_MEDIA_TYPE :=
  if negb (requestedFps =? 0) then
    match formattype pMediaType with
    | FORMAT_VideoInfo | FORMAT_VideoInfo2 =>
        {| formattype := formattype pMediaType;
           biWidth := biWidth pMediaType; biHeight := biHeight pMediaType;
           biBitCount := biBitCount pMediaType;
           AvgTimePerFrame := Z.quot 10000000 requestedFps |}
    | FORMAT_Other => pMediaType
    end
  else pMediaType.

(** [GetPinCapabilitiesAndConfigureIt]: the capabilities it returns and
    the media type it gives to [SetFormat], if any.  [pStreamConfig] is
    the list of formats behind the stream configuration interface, [None]
    when the filter has none. *)
Definition GetPinCapabilitiesAndConfigureIt
    (pStreamConfig : option (list StreamCaps))
    (capToSet : XDeviceCapabilities) (requestedFps : Z)
  : option (list XDeviceCapabilities * option AM_MEDIA_TYPE) :=
  match pStreamConfig with
  | Some formats =>
      st ← enum_loop capToSet
             {| capabilites := []; pExactMediaType := None;
                pCloseMediaType := None |} formats;
      Some (capabilites st,
            match pExactMediaType st, pCloseMediaType st with
            | Some mt, _ => Some (OverrideAverageTimePerFrame mt requestedFps)
            | None, Some mt =>
                Some (OverrideAverageTimePerFrame mt requestedFps)
            | None, None => None
            end)
  | None => Some ([], None)
  end.

(** ** The states a device record goes through *)

(** One step: an operation of the facade, or what the background thread
    and a discovery run do to the record.  Those write the discovery
    results, the counters, the events and the control handles; they never
    write the moniker, and the thread does not start by itself. *)
Inductive device_step (pin0 : XDevicePinInfo)
  : XLocalVideoDeviceData -> XLocalVideoDeviceData -> Prop :=
  | step_SetDeviceMoniker moniker s :
      device_step pin0 s (SetDeviceMoniker pin0 moniker s).2
  | step_SetResolution resolution fps s :
      device_step pin0 s (SetResolution resolution fps s).2
  | step_SetVideoInput input s :
      device_step pin0 s (SetVideoInput input s)
  | step_SetListener listener s :
      device_step pin0 s (SetListener listener s)
  | step_Start created s :
      device_step pin0 s (Start created s).1.2
  | step_SignalToStop s :
      device_step pin0 s (SignalToStop s)
  | step_SetVideoProperty property value automatic s :
      device_step pin0 s (SetVideoProperty property value automatic s).1.2
  | step_SetCameraProperty property value automatic s :
      device_step pin0 s (SetCameraProperty property value automatic s).1.2
  | step_background s s' :
      DeviceMoniker s' = DeviceMoniker s ->
      (IsRunning s' = true -> IsRunning s = true) ->
      device_step pin0 s s'.

Inductive reachable (pin0 : XDevicePinInfo)
  : XLocalVideoDeviceData -> Prop :=
  | reachable_new deviceMoniker :
      reachable pin0 (XLocalVideoDeviceData_new pin0 deviceMoniker)
  | reachable_step s s' :
      reachable pin0 s -> device_step pin0 s s' -> reachable pin0 s'.

(** ** Pixels, for the statements about the converter *)

(** Byte [c] of the pixel in column [x] of row [y] of an image, rows
    counted from the top. *)
Definition image_byte (img : XImage) (x y c : Z) : option Z :=
  load (img_Data img) (y * img_Stride img + 3 * x + c).

(** Byte [c] of the pixel in column [x] of row [y] of a raw frame whose
    rows are [stride] bytes apart, rows counted from the start of the
    buffer. *)
Definition frame_byte (buffer : list Z) (stride x y c : Z) : option Z :=
  load buffer (y * stride + 3 * x + c).

(** An RGB24 image of [width] by [height] pixels: a row of pixels fits in
    the stride, the data holds [height] rows, and its size fits an [int]. *)
Definition image_fits (width height : Z) (img : XImage) : Prop :=
  img_Width img = width /\ img_Height img = height /\
  3 * width <= img_Stride img /\
  Z.of_nat (length (img_Data img)) = img_Stride img * height /\
  img_Stride img * height <= INT_MAX.

(** An allocator to run the callback with: rows padded to a multiple of
    four bytes, data zeroed. *)
Definition Allocate_padded (width height : Z) : option XImage :=
  let stride := (3 * width + 3) / 4 * 4 in
  Some {| img_Width := width; img_Height := height; img_Stride := stride;
          img_Data := replicate (Z.to_nat (stride * height)) 0 |}.

(** ** Hardware calls, for the statements about deferred properties *)

Definition E_NOINTERFACE : HRESULT := to_int32 0x80004002.

(** The call [SetVideoProperty] makes on a running device for one entry
    of the map of deferred properties. *)
Definition video_set_event (entry : Z * PropValue) : Event :=
  EvVideoProcAmpSet
    (nth (Z.to_nat entry.1) nativeVideoProperties VideoProcAmp_Brightness)
    (to_int32 entry.2.1)
    (if entry.2.2 then VideoProcAmp_Flags_Auto
     else VideoProcAmp_Flags_Manual).

(** Whether the hardware accepts that call. *)
Definition video_set_ok (amp : IAMVideoProcAmp) (entry : Z * PropValue)
  : bool :=
  negb (FAILED (vpa_Set amp
    (nth (Z.to_nat entry.1) nativeVideoProperties VideoProcAmp_Brightness)
    (to_int32 entry.2.1)
    (if entry.2.2 then VideoProcAmp_Flags_Auto
     else VideoProcAmp_Flags_Manual))).

(** What the camera half of the start-up block may emit. *)
Definition camera_event (e : Event) : Prop :=
  match e with
  | EvCameraControlSet _ _ _ => True
  | EvOnError message =>
      message = "Failed applying camera configuration"%string
  | _ => False
  end.

(** ** Formats, for the statements about the enumeration *)

(** The capability a format contributes to the list: the format was
    delivered, it is a video format with a width, and it has more than 12
    bits per pixel. *)
Definition usable_capability (sc : StreamCaps) : option XDeviceCapabilities :=
  match sc_pMediaType sc with
  | Some pMediaType =>
      if SUCCEEDED (sc_hr sc) then
        xcap ← read_capability pMediaType (sc_caps sc);
        if negb (cap_Width xcap =? 0) && (cap_BitCount xcap >? 12)
        then Some xcap else None
      else None
  | None => None
  end.

(** The enumeration divides by the frame intervals of a delivered video
    format; they are not zero. *)
Definition format_readable (sc : StreamCaps) : Prop :=
  match sc_pMediaType sc with
  | Some pMediaType =>
      SUCCEEDED (sc_hr sc) = true ->
      is_Some (read_capability pMediaType (sc_caps sc))
  | None => True
  end.

(** The list after one more format. *)
Definition add_capability (caps : list XDeviceCapabilities) (sc : StreamCaps)
  : list XDeviceCapabilities :=
  match usable_capability sc with
  | Some xcap =>
      if existsb (fun c => cap_eqb c xcap) caps then caps else caps ++ [xcap]
  | None => caps
  end.

(** ** Sample values

    A device, a grabber, a frame and a source filter to run the
    operations on. *)

Definition sample_pin : XDevicePinInfo :=
  {| pin_Index := 0; pin_Type := 0; pin_IsInput := true |}.

(** A device with moniker and listener, idle. *)
Definition sample_device : XLocalVideoDeviceData :=
  SetListener (Some 1%nat) (XLocalVideoDeviceData_new sample_pin "cam").

(** The same device after a successful [Start]. *)
Definition sample_started : XLocalVideoDeviceData :=
  (Start true sample_device).1.2.

Definition sample_grabber : SampleGrabber :=
  {| mImage := None; mWidth := 2; mHeight := 2; mSSSE3supported := true |}.

(** Two rows of two BGR pixels. *)
Definition sample_frame : list Z :=
  [11; 12; 13; 21; 22; 23; 31; 32; 33; 41; 42; 43].

(** A control interface that knows every property but the contrast. *)
Definition sample_amp : IAMVideoProcAmp :=
  {| vpa_Set := fun prop _ _ =>
       match prop with
       | VideoProcAmp_Contrast => E_PROP_ID_UNSUPPORTED
       | _ => S_OK
       end;
     vpa_Get := fun _ => (S_OK, 0, VideoProcAmp_Flags_Manual) |}.

Definition sample_filter : IBaseFilter :=
  {| QueryInterface_IAMVideoProcAmp := (S_OK, Some sample_amp);
     QueryInterface_IAMCameraControl := (E_NOINTERFACE, None) |}.

(** A source filter without control interfaces. *)
Definition plain_filter : IBaseFilter :=
  {| QueryInterface_IAMVideoProcAmp := (E_NOINTERFACE, None);
     QueryInterface_IAMCameraControl := (E_NOINTERFACE, None) |}.

(** The sample device with two properties set before it runs. *)
Definition sample_configured : XLocalVideoDeviceData :=
  (SetVideoProperty XVideoProperty.Brightness (-5) false
     (SetVideoProperty XVideoProperty.Contrast 7 true sample_device).1.2).1.2.

(** A 12-bit and a 24-bit format of 640 by 480, 30 frames a second. *)
Definition sample_format (bits : Z) : StreamCaps :=
  {| sc_hr := S_OK;
     sc_pMediaType :=
       Some {| formattype := FORMAT_VideoInfo; biWidth := 640;
               biHeight := 480; biBitCount := bits;
               AvgTimePerFrame := 333333 |};
     sc_caps := {| MinFrameInterval := 333333;
                   MaxFrameInterval := 1000000 |} |}.

(** ** More of the device record *)

Definition set_NeedToSetVideoInput (v : bool)
    (s : XLocalVideoDeviceData) : XLocalVideoDeviceData :=
  {| DeviceMoniker := DeviceMoniker s;
     Resolution := Resolution s;
     RequestedFps := RequestedFps s;
     VideoInput := VideoInput s;
     NeedToSetVideoInput := v;
     Capabilities := Capabilities s;
     VideoPins := VideoPins s;
     IsCrossbarAvailable := IsCrossbarAvailable s;
     InfoCollectedEvent := InfoCollectedEvent s;
     Listener := Listener s;
     ExitEvent := ExitEvent s;
     BackgroundThread := BackgroundThread s;
     FramesCounter := FramesCounter s;
     DeviceIsRunningEvent := DeviceIsRunningEvent s;
     DeviceIsRunning := DeviceIsRunning s;
     VideoProcAmp := VideoProcAmp s;
     CameraControl := CameraControl s;
     VideoPropertiesToSet := VideoPropertiesToSet s;
     CameraPropertiesToSet := CameraPropertiesToSet s |}.

Definition set_VideoInput (v : XDevicePinInfo)
    (s : XLocalVideoDeviceData) : XLocalVideoDeviceData :=
  {| DeviceMoniker := DeviceMoniker s;
     Resolution := Resolution s;
     RequestedFps := RequestedFps s;
     VideoInput := v;
     NeedToSetVideoInput := NeedToSetVideoInput s;
     Capabilities := Capabilities s;
     VideoPins := VideoPins s;
     IsCrossbarAvailable := IsCrossbarAvailable s;
     InfoCollectedEvent := InfoCollectedEvent s;
     Listener := Listener s;
     ExitEvent := ExitEvent s;
     BackgroundThread := BackgroundThread s;
     FramesCounter := FramesCounter s;
     DeviceIsRunningEvent := DeviceIsRunningEvent s;
     DeviceIsRunning := DeviceIsRunning s;
     VideoProcAmp := VideoProcAmp s;
     CameraControl := CameraControl s;
     VideoPropertiesToSet := VideoPropertiesToSet s;
     CameraPropertiesToSet := CameraPropertiesToSet s |}.

(** [VideoPins = v; IsCrossbarAvailable = true] *)
Definition set_VideoPins (v : list XDevicePinInfo)
    (s : XLocalVideoDeviceData) : XLocalVideoDeviceData :=
  {| DeviceMoniker := DeviceMoniker s;
     Resolution := Resolution s;
     RequestedFps := RequestedFps s;
     VideoInput := VideoInput s;
     NeedToSetVideoInput := NeedToSetVideoInput s;
     Capabilities := Capabilities s;
     VideoPins := v;
     IsCrossbarAvailable := true;
     InfoCollectedEvent := InfoCollectedEvent s;
     Listener := Listener s;
     ExitEvent := ExitEvent s;
     BackgroundThread := BackgroundThread s;
     FramesCounter := FramesCounter s;
     DeviceIsRunningEvent := DeviceIsRunningEvent s;
     DeviceIsRunning := DeviceIsRunning s;
     VideoProcAmp := VideoProcAmp s;
     CameraControl := CameraControl s;
     VideoPropertiesToSet := VideoPropertiesToSet s;
     CameraPropertiesToSet := CameraPropertiesToSet s |}.

Definition set_Capabilities (v : list XDeviceCapabilities)
    (s : XLocalVideoDeviceData) : XLocalVideoDeviceData :=
  {| DeviceMoniker := DeviceMoniker s;
     Resolution := Resolution s;
     RequestedFps := RequestedFps s;
     VideoInput := VideoInput s;
     NeedToSetVideoInput := NeedToSetVideoInput s;
     Capabilities := v;
     VideoPins := VideoPins s;
     IsCrossbarAvailable := IsCrossbarAvailable s;
     InfoCollectedEvent := InfoCollectedEvent s;
     Listener := Listener s;
     ExitEvent := ExitEvent s;
     BackgroundThread := BackgroundThread s;
     FramesCounter := FramesCounter s;
     DeviceIsRunningEvent := DeviceIsRunningEvent s;
     DeviceIsRunning := DeviceIsRunning s;
     VideoProcAmp := VideoProcAmp s;
     CameraControl := CameraControl s;
     VideoPropertiesToSet := VideoPropertiesToSet s;
     CameraPropertiesToSet := CameraPropertiesToSet s |}.

Definition set_InfoCollectedEvent (v : bool)
    (s : XLocalVideoDeviceData) : XLocalVideoDeviceData :=
  {| DeviceMoniker := DeviceMoniker s;
     Resolution := Resolution s;
     RequestedFps := RequestedFps s;
     VideoInput := VideoInput s;
     NeedToSetVideoInput := NeedToSetVideoInput s;
     Capabilities := Capabilities s;
     VideoPins := VideoPins s;
     IsCrossbarAvailable := IsCrossbarAvailable s;
     InfoCollectedEvent := v;
     Listener := Listener s;
     ExitEvent := ExitEvent s;
     BackgroundThread := BackgroundThread s;
     FramesCounter := FramesCounter s;
     DeviceIsRunningEvent := DeviceIsRunningEvent s;
     DeviceIsRunning := DeviceIsRunning s;
     VideoProcAmp := VideoProcAmp s;
     CameraControl := CameraControl s;
     VideoPropertiesToSet := VideoPropertiesToSet s;
     CameraPropertiesToSet := CameraPropertiesToSet s |}.

(** ** The crossbar *)

Definition PhysConn_Video_VideoDecoder : Z := 12.
Definition PhysConn_Audio_Tuner : Z := 0x1000.

(** [IAMCrossbar], as far as its answers are read: the pin counts (output,
    input), the information about a pin (result code, related pin, type),
    whether two pins can be routed and the input an output is routed
    to. *)
Record IAMCrossbar := {
  get_PinCounts : Z * Z;
  get_CrossbarPinInfo : bool -> Z -> HRESULT * Z * Z;
  CanRoute : Z -> Z -> HRESULT;
  get_IsRoutedTo : Z -> HRESULT * Z
}.

(** [for ( long i = 0; i < count; i++ )] that skips the pins without
    information and breaks at the first pin that passes [test]; the index
    it leaves, [-1] when there is none. *)
Fixpoint find_pin (test : Z -> Z -> bool) (info : Z -> HRESULT * Z * Z)
    (n : nat) (i : Z) : Z :=
  match n with
  | O => -1
  | S n' =>
      let '(hr, _, pinType) := info i in
      if FAILED hr then find_pin test info n' (i + 1)
      else if test i pinType then i
      else find_pin test info n' (i + 1)
  end.

(** [SetCurrentCrossbarInput]: the call of [Route( output, input )] it
    makes, if it makes one.  [Unknown] is [PinType::Unknown], declared
    outside these sources. *)
Definition SetCurrentCrossbarInput (Unknown : Z)
    (pCrossbar : option IAMCrossbar) (videoInput : XDevicePinInfo)
  : option (Z * Z) :=
  match pCrossbar with
  | Some crossbar =>
      if negb (pin_Type videoInput =? Unknown) && pin_IsInput videoInput then
        let '(outPinsCount, inPinsCount) := get_PinCounts crossbar in
        let videoOutputPinIndex :=
          find_pin (fun _ pinType => pinType =? PhysConn_Video_VideoDecoder)
                   (get_CrossbarPinInfo crossbar false)
                   (Z.to_nat outPinsCount) 0 in
        let videoInputPinIndex :=
          find_pin (fun i pinType => (pinType =? pin_Type videoInput) &&
                                     (i =? pin_Index videoInput))
                   (get_CrossbarPinInfo crossbar true)
                   (Z.to_nat inPinsCount) 0 in
        if negb (videoInputPinIndex =? -1) &&
           negb (videoOutputPinIndex =? -1) &&
           SUCCEEDED (CanRoute crossbar videoOutputPinIndex
                               videoInputPinIndex)
        then Some (videoOutputPinIndex, videoInputPinIndex)
        else None
      else None
  | None => None
  end.

(** [GetCurrentCrossbarInput].  [pin0] is the default-constructed pin and
    [newPin index type] the pin made by the two-argument constructor. *)
Definition GetCurrentCrossbarInput (pin0 : XDevicePinInfo)
    (newPin : Z -> Z -> XDevicePinInfo) (pCrossbar : option IAMCrossbar)
  : XDevicePinInfo :=
  match pCrossbar with
  | Some crossbar =>
      let '(outPinsCount, inPinsCount) := get_PinCounts crossbar in
      let videoOutputPinIndex :=
        find_pin (fun _ pinType => pinType =? PhysConn_Video_VideoDecoder)
                 (get_CrossbarPinInfo crossbar false)
                 (Z.to_nat outPinsCount) 0 in
      if negb (videoOutputPinIndex =? -1) then
        let '(hr, videoInputPinIndex) :=
          get_IsRoutedTo crossbar videoOutputPinIndex in
        if SUCCEEDED hr then
          let '(hr2, _, pinType) :=
            get_CrossbarPinInfo crossbar true videoInputPinIndex in
          if SUCCEEDED hr2 then newPin videoInputPinIndex pinType
          else pin0
        else pin0
      else pin0
  | None => pin0
  end.

(** The loop of [ColletCrossbarVideoInputs]. *)
Fixpoint collect_inputs (newPin : Z -> Z -> XDevicePinInfo)
    (info : Z -> HRESULT * Z * Z) (n : nat) (i : Z)
  : list XDevicePinInfo :=
  match n with
  | O => []
  | S n' =>
      let '(hr, _, pinType) := info i in
      if FAILED hr then collect_inputs newPin info n' (i + 1)
      else if pinType <? PhysConn_Audio_Tuner
      then newPin i pinType :: collect_inputs newPin info n' (i + 1)
      else collect_inputs newPin info n' (i + 1)
  end.

(** [ColletCrossbarVideoInputs] *)
Definition ColletCrossbarVideoInputs (newPin : Z -> Z -> XDevicePinInfo)
    (pCrossbar : option IAMCrossbar) : list XDevicePinInfo :=
  match pCrossbar with
  | Some crossbar =>
      let '(outPinsCount, inPinsCount) := get_PinCounts crossbar in
      collect_inputs newPin (get_CrossbarPinInfo crossbar true)
                     (Z.to_nat inPinsCount) 0
  | None => []
  end.

(** ** [RunVideo] without running the video *)

(** The source filter [CreateFilter] made, as far as a discovery run asks
    it: for its crossbar (result code and pointer) and for the formats
    behind its stream configuration. *)
Record CaptureDevice := {
  dev_crossbar : HRESULT * option IAMCrossbar;
  dev_streamConfig : option (list StreamCaps)
}.

(** [RunVideo( false )]: one pass through the [do ... while] body, which
    collects the pins and the capabilities and runs nothing.
    [basicInitialization] tells whether the graph builder, the filter
    graph and the sample grabber could be made, [pSourceFilter] is the
    filter for the moniker ([None] when it cannot be made).  The answer is
    the record, what the listener was told and the media type given to
    [SetFormat]. *)
Definition RunVideo_discover (newPin : Z -> Z -> XDevicePinInfo)
    (basicInitialization : bool) (pSourceFilter : option CaptureDevice)
    (s : XLocalVideoDeviceData)
  : option (XLocalVideoDeviceData * list Event * option AM_MEDIA_TYPE) :=
  '(s, events, format) ←
    (if basicInitialization then
       let s := set_NeedToSetVideoInput true s in
       match pSourceFilter with
       | None =>
           Some (s, NotifyError "Did not find video device. Unplugged?"
                                false s, None)
       | Some device =>
           let '(hr, pCrossbar) := dev_crossbar device in
           let s :=
             if SUCCEEDED hr && bool_decide (is_Some pCrossbar)
             then set_VideoPins (ColletCrossbarVideoInputs newPin pCrossbar) s
             else s in
           '(capabilities, format) ←
             GetPinCapabilitiesAndConfigureIt (dev_streamConfig device)
               (Resolution s) (RequestedFps s);
           let s := set_Capabilities capabilities s in
           let s := set_InfoCollectedEvent true s in
           Some (s, [], format)
       end
     else
       Some (s, NotifyError "Failed DirectShow initialization" true s, None));
  Some (set_InfoCollectedEvent true s, events, format).

(** [XLocalVideoDeviceData::CollectInfo].  [awaited] is the record as the
    running thread left it when it signalled the info-collected event
    within the five seconds, [None] when it did not. *)
Definition CollectInfo (newPin : Z -> Z -> XDevicePinInfo)
    (awaited : option XLocalVideoDeviceData)
    (basicInitialization : bool) (pSourceFilter : option CaptureDevice)
    (s : XLocalVideoDeviceData)
  : option (bool * XLocalVideoDeviceData * list Event) :=
  if negb (string_empty (DeviceMoniker s)) then
    if InfoCollectedEvent s then Some (true, s, [])
    else if XThread_IsRunning (BackgroundThread s) then
      match awaited with
      | Some s' => Some (true, s', [])
      | None => Some (false, s, [])
      end
    else
      '(s', events, _) ←
        RunVideo_discover newPin basicInitialization pSourceFilter s;
      Some (true, s', events)
  else Some (false, s, []).

(** [XLocalVideoDevice::GetCapabilities] *)
Definition GetCapabilities (newPin : Z -> Z -> XDevicePinInfo)
    (awaited : option XLocalVideoDeviceData)
    (basicInitialization : bool) (pSourceFilter : option CaptureDevice)
    (s : XLocalVideoDeviceData)
  : option (list XDeviceCapabilities * XLocalVideoDeviceData * list Event) :=
  '(ok, s', events) ←
    CollectInfo newPin awaited basicInitialization pSourceFilter s;
  Some (if (ok : bool) then Capabilities s' else [], s', events).

(** [XLocalVideoDevice::GetInputVideoPins] *)
Definition GetInputVideoPins (newPin : Z -> Z -> XDevicePinInfo)
    (awaited : option XLocalVideoDeviceData)
    (basicInitialization : bool) (pSourceFilter : option CaptureDevice)
    (s : XLocalVideoDeviceData)
  : option (list XDevicePinInfo * XLocalVideoDeviceData * list Event) :=
  '(ok, s', events) ←
    CollectInfo newPin awaited basicInitialization pSourceFilter s;
  Some (if (ok : bool) then VideoPins s' else [], s', events).

(** [XLocalVideoDevice::IsCrossbarSupported] *)
Definition IsCrossbarSupported (newPin : Z -> Z -> XDevicePinInfo)
    (awaited : option XLocalVideoDeviceData)
    (basicInitialization : bool) (pSourceFilter : option CaptureDevice)
    (s : XLocalVideoDeviceData)
  : option (bool * XLocalVideoDeviceData * list Event) :=
  '(ok, s', events) ←
    CollectInfo newPin awaited basicInitialization pSourceFilter s;
  Some (if (ok : bool) then IsCrossbarAvailable s' else false, s', events).

(** ** [RunVideo]: one turn of the event loop *)

Definition EC_DEVICE_LOST : Z := 0x1F.

(** The body of [while ( !ExitEvent.Wait( 100 ) )].  [pMediaEventEx] is
    what [GetEvent] answers (result code and event code) when there is an
    event interface; [routed input] stands for setting the crossbar to
    [input] and reading its input back.  The answer tells whether the loop
    goes on. *)
Definition RunVideo_loop_body (pMediaEventEx : option (HRESULT * Z))
    (routed : XDevicePinInfo -> XDevicePinInfo)
    (s : XLocalVideoDeviceData)
  : bool * XLocalVideoDeviceData * list Event :=
  let lost :=
    match pMediaEventEx with
    | Some (hr, eventCode) => SUCCEEDED hr && (eventCode =? EC_DEVICE_LOST)
    | None => false
    end in
  if lost then
    (false, s, NotifyError "Device was lost. Unplugged?" false s)
  else if NeedToSetVideoInput s then
    let s := set_NeedToSetVideoInput false s in
    (true,
     if IsCrossbarAvailable s then set_VideoInput (routed (VideoInput s)) s
     else s,
     [])
  else (true, s, []).

(** ** Value ranges *)

(** [XLocalVideoDeviceData::GetVideoPropertyRange].  [pointers] tells
    whether all five places for the answer are there, [GetRange] is what
    the control interface answers (result code, minimum, maximum, step,
    default, flags).  The answer carries what was written and whether the
    interface was called. *)
Definition GetVideoPropertyRange
    (GetRange : VideoProcAmpProperty -> HRESULT * (Z * Z * Z * Z) * Z)
    (property : XVideoProperty) (pointers : bool)
    (s : XLocalVideoDeviceData)
  : XErrorCode * option (Z * Z * Z * Z * bool) * bool :=
  if negb pointers then (ErrorNullParameter, None, false)
  else if (property <? XVideoProperty.Brightness) ||
          (property >? XVideoProperty.Gain)
  then (ErrorInvalidProperty, None, false)
  else if negb (DeviceIsRunning s) then (ErrorDeivceNotReady, None, false)
  else
    match VideoProcAmp s with
    | None => (ErrorConfigurationNotSupported, None, false)
    | Some _ =>
        let prop :=
          nth (Z.to_nat property) nativeVideoProperties
              VideoProcAmp_Brightness in
        let '(hr, (propMin, propMax, propStep, propDef), propFlags) :=
          GetRange prop in
        if FAILED hr then
          (if hr =? E_PROP_ID_UNSUPPORTED
           then ErrorUnsupportedProperty else ErrorFailed, None, true)
        else
          (SuccessCode,
           Some (propMin, propMax, propStep, propDef,
                 negb (Z.land propFlags VideoProcAmp_Flags_Auto =? 0)),
           true)
    end.

(** [XLocalVideoDeviceData::IsVideoConfigSupported] *)
Definition IsVideoConfigSupported (s : XLocalVideoDeviceData) : bool :=
  bool_decide (is_Some (VideoProcAmp s)).

(** [XLocalVideoDeviceData::IsCameraConfigSupported] *)
Definition IsCameraConfigSupported (s : XLocalVideoDeviceData) : bool :=
  bool_decide (is_Some (CameraControl s)).

(** ** The record under the running-state lock *)

(** The fields guarded by [RunningSync] are the same in two records. *)
Definition same_session (s s' : XLocalVideoDeviceData) : Prop :=
  DeviceIsRunning s' = DeviceIsRunning s /\
  DeviceIsRunningEvent s' = DeviceIsRunningEvent s /\
  VideoProcAmp s' = VideoProcAmp s /\
  CameraControl s' = CameraControl s /\
  VideoPropertiesToSet s' = VideoPropertiesToSet s /\
  CameraPropertiesToSet s' = CameraPropertiesToSet s.

(** The steps that concern the fields guarded by [RunningSync]: the two
    operations that write the maps of deferred properties, the two blocks
    of [RunVideo] that hold the lock, and everything else, which leaves
    those fields alone. *)
Inductive session_step
  : XLocalVideoDeviceData -> XLocalVideoDeviceData -> Prop :=
  | session_SetVideoProperty property value automatic s :
      session_step s (SetVideoProperty property value automatic s).1.2
  | session_SetCameraProperty property value automatic s :
      session_step s (SetCameraProperty property value automatic s).1.2
  | session_started pSourceFilter s :
      session_step s (RunVideo_device_started pSourceFilter s).1
  | session_stopped s :
      session_step s (RunVideo_device_stopped s)
  | session_other s s' :
      same_session s s' -> session_step s s'.

Inductive session_reachable (pin0 : XDevicePinInfo)
  : XLocalVideoDeviceData -> Prop :=
  | session_new deviceMoniker :
      session_reachable pin0 (XLocalVideoDeviceData_new pin0 deviceMoniker)
  | session_next s s' :
      session_reachable pin0 s -> session_step s s' ->
      session_reachable pin0 s'.

(** ** For the statements about the rest of the code *)

(** The parent record after a callback: the frame is counted unless the
    exit event is signalled. *)
Definition counted (mParent : XLocalVideoDeviceData) : XLocalVideoDeviceData :=
  if negb (ExitEvent mParent)
  then set_FramesCounter (to_uint32 (FramesCounter mParent + 1)) mParent
  else mParent.

(** The allocator gives images of the size it is asked for. *)
Definition allocates_size (Allocate : Z -> Z -> option XImage) : Prop :=
  forall width height img,
    Allocate width height = Some img ->
    img_Width img = width /\ img_Height img = height.

(** A capability of the requested width and height. *)
Definition same_size (capToSet xcap : XDeviceCapabilities) : Prop :=
  cap_Width xcap = cap_Width capToSet /\
  cap_Height xcap = cap_Height capToSet.

(** What the enumeration loop holds after the formats [seen]: an exact
    media type comes from a format of the requested capability, a close
    one from a format of the requested size, and they are there as soon as
    such a format was seen. *)
Definition selection_inv (capToSet : XDeviceCapabilities)
    (seen : list StreamCaps) (st : EnumState) : Prop :=
  (forall mt, pExactMediaType st = Some mt ->
     exists sc, sc ∈ seen /\ sc_pMediaType sc = Some mt /\
                usable_capability sc = Some capToSet) /\
  (forall mt, pCloseMediaType st = Some mt ->
     exists sc xcap, sc ∈ seen /\ sc_pMediaType sc = Some mt /\
                     usable_capability sc = Some xcap /\
                     same_size capToSet xcap) /\
  (forall sc, sc ∈ seen -> usable_capability sc = Some capToSet ->
     is_Some (pExactMediaType st)) /\
  (forall sc xcap, sc ∈ seen -> usable_capability sc = Some xcap ->
     same_size capToSet xcap ->
     is_Some (pExactMediaType st) \/ is_Some (pCloseMediaType st)).

(** A property between [Brightness] and [Gain]. *)
Definition valid_video_property (property : XVideoProperty) : Prop :=
  XVideoProperty.Brightness <= property <= XVideoProperty.Gain.

(** A property between [Pan] and [Focus]. *)
Definition valid_camera_property (property : XCameraProperty) : Prop :=
  XCameraProperty.Pan <= property <= XCameraProperty.Focus.

(** The keys of a map of deferred properties pass [valid]. *)
Definition keys_valid (valid : Z -> Prop) (m : gmap Z PropValue) : Prop :=
  forall k v, m !! k = Some v -> valid k.

(** A call of the video control interface's [Set]. *)
Definition is_video_set (e : Event) : Prop :=
  match e with EvVideoProcAmpSet _ _ _ => True | _ => False end.

(** The event interface reports that the device was lost. *)
Definition device_lost (pMediaEventEx : option (HRESULT * Z)) : bool :=
  match pMediaEventEx with
  | Some (hr, eventCode) => SUCCEEDED hr && (eventCode =? EC_DEVICE_LOST)
  | None => false
  end.

(** A pin with information whose type passes [test]. *)
Definition pin_passes (test : Z -> Z -> bool) (info : Z -> HRESULT * Z * Z)
    (i : Z) : bool :=
  negb (FAILED (info i).1.1) && test i (info i).2.

(** A sample crossbar: a video decoder output, a tuner, a composite and an
    audio input. *)
Definition sample_crossbar : IAMCrossbar :=
  {| get_PinCounts := (1, 3);
     get_CrossbarPinInfo := fun isInput i =>
       if isInput then
         (S_OK, 0, if i =? 0 then 1 else if i =? 1 then 2 else 0x1000)
       else (S_OK, 0, PhysConn_Video_VideoDecoder);
     CanRoute := fun _ _ => S_OK;
     get_IsRoutedTo := fun _ => (S_OK, 0) |}.

Definition sample_newPin (index type : Z) : XDevicePinInfo :=
  {| pin_Index := index; pin_Type := type; pin_IsInput := true |}.

(** A device with the sample crossbar and two formats. *)
Definition sample_capture : CaptureDevice :=
  {| dev_crossbar := (S_OK, Some sample_crossbar);
     dev_streamConfig := Some [sample_format 12; sample_format 24] |}.

(** The test of the output pin search. *)
Definition is_decoder (i pinType : Z) : bool :=
  pinType =? PhysConn_Video_VideoDecoder.

(** The test of [ColletCrossbarVideoInputs]. *)
Definition is_video (i pinType : Z) : bool :=
  pinType <? PhysConn_Audio_Tuner.

(** What the facade and the threads do to a record outside the blocks that
    hold the running-state lock and outside the two property setters. *)
Inductive facade_step (pin0 : XDevicePinInfo)
  : XLocalVideoDeviceData -> XLocalVideoDeviceData -> Prop :=
  | facade_SetDeviceMoniker moniker s :
      facade_step pin0 s (SetDeviceMoniker pin0 moniker s).2
  | facade_SetResolution resolution requestedFps s :
      facade_step pin0 s (SetResolution resolution requestedFps s).2
  | facade_SetVideoInput input s :
      facade_step pin0 s (SetVideoInput input s)
  | facade_SetListener listener s :
      facade_step pin0 s (SetListener listener s)
  | facade_Start created s :
      facade_step pin0 s (Start created s).1.2
  | facade_SignalToStop s :
      facade_step pin0 s (SignalToStop s)
  | facade_BufferCB Allocate g s pBuffer bufferLen g' s' events :
      BufferCB Allocate g s pBuffer bufferLen = Some (g', s', events) ->
      facade_step pin0 s s'
  | facade_loop_body pMediaEventEx routed s :
      facade_step pin0 s (RunVideo_loop_body pMediaEventEx routed s).1.2
  | facade_discover newPin basicInitialization pSourceFilter s s' events
      format :
      RunVideo_discover newPin basicInitialization pSourceFilter s
        = Some (s', events, format) ->
      facade_step pin0 s s'
  | facade_CollectInfo newPin basicInitialization pSourceFilter s ok s'
      events :
      CollectInfo newPin None basicInitialization pSourceFilter s
        = Some (ok, s', events) ->
      facade_step pin0 s s'.

(** * Proofs *)

(** ** Buffers *)

Lemma load_Some_inv (m : list Z) p v :
  load m p = Some v -> 0 <= p < Z.of_nat (length m).
Proof.
  unfold load. destruct (Z.leb_spec 0 p); [|done].
  intros Hl. apply lookup_lt_Some in Hl. lia.
Qed.

Lemma load_in_range (m : list Z) p :
  0 <= p < Z.of_nat (length m) -> is_Some (load m p).
Proof.
  intros Hp. unfold load. destruct (Z.leb_spec 0 p); [|lia].
  apply lookup_lt_is_Some. lia.
Qed.

Lemma store_Some_inv (m : list Z) p v r :
  store m p v = Some r ->
  0 <= p < Z.of_nat (length m) /\ r = <[Z.to_nat p := v]> m.
Proof.
  unfold store. destruct (Z.leb_spec 0 p); [|done].
  destruct (m !! Z.to_nat p) eqn:Hl; [|done].
  intros [= <-]. apply lookup_lt_Some in Hl. split; [lia|done].
Qed.

Lemma store_in_range (m : list Z) p v :
  0 <= p < Z.of_nat (length m) -> store m p v = Some (<[Z.to_nat p := v]> m).
Proof.
  intros Hp. unfold store. destruct (Z.leb_spec 0 p); [|lia].
  destruct (lookup_lt_is_Some_2 m (Z.to_nat p)) as [x ->]; [lia|done].
Qed.

Lemma store_length (m : list Z) p v r :
  store m p v = Some r -> length r = length m.
Proof.
  intros Hs. apply store_Some_inv in Hs as [_ ->]. apply length_insert.
Qed.

Lemma load_app (pre l : list Z) k :
  0 <= k -> load (pre ++ l) (Z.of_nat (length pre) + k) = load l k.
Proof.
  intros Hk. unfold load.
  destruct (Z.leb_spec 0 (Z.of_nat (length pre) + k)); [|lia].
  destruct (Z.leb_spec 0 k); [|lia].
  rewrite lookup_app_r by lia. f_equal. lia.
Qed.

Lemma store_app (pre l : list Z) k v :
  0 <= k ->
  store (pre ++ l) (Z.of_nat (length pre) + k) v = (pre ++.) <$> store l k v.
Proof.
  intros Hk. unfold store.
  destruct (Z.leb_spec 0 (Z.of_nat (length pre) + k)); [|lia].
  destruct (Z.leb_spec 0 k); [|lia].
  rewrite lookup_app_r by lia.
  replace (Z.to_nat (Z.of_nat (length pre) + k) - length pre)%nat
    with (Z.to_nat k) by lia.
  destruct (l !! Z.to_nat k); simpl; [|done].
  rewrite insert_app_r_alt by lia. do 3 f_equal. lia.
Qed.

Lemma load_bytes_Some_inv n (m : list Z) p r :
  load_bytes n m p = Some r ->
  length r = n /\ ((0 < n)%nat -> 0 <= p /\ p + Z.of_nat n <= Z.of_nat (length m)).
Proof.
  revert p r. induction n as [|n IH]; intros p r; simpl.
  - intros [= <-]. split; [done|lia].
  - destruct (load m p) as [b|] eqn:Hb; simpl; [|done].
    destruct (load_bytes n m (p + 1)) as [r'|] eqn:Hr; simpl; [|done].
    intros [= <-]. apply load_Some_inv in Hb.
    apply IH in Hr as [Hlen Hr]. split; [simpl; lia|].
    intros _. destruct n; [lia|]. lia.
Qed.

Lemma store_bytes_Some_inv (v m : list Z) p r :
  store_bytes m p v = Some r ->
  length r = length m /\
  ((0 < length v)%nat ->
   0 <= p /\ p + Z.of_nat (length v) <= Z.of_nat (length m)).
Proof.
  revert m p r. induction v as [|b v IH]; intros m p r; simpl.
  - intros [= <-]. split; [done|lia].
  - destruct (store m p b) as [m'|] eqn:Hm; simpl; [|done].
    intros Hr. apply IH in Hr as [Hlen Hr].
    pose proof (store_length _ _ _ _ Hm) as Hlen'.
    apply store_Some_inv in Hm as [Hp _].
    split; [lia|]. intros _. destruct v; simpl in *; lia.
Qed.

Lemma load_bytes_app n (pre l : list Z) k :
  0 <= k ->
  load_bytes n (pre ++ l) (Z.of_nat (length pre) + k) = load_bytes n l k.
Proof.
  revert k. induction n as [|n IH]; intros k Hk; simpl; [done|].
  rewrite load_app by done.
  replace (Z.of_nat (length pre) + k + 1)
    with (Z.of_nat (length pre) + (k + 1)) by lia.
  rewrite IH by lia. done.
Qed.

Lemma store_bytes_app (v pre l : list Z) k :
  0 <= k ->
  store_bytes (pre ++ l) (Z.of_nat (length pre) + k) v
  = (pre ++.) <$> store_bytes l k v.
Proof.
  revert l k. induction v as [|b v IH]; intros l k Hk; simpl; [done|].
  rewrite store_app by done.
  destruct (store l k b) as [l'|]; simpl; [|done].
  replace (Z.of_nat (length pre) + k + 1)
    with (Z.of_nat (length pre) + (k + 1)) by lia.
  apply IH. lia.
Qed.

(** ** The per-pixel loop *)

Lemma pixel_loop_length n src dst s d r :
  pixel_loop n src dst s d = Some r -> length r = length dst.
Proof.
  revert dst s d r. induction n as [|n IH]; intros dst s d r; simpl.
  - by intros [= <-].
  - intros H.
    destruct (load src (s + 0)) as [b|]; simpl in H; [|done].
    destruct (store dst (d + BlueIndex) b) as [d1|] eqn:H1; simpl in H; [|done].
    destruct (load src (s + 1)) as [g|]; simpl in H; [|done].
    destruct (store d1 (d + GreenIndex) g) as [d2|] eqn:H2; simpl in H; [|done].
    destruct (load src (s + 2)) as [c|]; simpl in H; [|done].
    destruct (store d2 (d + RedIndex) c) as [d3|] eqn:H3; simpl in H; [|done].
    apply IH in H. apply store_length in H1, H2, H3. lia.
Qed.

Lemma pixel_loop_Some_inv n src dst s d r :
  pixel_loop n src dst s d = Some r -> (0 < n)%nat ->
  0 <= s /\ s + 3 * Z.of_nat n <= Z.of_nat (length src) /\
  0 <= d /\ d + 3 * Z.of_nat n <= Z.of_nat (length dst).
Proof.
  revert dst s d r. induction n as [|n IH]; intros dst s d r; [lia|].
  simpl. intros H _.
  destruct (load src (s + 0)) as [b|] eqn:L0; simpl in H; [|done].
  destruct (store dst (d + BlueIndex) b) as [d1|] eqn:H1; simpl in H; [|done].
  destruct (load src (s + 1)) as [g|] eqn:L1; simpl in H; [|done].
  destruct (store d1 (d + GreenIndex) g) as [d2|] eqn:H2; simpl in H; [|done].
  destruct (load src (s + 2)) as [c|] eqn:L2; simpl in H; [|done].
  destruct (store d2 (d + RedIndex) c) as [d3|] eqn:H3; simpl in H; [|done].
  apply load_Some_inv in L0, L2.
  pose proof (store_length _ _ _ _ H1) as E1.
  pose proof (store_length _ _ _ _ H2) as E2.
  pose proof (store_length _ _ _ _ H3) as E3.
  apply store_Some_inv in H1 as [B1 _]. apply store_Some_inv in H3 as [B3 _].
  unfold BlueIndex, RedIndex in *.
  destruct n as [|n].
  - lia.
  - apply IH in H; [|lia]. lia.
Qed.

Lemma pixel_loop_app_src n (pre l : list Z) dst k d :
  0 <= k ->
  pixel_loop n (pre ++ l) dst (Z.of_nat (length pre) + k) d
  = pixel_loop n l dst k d.
Proof.
  revert dst k d. induction n as [|n IH]; intros dst k d Hk; simpl; [done|].
  replace (Z.of_nat (length pre) + k + 0)
    with (Z.of_nat (length pre) + (k + 0)) by lia.
  replace (Z.of_nat (length pre) + k + 1)
    with (Z.of_nat (length pre) + (k + 1)) by lia.
  replace (Z.of_nat (length pre) + k + 2)
    with (Z.of_nat (length pre) + (k + 2)) by lia.
  replace (Z.of_nat (length pre) + k + 3)
    with (Z.of_nat (length pre) + (k + 3)) by lia.
  rewrite !load_app by lia.
  destruct (load l (k + 0)); simpl; [|done].
  destruct (store dst _ _); simpl; [|done].
  destruct (load l (k + 1)); simpl; [|done].
  destruct (store _ _ _); simpl; [|done].
  destruct (load l (k + 2)); simpl; [|done].
  destruct (store _ _ _); simpl; [|done].
  apply IH. lia.
Qed.

Lemma pixel_loop_app_dst n src (pre l : list Z) s k :
  0 <= k ->
  pixel_loop n src (pre ++ l) s (Z.of_nat (length pre) + k)
  = (pre ++.) <$> pixel_loop n src l s k.
Proof.
  revert l s k. induction n as [|n IH]; intros l s k Hk; simpl; [done|].
  unfold BlueIndex, GreenIndex, RedIndex.
  replace (Z.of_nat (length pre) + k + 0)
    with (Z.of_nat (length pre) + (k + 0)) by lia.
  replace (Z.of_nat (length pre) + k + 1)
    with (Z.of_nat (length pre) + (k + 1)) by lia.
  replace (Z.of_nat (length pre) + k + 2)
    with (Z.of_nat (length pre) + (k + 2)) by lia.
  replace (Z.of_nat (length pre) + k + 3)
    with (Z.of_nat (length pre) + (k + 3)) by lia.
  destruct (load src (s + 0)); simpl; [|done].
  rewrite store_app by lia.
  destruct (store l (k + 2) _); simpl; [|done].
  destruct (load src (s + 1)); simpl; [|done].
  rewrite store_app by lia.
  destruct (store _ (k + 1) _); simpl; [|done].
  destruct (load src (s + 2)); simpl; [|done].
  rewrite store_app by lia.
  destruct (store _ (k + 0) _); simpl; [|done].
  apply IH. lia.
Qed.

Lemma pixel_loop_add a b src dst s d :
  pixel_loop (a + b) src dst s d
  = dst' ← pixel_loop a src dst s d;
    pixel_loop b src dst' (s + 3 * Z.of_nat a) (d + 3 * Z.of_nat a).
Proof.
  revert dst s d. induction a as [|a IH]; intros dst s d.
  - simpl. do 2 f_equal; lia.
  - cbn [Nat.add pixel_loop].
    destruct (load src (s + 0)); simpl; [|done].
    destruct (store dst _ _); simpl; [|done].
    destruct (load src (s + 1)); simpl; [|done].
    destruct (store _ _ _); simpl; [|done].
    destruct (load src (s + 2)); simpl; [|done].
    destruct (store _ _ _); simpl; [|done].
    rewrite IH. destruct (pixel_loop a _ _ _ _); simpl; [|done].
    f_equal; lia.
Qed.

(** ** One 16-pixel step is sixteen per-pixel steps *)

Lemma pack_step_Some_inv src dst s d r :
  pack_step src dst s d = Some r ->
  0 <= s /\ s + 48 <= Z.of_nat (length src) /\
  0 <= d /\ d + 48 <= Z.of_nat (length dst).
Proof.
  unfold pack_step, _mm_loadu_si128, _mm_storeu_si128. intros H.
  apply bind_Some in H as (c0 & L0 & H).
  apply bind_Some in H as (c1 & L1 & H).
  apply bind_Some in H as (c2 & L2 & H).
  apply bind_Some in H as (d1 & S0 & H).
  apply bind_Some in H as (d2 & S1 & H).
  apply load_bytes_Some_inv in L0 as [_ L0], L2 as [_ L2].
  apply store_bytes_Some_inv in S0 as [E0 S0], S1 as [E1 S1], H as [E2 S2].
  simpl in S0, S2. lia.
Qed.

Lemma pack_step_app_src (pre l : list Z) dst k d :
  0 <= k ->
  pack_step (pre ++ l) dst (Z.of_nat (length pre) + k) d
  = pack_step l dst k d.
Proof.
  intros Hk. unfold pack_step, _mm_loadu_si128.
  replace (Z.of_nat (length pre) + k + 16)
    with (Z.of_nat (length pre) + (k + 16)) by lia.
  replace (Z.of_nat (length pre) + k + 32)
    with (Z.of_nat (length pre) + (k + 32)) by lia.
  rewrite !load_bytes_app by lia. done.
Qed.

Lemma pack_step_app_dst src (pre l : list Z) s k :
  0 <= k ->
  pack_step src (pre ++ l) s (Z.of_nat (length pre) + k)
  = (pre ++.) <$> pack_step src l s k.
Proof.
  intros Hk. unfold pack_step, _mm_storeu_si128.
  destruct (_mm_loadu_si128 src s) as [c0|]; [|done].
  destruct (_mm_loadu_si128 src (s + 16)) as [c1|]; [|done].
  destruct (_mm_loadu_si128 src (s + 32)) as [c2|]; [|done].
  cbn [mbind option_bind].
  replace (Z.of_nat (length pre) + k + 16)
    with (Z.of_nat (length pre) + (k + 16)) by lia.
  replace (Z.of_nat (length pre) + k + 32)
    with (Z.of_nat (length pre) + (k + 32)) by lia.
  rewrite store_bytes_app by lia.
  destruct (store_bytes l k _) as [l1|]; [|done].
  cbn [mbind option_bind fmap option_fmap option_map].
  rewrite store_bytes_app by lia.
  destruct (store_bytes l1 (k + 16) _) as [l2|]; [|done].
  cbn [mbind option_bind fmap option_fmap option_map].
  rewrite store_bytes_app by lia. done.
Qed.

(** A buffer with at least [n] bytes at offset [p] splits there. *)
Lemma buffer_split (m : list Z) p n :
  0 <= p -> p + Z.of_nat n <= Z.of_nat (length m) ->
  exists pre l, m = pre ++ l /\ p = Z.of_nat (length pre) + 0 /\
                (n <= length l)%nat.
Proof.
  intros Hp Hn. exists (take (Z.to_nat p) m), (drop (Z.to_nat p) m).
  rewrite take_drop, length_take, length_drop. repeat split; lia.
Qed.

Ltac first_byte l H := destruct l as [|? l]; [simpl in H; lia|].

(** On 48 bytes that are there, both loops write the same 48 bytes. *)
Lemma pack_step_pixel_loop_here
    a0 a1 a2 a3 a4 a5 a6 a7 a8 a9 a10 a11 a12 a13 a14 a15
    a16 a17 a18 a19 a20 a21 a22 a23 a24 a25 a26 a27 a28 a29 a30 a31
    a32 a33 a34 a35 a36 a37 a38 a39 a40 a41 a42 a43 a44 a45 a46 a47
    (srest : list Z)
    b0 b1 b2 b3 b4 b5 b6 b7 b8 b9 b10 b11 b12 b13 b14 b15
    b16 b17 b18 b19 b20 b21 b22 b23 b24 b25 b26 b27 b28 b29 b30 b31
    b32 b33 b34 b35 b36 b37 b38 b39 b40 b41 b42 b43 b44 b45 b46 b47
    (drest : list Z) :
  let src := a0 :: a1 :: a2 :: a3 :: a4 :: a5 :: a6 :: a7 :: a8 :: a9
    :: a10 :: a11 :: a12 :: a13 :: a14 :: a15 :: a16 :: a17 :: a18 :: a19
    :: a20 :: a21 :: a22 :: a23 :: a24 :: a25 :: a26 :: a27 :: a28 :: a29
    :: a30 :: a31 :: a32 :: a33 :: a34 :: a35 :: a36 :: a37 :: a38 :: a39
    :: a40 :: a41 :: a42 :: a43 :: a44 :: a45 :: a46 :: a47 :: srest in
  let dst := b0 :: b1 :: b2 :: b3 :: b4 :: b5 :: b6 :: b7 :: b8 :: b9
    :: b10 :: b11 :: b12 :: b13 :: b14 :: b15 :: b16 :: b17 :: b18 :: b19
    :: b20 :: b21 :: b22 :: b23 :: b24 :: b25 :: b26 :: b27 :: b28 :: b29
    :: b30 :: b31 :: b32 :: b33 :: b34 :: b35 :: b36 :: b37 :: b38 :: b39
    :: b40 :: b41 :: b42 :: b43 :: b44 :: b45 :: b46 :: b47 :: drest in
  pack_step src dst 0 0 = pixel_loop 16 src dst 0 0.
Proof.
  intros src dst. subst src dst.
  cbv -[Z.lor]. rewrite !Z.lor_0_r, ?Z.lor_0_l. reflexivity.
Qed.

Lemma pack_step_pixel_loop src dst s d :
  pack_step src dst s d = pixel_loop 16 src dst s d.
Proof.
  destruct (decide (0 <= s /\ s + 48 <= Z.of_nat (length src) /\
                    0 <= d /\ d + 48 <= Z.of_nat (length dst)))
    as [(Hs & Hs' & Hd & Hd')|Hout].
  - destruct (buffer_split src s 48) as (spre & sl & -> & -> & Hsl);
      [lia..|].
    destruct (buffer_split dst d 48) as (dpre & dl & -> & -> & Hdl);
      [lia..|].
    rewrite pack_step_app_src, pack_step_app_dst by lia.
    rewrite pixel_loop_app_src, pixel_loop_app_dst by lia.
    f_equal. clear Hs Hs' Hd Hd'.
    do 48 first_byte sl Hsl. do 48 first_byte dl Hdl.
    apply pack_step_pixel_loop_here.
  - destruct (pack_step src dst s d) as [r|] eqn:Hp.
    { apply pack_step_Some_inv in Hp. lia. }
    destruct (pixel_loop 16 src dst s d) as [r|] eqn:Hl; [|done].
    apply pixel_loop_Some_inv in Hl; lia.
Qed.

Lemma pack_loop_pixel_loop n src dst s d :
  pack_loop n src dst s d
  = dst' ← pixel_loop (16 * n) src dst s d;
    Some (dst', s + 48 * Z.of_nat n, d + 48 * Z.of_nat n).
Proof.
  revert dst s d. induction n as [|n IH]; intros dst s d.
  - simpl. by rewrite !Z.add_0_r.
  - replace (16 * S n)%nat with (16 + 16 * n)%nat by lia.
    rewrite pixel_loop_add. cbn [pack_loop].
    rewrite pack_step_pixel_loop.
    destruct (pixel_loop 16 src dst s d) as [dst1|]; [|done].
    cbn [mbind option_bind]. rewrite IH.
    replace (s + 3 * Z.of_nat 16) with (s + 48) by lia.
    replace (d + 3 * Z.of_nat 16) with (d + 48) by lia.
    destruct (pixel_loop (16 * n) src dst1 (s + 48) (d + 48)); [|done].
    cbn [mbind option_bind].
    replace (s + 48 + 48 * Z.of_nat n) with (s + 48 * Z.of_nat (S n)) by lia.
    replace (d + 48 + 48 * Z.of_nat n) with (d + 48 * Z.of_nat (S n)) by lia.
    done.
Qed.

(** ** The two row bodies *)

Lemma ssse3_row_scalar_row mWidth src dst srcRow dstRow :
  ssse3_row mWidth src dst srcRow dstRow
  = scalar_row mWidth src dst srcRow dstRow.
Proof.
  unfold ssse3_row, scalar_row. rewrite pack_loop_pixel_loop.
  destruct (Z.le_gt_cases 0 mWidth) as [Hw|Hw].
  - pose proof (Z.quot_rem' mWidth 16) as Hqr.
    pose proof (Z.rem_bound_pos mWidth 16 Hw ltac:(lia)) as Hr.
    assert (0 <= Z.quot mWidth 16) as Hq by (apply Z.quot_pos; lia).
    replace (Z.to_nat mWidth)
      with (16 * Z.to_nat (Z.quot mWidth 16) + Z.to_nat (Z.rem mWidth 16))%nat
      by lia.
    rewrite pixel_loop_add.
    destruct (pixel_loop (16 * Z.to_nat (Z.quot mWidth 16))
                         src dst srcRow dstRow); [|done].
    cbn [mbind option_bind]. f_equal; lia.
  - assert (Z.quot mWidth 16 <= 0) as Hq.
    { rewrite <- (Z.opp_involutive mWidth), Z.quot_opp_l by lia.
      assert (0 <= Z.quot (- mWidth) 16) by (apply Z.quot_pos; lia). lia. }
    assert (Z.rem mWidth 16 <= 0) as Hr.
    { apply Z.rem_nonpos; lia. }
    replace (Z.to_nat (Z.quot mWidth 16)) with O by lia.
    replace (Z.to_nat (Z.rem mWidth 16)) with O by lia.
    replace (Z.to_nat mWidth) with O by lia. done.
Qed.

Lemma row_loop_ext row1 row2 n y dstStride srcStride dstBase src dst :
  (forall src dst s d, row1 src dst s d = row2 src dst s d) ->
  row_loop row1 n y dstStride srcStride dstBase src dst
  = row_loop row2 n y dstStride srcStride dstBase src dst.
Proof.
  intros Hrow. revert y dst. induction n as [|n IH]; intros y dst; [done|].
  cbn [row_loop].
  destruct (int_mul y dstStride); [|done].
  destruct (int_mul y srcStride); [|done].
  cbn [mbind option_bind]. rewrite Hrow.
  destruct (row2 _ _ _ _); [|done].
  cbn [mbind option_bind]. apply IH.
Qed.

Lemma convert_frame_paths ssse3 mWidth mHeight pBuffer bufferLen img :
  convert_frame ssse3 mWidth mHeight pBuffer bufferLen img
  = convert_frame false mWidth mHeight pBuffer bufferLen img.
Proof.
  destruct ssse3; [|done]. unfold convert_frame.
  destruct (int_div bufferLen mHeight); [|done].
  destruct (int_sub mHeight 1); [|done].
  cbn [mbind option_bind].
  destruct (int_mul (img_Stride img) _); [|done].
  cbn [mbind option_bind negb].
  apply row_loop_ext. intros. apply ssse3_row_scalar_row.
Qed.

(** ** What the scalar loops write *)

Lemma load_store_eq (m : list Z) p v r :
  store m p v = Some r -> load r p = Some v.
Proof.
  intros Hs. apply store_Some_inv in Hs as [Hp ->]. unfold load.
  destruct (Z.leb_spec 0 p); [|lia].
  apply list_lookup_insert_eq. lia.
Qed.

Lemma load_store_ne (m : list Z) p v r q :
  store m p v = Some r -> q <> p -> load r q = load m q.
Proof.
  intros Hs Hq. apply store_Some_inv in Hs as [Hp ->]. unfold load.
  destruct (Z.leb_spec 0 q); [|done].
  apply list_lookup_insert_ne. lia.
Qed.

Lemma pixel_loop_in_range n src dst s d :
  0 <= s -> s + 3 * Z.of_nat n <= Z.of_nat (length src) ->
  0 <= d -> d + 3 * Z.of_nat n <= Z.of_nat (length dst) ->
  is_Some (pixel_loop n src dst s d).
Proof.
  revert dst s d. induction n as [|n IH]; intros dst s d Hs Hs' Hd Hd'.
  - by eexists.
  - cbn [pixel_loop]. unfold BlueIndex, GreenIndex, RedIndex.
    destruct (load_in_range src (s + 0)) as [b ->]; [lia|].
    cbn [mbind option_bind]. rewrite store_in_range by lia.
    destruct (load_in_range src (s + 1)) as [g ->]; [lia|].
    cbn [mbind option_bind].
    rewrite store_in_range by (rewrite length_insert; lia).
    destruct (load_in_range src (s + 2)) as [r ->]; [lia|].
    cbn [mbind option_bind].
    rewrite store_in_range by (rewrite !length_insert; lia).
    cbn [mbind option_bind]. apply IH; rewrite ?length_insert; lia.
Qed.

(** After [n] pixels: byte [c] of pixel [j] of the destination row is byte
    [2 - c] of pixel [j] of the source row, and every byte outside the
    [3 * n] bytes of the row is as it was. *)
Lemma pixel_loop_spec n src dst s d r :
  pixel_loop n src dst s d = Some r ->
  (forall j c, 0 <= j < Z.of_nat n -> 0 <= c < 3 ->
     load r (d + 3 * j + c) = load src (s + 3 * j + (2 - c)) /\
     is_Some (load src (s + 3 * j + (2 - c)))) /\
  (forall i, i < d \/ d + 3 * Z.of_nat n <= i -> load r i = load dst i).
Proof.
  revert dst s d r. induction n as [|n IH]; intros dst s d r H.
  - injection H as <-. split; [lia|done].
  - cbn [pixel_loop] in H. unfold BlueIndex, GreenIndex, RedIndex in H.
    apply bind_Some in H as (b & L0 & H).
    apply bind_Some in H as (d1 & S0 & H).
    apply bind_Some in H as (g & L1 & H).
    apply bind_Some in H as (d2 & S1 & H).
    apply bind_Some in H as (c2 & L2 & H).
    apply bind_Some in H as (d3 & S2 & H).
    apply IH in H as [Hin Hout].
    assert (load d3 (d + 0) = Some c2 /\ load d3 (d + 1) = Some g /\
            load d3 (d + 2) = Some b) as (E0 & E1 & E2).
    { repeat split.
      - by apply (load_store_eq d2).
      - rewrite (load_store_ne d2 (d + 0) c2 d3) by (done || lia).
        by apply (load_store_eq d1).
      - rewrite (load_store_ne d2 (d + 0) c2 d3) by (done || lia).
        rewrite (load_store_ne d1 (d + 1) g d2) by (done || lia).
        by apply (load_store_eq dst). }
    split.
    + intros j c Hj Hc. destruct (decide (j = 0)) as [->|Hj0].
      * rewrite Hout by lia.
        assert (c = 0 \/ c = 1 \/ c = 2) as [-> | [-> | ->]] by lia.
        -- replace (d + 3 * 0 + 0) with (d + 0) by lia.
           replace (s + 3 * 0 + (2 - 0)) with (s + 2) by lia.
           rewrite E0, L2. by split.
        -- replace (d + 3 * 0 + 1) with (d + 1) by lia.
           replace (s + 3 * 0 + (2 - 1)) with (s + 1) by lia.
           rewrite E1, L1. by split.
        -- replace (d + 3 * 0 + 2) with (d + 2) by lia.
           replace (s + 3 * 0 + (2 - 2)) with (s + 0) by lia.
           rewrite E2, L0. by split.
      * specialize (Hin (j - 1) c ltac:(lia) Hc).
        replace (d + 3 + 3 * (j - 1) + c) with (d + 3 * j + c) in Hin by lia.
        replace (s + 3 + 3 * (j - 1) + (2 - c))
          with (s + 3 * j + (2 - c)) in Hin by lia.
        done.
    + intros i Hi. rewrite Hout by lia.
      rewrite (load_store_ne d2 (d + 0) c2 d3) by (done || lia).
      rewrite (load_store_ne d1 (d + 1) g d2) by (done || lia).
      by rewrite (load_store_ne dst (d + 2) b d1) by (done || lia).
Qed.

(** The rows of the scalar path: row [y'] of the source goes to the bytes
    at [dstBase - y' * dstStride], and the rows do not overlap when a row
    of pixels fits in the stride. *)
Lemma row_loop_scalar_spec w n y dstStride srcStride dstBase src dst r :
  row_loop (scalar_row w) n y dstStride srcStride dstBase src dst = Some r ->
  0 <= w -> 3 * w <= dstStride ->
  (forall y' x c, y <= y' < y + Z.of_nat n -> 0 <= x < w -> 0 <= c < 3 ->
     load r (dstBase - y' * dstStride + 3 * x + c)
       = load src (y' * srcStride + 3 * x + (2 - c)) /\
     is_Some (load src (y' * srcStride + 3 * x + (2 - c)))) /\
  (forall i,
     (forall y', y <= y' < y + Z.of_nat n ->
        i < dstBase - y' * dstStride \/
        dstBase - y' * dstStride + 3 * w <= i) ->
     load r i = load dst i).
Proof.
  intros H Hw Hstride. revert y dst H.
  induction n as [|n IH]; intros y dst H.
  - injection H as <-. split; [lia|done].
  - cbn [row_loop] in H.
    apply bind_Some in H as (dOff & M1 & H).
    apply bind_Some in H as (sOff & M2 & H).
    apply bind_Some in H as (dst' & Hrow & H).
    unfold int_mul, int_checked in M1, M2.
    destruct (in_int (y * dstStride)); [|done].
    destruct (in_int (y * srcStride)); [|done].
    injection M1 as <-. injection M2 as <-.
    apply IH in H as [Hin Hout].
    apply pixel_loop_spec in Hrow as [Rin Rout].
    split.
    + intros y' x c Hy Hx Hc. destruct (decide (y' = y)) as [->|Hne].
      * rewrite Hout.
        -- apply Rin; lia.
        -- intros y2 Hy2. right. nia.
      * apply Hin; lia.
    + intros i Hi. rewrite Hout.
      * apply Rout. specialize (Hi y ltac:(lia)). lia.
      * intros y2 Hy2. apply Hi. lia.
Qed.

Lemma row_loop_length row n y dstStride srcStride dstBase src dst r :
  (forall src dst s d r, row src dst s d = Some r -> length r = length dst) ->
  row_loop row n y dstStride srcStride dstBase src dst = Some r ->
  length r = length dst.
Proof.
  intros Hrow. revert y dst. induction n as [|n IH]; intros y dst H.
  - by injection H as <-.
  - cbn [row_loop] in H.
    apply bind_Some in H as (dOff & M1 & H).
    apply bind_Some in H as (sOff & M2 & H).
    apply bind_Some in H as (dst' & Hr & H).
    apply IH in H. apply Hrow in Hr. lia.
Qed.

Lemma int_checked_in_range z :
  INT_MIN <= z <= INT_MAX -> int_checked z = Some z.
Proof.
  intros Hz. unfold int_checked, in_int.
  destruct (Z.leb_spec INT_MIN z); [|lia].
  destruct (Z.leb_spec z INT_MAX); [done|lia].
Qed.

(** The scalar rows run when every row of the source and of the
    destination lies in its buffer and the offsets fit an [int]. *)
Lemma row_loop_scalar_in_range w n y dstStride srcStride dstBase src dst :
  0 <= w -> 0 <= y -> 0 <= srcStride -> 0 <= dstStride ->
  (y + Z.of_nat n) * srcStride <= INT_MAX ->
  (y + Z.of_nat n) * dstStride <= INT_MAX ->
  (forall y', y <= y' < y + Z.of_nat n ->
     y' * srcStride + 3 * w <= Z.of_nat (length src) /\
     0 <= dstBase - y' * dstStride /\
     dstBase - y' * dstStride + 3 * w <= Z.of_nat (length dst)) ->
  is_Some (row_loop (scalar_row w) n y dstStride srcStride dstBase src dst).
Proof.
  intros Hw. revert y dst.
  induction n as [|n IH]; intros y dst Hy Hs Hd Ms Md Hrows.
  - by eexists.
  - cbn [row_loop]. unfold int_mul.
    assert (INT_MIN = - 2 ^ 31) as Emin by done.
    rewrite !int_checked_in_range by nia.
    cbn [mbind option_bind].
    destruct (Hrows y ltac:(lia)) as (R1 & R2 & R3).
    destruct (pixel_loop_in_range (Z.to_nat w) src dst
                (y * srcStride) (dstBase - y * dstStride))
      as [dst' Hdst']; [nia|lia|lia|lia|].
    unfold scalar_row. rewrite Hdst'. cbn [mbind option_bind].
    apply pixel_loop_length in Hdst'.
    apply IH; [lia|lia|lia|nia|nia|].
    intros y' Hy'. rewrite Hdst'. apply Hrows. lia.
Qed.

(** ** The frame callback *)

Example BufferCB_two_rows_scalar :
  BufferCB Allocate_padded
    {| mImage := None; mWidth := 2; mHeight := 2; mSSSE3supported := false |}
    (SetListener (Some 1%nat)
       (XLocalVideoDeviceData_new
          {| pin_Index := 0; pin_Type := 0; pin_IsInput := true |} "cam"))
    (Some [11; 12; 13; 21; 22; 23; 31; 32; 33; 41; 42; 43]) 12
  = Some
      (let img := {| img_Width := 2; img_Height := 2; img_Stride := 8;
                     img_Data := [33; 32; 31; 43; 42; 41; 0; 0;
                                  13; 12; 11; 23; 22; 21; 0; 0] |} in
       ({| mImage := Some img; mWidth := 2; mHeight := 2;
           mSSSE3supported := false |},
        set_FramesCounter 1
          (SetListener (Some 1%nat)
             (XLocalVideoDeviceData_new
                {| pin_Index := 0; pin_Type := 0; pin_IsInput := true |}
                "cam")),
        [EvOnNewImage img])).
Proof. vm_compute. reflexivity. Qed.

Example ssse3_row_17_pixels :
  ssse3_row 17 (map Z.of_nat (seq 0 51)) (replicate 52 0) 0 0
  = Some [2; 1; 0; 5; 4; 3; 8; 7; 6; 11; 10; 9; 14; 13; 12; 17; 16; 15;
          20; 19; 18; 23; 22; 21; 26; 25; 24; 29; 28; 27; 32; 31; 30;
          35; 34; 33; 38; 37; 36; 41; 40; 39; 44; 43; 42; 47; 46; 45;
          50; 49; 48; 0].
Proof. vm_compute. reflexivity. Qed.

(** C1. Scalar and SSSE3 paths of [BufferCB] agree: on every grabber,
    parent record, buffer and length, the callback run with SSSE3 support
    ends as the callback run without it does (it fails when that one
    fails), with the same image, the same parent record and the same
    notification to the listener. *)
Theorem BufferCB_ssse3_scalar_identical
    (Allocate : Z -> Z -> option XImage) (g : SampleGrabber)
    (mParent : XLocalVideoDeviceData) (pBuffer : option (list Z))
    (bufferLen : Z) :
  BufferCB Allocate (set_mSSSE3supported true g) mParent pBuffer bufferLen
  = (fun r => (set_mSSSE3supported true r.1.1, r.1.2, r.2))
      <$> BufferCB Allocate (set_mSSSE3supported false g) mParent
                   pBuffer bufferLen.
Proof.
  unfold BufferCB. cbn [mWidth mHeight set_mSSSE3supported mSSSE3supported].
  destruct ((mWidth g =? 0) || (mHeight g =? 0)); [done|].
  destruct (Listener mParent); [|done].
  destruct pBuffer as [buffer|]; [|done].
  destruct (negb (bufferLen =? 0)); [|done].
  unfold frame_image. cbn [mImage mWidth mHeight set_mSSSE3supported].
  destruct (match mImage g with
            | Some img =>
                if negb (img_Width img =? mWidth g)
                   || negb (img_Height img =? mHeight g)
                then Allocate (mWidth g) (mHeight g)
                else Some img
            | None => Allocate (mWidth g) (mHeight g)
            end) as [img|]; [|done].
  cbn [mbind option_bind]. rewrite convert_frame_paths.
  destruct (convert_frame false _ _ _ _ _); done.
Qed.

Lemma quot_rows bufferLen height width :
  0 <= bufferLen -> 0 < height -> 0 < width ->
  3 * width <= Z.quot bufferLen height ->
  0 <= Z.quot bufferLen height <= bufferLen /\
  height * Z.quot bufferLen height <= bufferLen.
Proof.
  intros Hb Hh Hw Hq.
  pose proof (Z.mul_quot_le bufferLen height Hb ltac:(lia)). nia.
Qed.

(** C2. Rows are flipped and the first and third channel swapped: for a
    frame of [mHeight] rows that are [bufferLen / mHeight] bytes apart and
    hold [mWidth] pixels each, the callback gives the listener an image of
    that size in which byte [c] of the pixel at [(x, mHeight - 1 - y)] is
    byte [2 - c] of the pixel at [(x, y)] of the frame. *)
Theorem BufferCB_rows_flipped_channels_swapped
    (Allocate : Z -> Z -> option XImage) (g : SampleGrabber)
    (mParent : XLocalVideoDeviceData) (buffer : list Z) (bufferLen : Z)
    (img : XImage) :
  is_Some (Listener mParent) ->
  bufferLen = Z.of_nat (length buffer) -> bufferLen <= INT_MAX ->
  0 < mWidth g -> 0 < mHeight g ->
  3 * mWidth g <= Z.quot bufferLen (mHeight g) ->
  frame_image Allocate g = Some img ->
  image_fits (mWidth g) (mHeight g) img ->
  exists g' mParent' img',
    BufferCB Allocate g mParent (Some buffer) bufferLen
      = Some (g', mParent', [EvOnNewImage img']) /\
    mImage g' = Some img' /\
    img_Width img' = mWidth g /\ img_Height img' = mHeight g /\
    forall x y c,
      0 <= x < mWidth g -> 0 <= y < mHeight g -> 0 <= c < 3 ->
      image_byte img' x (mHeight g - 1 - y) c
        = frame_byte buffer (Z.quot bufferLen (mHeight g)) x y (2 - c) /\
      is_Some (frame_byte buffer (Z.quot bufferLen (mHeight g)) x y (2 - c)).
Proof.
  intros [l Hl] Hlen Hmax Hw Hh Hq Himg (Fw & Fh & Fs & Fd & Fm).
  assert (INT_MIN = - 2 ^ 31) as Emin by done.
  assert (0 <= bufferLen) as Hb by lia.
  destruct (quot_rows bufferLen (mHeight g) (mWidth g)) as [Q1 Q2];
    [done..|].
  set (q := Z.quot bufferLen (mHeight g)) in *.
  set (w := mWidth g) in *. set (h := mHeight g) in *.
  set (st := img_Stride img) in *.
  destruct (row_loop_scalar_in_range w (Z.to_nat h) 0 st q (st * (h - 1))
              buffer (img_Data img)) as [data Hdata].
  { lia. } { lia. } { lia. } { lia. } { nia. } { nia. }
  { intros y' Hy'. nia. }
  exists (set_mImage (Some (with_Data data img)) g).
  eexists. exists (with_Data data img).
  split; [|split; [done|split; [done|split; [done|]]]].
  - unfold BufferCB. fold w h.
    destruct (Z.eqb_spec w 0); [lia|]. destruct (Z.eqb_spec h 0); [lia|].
    cbn [orb]. rewrite Hl.
    destruct (Z.eqb_spec bufferLen 0); [lia|]. cbn [negb].
    rewrite Himg. cbn [mbind option_bind].
    rewrite convert_frame_paths. unfold convert_frame.
    fold q st. unfold int_div, int_sub, int_mul.
    destruct (Z.eqb_spec h 0); [lia|]. fold q.
    do 3 (rewrite int_checked_in_range by nia; cbn [mbind option_bind negb]).
    rewrite Hdata.
    cbn [mbind option_bind]. reflexivity.
  - intros x y c Hx Hy Hc.
    apply row_loop_scalar_spec in Hdata as [Hin _]; [|lia..].
    specialize (Hin y x c ltac:(lia) Hx Hc).
    unfold image_byte, frame_byte. cbn [with_Data img_Data img_Stride].
    fold st.
    replace ((h - 1 - y) * st + 3 * x + c)
      with (st * (h - 1) - y * st + 3 * x + c) by lia.
    done.
Qed.

(** A frame too short for its last row is read past its end on both
    paths. *)
Example convert_frame_short_buffer :
  let img := {| img_Width := 2; img_Height := 2; img_Stride := 8;
                img_Data := replicate 16 0 |} in
  convert_frame false 2 2 [1; 2; 3; 4; 5; 6; 7; 8; 9; 10] 10 img = None /\
  convert_frame true 2 2 [1; 2; 3; 4; 5; 6; 7; 8; 9; 10] 10 img = None.
Proof. split; vm_compute; reflexivity. Qed.

(** ** The facade: identity, resolution, start *)

Lemma string_empty_spec (s : string) : string_empty s = true <-> s = ""%string.
Proof. destruct s; simpl; split; congruence. Qed.

(** While the thread runs the moniker is not empty: the thread only
    starts from [Start] with a moniker, and the moniker changes only while
    the thread does not run. *)
Lemma running_has_moniker pin0 s :
  reachable pin0 s -> IsRunning s = true -> DeviceMoniker s <> ""%string.
Proof.
  induction 1 as [moniker|s s' Hreach IH Hstep]; [done|].
  destruct Hstep as [moniker s|resolution fps s|input s|listener s
                    |created s|s|property value automatic s
                    |property value automatic s|s s' Hm Hr].
  - unfold SetDeviceMoniker. destruct (IsRunning s) eqn:Hrun; cbn; [auto|].
    unfold IsRunning in *. cbn. congruence.
  - unfold SetResolution. destruct (IsRunning s) eqn:Hrun; cbn; [auto|].
    unfold IsRunning in *. cbn. congruence.
  - exact IH.
  - exact IH.
  - unfold Start. destruct (string_empty (DeviceMoniker s)) eqn:He; [exact IH|].
    destruct (IsRunning s) eqn:Hrun; cbn; [auto|].
    intros _ Hm. apply string_empty_spec in Hm. congruence.
  - unfold SignalToStop. destruct (IsRunning s) eqn:Hrun.
    + intros _. exact (IH eq_refl).
    + intros Hr'. cbn in Hr'. congruence.
  - unfold SetVideoProperty.
    destruct (_ || _); [exact IH|]. destruct (negb _); [exact IH|].
    destruct (VideoProcAmp s); exact IH.
  - unfold SetCameraProperty.
    destruct (_ || _); [exact IH|]. destruct (negb _); [exact IH|].
    destruct (CameraControl s); exact IH.
  - rewrite Hm. auto.
Qed.

Lemma Start_running_with_moniker created s :
  IsRunning s = true -> DeviceMoniker s <> ""%string ->
  Start created s = (SuccessCode, s, []).
Proof.
  intros Hrun Hm. unfold Start. rewrite Hrun.
  destruct (string_empty (DeviceMoniker s)) eqn:He; [|done].
  by apply string_empty_spec in He.
Qed.

(** C4. [Start] with an empty moniker answers
    [ErrorInvalidConfiguration], leaves the record as it is (the frame
    counter and the thread with it) and does not call the thread's
    [Create]; and on a record without moniker the thread does not run, so
    [IsRunning] is false before and after. *)
Theorem Start_empty_moniker pin0 created s :
  DeviceMoniker s = ""%string ->
  Start created s = (ErrorInvalidConfiguration, s, []) /\
  IsRunning (Start created s).1.2 = IsRunning s /\
  FramesReceived (Start created s).1.2 = FramesReceived s /\
  (reachable pin0 s -> IsRunning (Start created s).1.2 = false).
Proof.
  intros Hm. unfold Start. rewrite Hm. cbn. repeat split.
  intros Hreach. destruct (IsRunning s) eqn:Hrun; [|done].
  by destruct (running_has_moniker pin0 s Hreach Hrun).
Qed.

(** C10. [Start] while the thread runs answers [SuccessCode] and does
    nothing else: the record is the same (thread, frame counter, exit and
    info-collected events) and the thread's [Create] is not called. *)
Theorem Start_while_running pin0 created s :
  reachable pin0 s -> IsRunning s = true ->
  Start created s = (SuccessCode, s, []).
Proof.
  intros Hreach Hrun. apply Start_running_with_moniker; [done|].
  by apply (running_has_moniker pin0).
Qed.

(** C7. [SetDeviceMoniker] and [SetResolution] answer false and leave the
    record as it is while the thread runs; idle, they answer true and the
    record holds the new moniker, respectively the new resolution and
    requested rate. *)
Theorem SetDeviceMoniker_SetResolution_gated
    pin0 moniker resolution requestedFps s :
  (IsRunning s = true ->
     SetDeviceMoniker pin0 moniker s = (false, s) /\
     SetResolution resolution requestedFps s = (false, s)) /\
  (IsRunning s = false ->
     (SetDeviceMoniker pin0 moniker s).1 = true /\
     DeviceMoniker (SetDeviceMoniker pin0 moniker s).2 = moniker /\
     (SetResolution resolution requestedFps s).1 = true /\
     Resolution (SetResolution resolution requestedFps s).2 = resolution /\
     RequestedFps (SetResolution resolution requestedFps s).2
       = requestedFps).
Proof.
  unfold SetDeviceMoniker, SetResolution.
  split; intros ->; cbn; repeat split.
Qed.

(** C9. A successful [SetDeviceMoniker] empties the capabilities and the
    video pins, clears [IsCrossbarAvailable] and resets the info-collected
    event, so that [CollectInfo] does not take what the record holds for
    the information about the device. *)
Theorem SetDeviceMoniker_clears_discovery pin0 moniker s :
  (SetDeviceMoniker pin0 moniker s).1 = true ->
  let s' := (SetDeviceMoniker pin0 moniker s).2 in
  DeviceMoniker s' = moniker /\
  Capabilities s' = [] /\ VideoPins s' = [] /\
  IsCrossbarAvailable s' = false /\ InfoCollectedEvent s' = false /\
  CollectInfo_source s' <> InfoCollected.
Proof.
  unfold SetDeviceMoniker. destruct (IsRunning s); cbn; [done|].
  intros _. repeat split.
  unfold CollectInfo_source. cbn.
  by destruct (string_empty moniker), (XThread_IsRunning _).
Qed.

(** ** Video properties *)

Lemma to_int32_to_uint32 value :
  INT_MIN <= value <= INT_MAX -> to_int32 (to_uint32 value) = value.
Proof.
  unfold to_int32, to_uint32, INT_MIN, INT_MAX. intros Hv.
  rewrite Zplus_mod_idemp_l.
  rewrite Z.mod_small; lia.
Qed.

(** C6. [SetVideoProperty] on a device that is not running: the map gets
    the entry for the property (a new one, or in place of the old one),
    the answer is [SuccessCode], no hardware interface is called, the
    device still does not run, and the entry read back gives the value
    and the flag that were passed. *)
Theorem SetVideoProperty_deferred property value automatic s :
  XVideoProperty.Brightness <= property <= XVideoProperty.Gain ->
  INT_MIN <= value <= INT_MAX ->
  DeviceIsRunning s = false ->
  exists s' stored,
    SetVideoProperty property value automatic s = (SuccessCode, s', []) /\
    VideoPropertiesToSet s'
      = <[property := (stored, automatic)]> (VideoPropertiesToSet s) /\
    VideoPropertiesToSet s' !! property = Some (stored, automatic) /\
    to_int32 stored = value /\
    (forall other, other <> property ->
       VideoPropertiesToSet s' !! other = VideoPropertiesToSet s !! other) /\
    DeviceIsRunning s' = false /\
    VideoProcAmp s' = VideoProcAmp s.
Proof.
  intros Hp Hv Hrun. unfold SetVideoProperty.
  destruct (Z.ltb_spec property XVideoProperty.Brightness); [lia|].
  destruct (Z.gtb_spec property XVideoProperty.Gain); [lia|].
  rewrite Hrun. cbn [orb negb].
  eexists. exists (to_uint32 value). split; [reflexivity|].
  cbn [VideoPropertiesToSet set_VideoPropertiesToSet].
  split; [done|]. split; [apply lookup_insert_eq|].
  split; [by apply to_int32_to_uint32|].
  split; [|done].
  intros other Hne. by apply lookup_insert_ne.
Qed.

(** C5, as the code has it: [GetVideoProperty] looks at the place for the
    value first, then at the property, and only then at the running
    state.  Without a place for the value it answers [ErrorNullParameter],
    and with one and a property outside [Brightness] .. [Gain] it answers
    [ErrorInvalidProperty], whether the device runs or not; with a place
    for the value and a property between [Brightness] and [Gain] it
    answers [ErrorDeivceNotReady] on a device that is not running.  In the
    three cases it writes nothing and calls no hardware interface. *)
Theorem GetVideoProperty_not_running property value automatic s :
  (value = false ->
   GetVideoProperty property value automatic s
   = (ErrorNullParameter, None, None, [])) /\
  (value = true ->
   ~ (XVideoProperty.Brightness <= property <= XVideoProperty.Gain) ->
   GetVideoProperty property value automatic s
   = (ErrorInvalidProperty, None, None, [])) /\
  (value = true ->
   XVideoProperty.Brightness <= property <= XVideoProperty.Gain ->
   DeviceIsRunning s = false ->
   GetVideoProperty property value automatic s
   = (ErrorDeivceNotReady, None, None, [])).
Proof.
  unfold GetVideoProperty.
  refine (conj _ (conj _ _)).
  - by intros ->.
  - intros -> Hp. cbn [negb].
    destruct (Z.ltb_spec property XVideoProperty.Brightness); [done|].
    destruct (Z.gtb_spec property XVideoProperty.Gain); [done|]. lia.
  - intros -> Hp Hrun. cbn [negb].
    destruct (Z.ltb_spec property XVideoProperty.Brightness); [lia|].
    destruct (Z.gtb_spec property XVideoProperty.Gain); [lia|].
    by rewrite Hrun.
Qed.

(** C5 as stated does not hold: a property beyond [Gain] is answered with
    [ErrorInvalidProperty] on a device that is not running. *)
Lemma GetVideoProperty_not_running_any_property_fails :
  ~ (forall property value automatic s,
       DeviceIsRunning s = false ->
       (GetVideoProperty property value automatic s).1.1.1
       = ErrorDeivceNotReady).
Proof.
  intros H.
  specialize (H 10 true true
    (XLocalVideoDeviceData_new
       {| pin_Index := 0; pin_Type := 0; pin_IsInput := true |} "cam")
    eq_refl).
  vm_compute in H. discriminate H.
Qed.

(** ** Deferred properties when the device starts *)

Lemma apply_properties_video_running amp entries configOK s :
  DeviceIsRunning s = true -> VideoProcAmp s = Some amp ->
  Forall (fun e : Z * PropValue =>
            XVideoProperty.Brightness <= e.1 <= XVideoProperty.Gain)
         entries ->
  apply_properties SetVideoProperty entries configOK s
  = (configOK && forallb (video_set_ok amp) entries, s,
     map video_set_event entries).
Proof.
  intros Hrun Hamp Hkeys. revert configOK.
  induction Hkeys as [|[k [v a]] entries Hk _ IH]; intros configOK.
  - cbn. by rewrite andb_true_r.
  - cbn [apply_properties fst snd]. unfold SetVideoProperty at 1.
    cbn [fst snd] in Hk.
    destruct (Z.ltb_spec k XVideoProperty.Brightness); [lia|].
    destruct (Z.gtb_spec k XVideoProperty.Gain); [lia|].
    rewrite Hrun, Hamp. cbn [orb negb]. rewrite IH.
    cbn [forallb map app]. unfold video_set_ok at 2, video_set_event at 2.
    cbn [fst snd]. f_equal. f_equal.
    destruct (FAILED _); cbn [negb].
    + destruct (_ =? _); cbn; by rewrite !andb_false_r.
    + cbn. by rewrite andb_true_r.
Qed.

Lemma apply_properties_camera_running entries configOK s :
  DeviceIsRunning s = true ->
  exists ok events,
    apply_properties SetCameraProperty entries configOK s = (ok, s, events) /\
    Forall camera_event events.
Proof.
  intros Hrun. revert configOK.
  induction entries as [|[k [v a]] entries IH]; intros configOK.
  - exists configOK, []. by split.
  - cbn [apply_properties fst snd]. unfold SetCameraProperty at 1.
    rewrite Hrun. cbn [negb].
    destruct (_ || _).
    + destruct (IH (configOK && bool_decide (ErrorInvalidProperty = SuccessCode)))
        as (ok & ev & -> & Hev).
      exists ok, ev. by split.
    + destruct (CameraControl s) as [ctl|].
      * match goal with
        | |- context [apply_properties _ entries ?b s] =>
            destruct (IH b) as (ok & ev & -> & Hev)
        end.
        eexists ok, _. split; [reflexivity|].
        apply Forall_cons. by split.
      * destruct (IH (configOK &&
                      bool_decide (ErrorConfigurationNotSupported = SuccessCode)))
          as (ok & ev & -> & Hev).
        exists ok, ev. by split.
Qed.

Lemma map_entries_Permutation (m : gmap Z PropValue) :
  map_entries m ≡ₚ map_to_list m.
Proof. apply merge_sort_Permutation. Qed.

Lemma map_entries_keys (m : gmap Z PropValue) (P : Z -> Prop) :
  (forall k v, m !! k = Some v -> P k) ->
  Forall (fun e : Z * PropValue => P e.1) (map_entries m).
Proof.
  intros Hm. rewrite map_entries_Permutation.
  apply Forall_forall. intros [k v] Hin.
  apply elem_of_map_to_list in Hin. by apply (Hm k v).
Qed.

(** The keys of the map are properties between [Brightness] and [Gain]:
    [SetVideoProperty], which alone writes entries, checks the range
    first. *)
Lemma SetVideoProperty_keys property value automatic s :
  (forall k v, VideoPropertiesToSet s !! k = Some v ->
     XVideoProperty.Brightness <= k <= XVideoProperty.Gain) ->
  forall k v,
    VideoPropertiesToSet (SetVideoProperty property value automatic s).1.2
      !! k = Some v ->
    XVideoProperty.Brightness <= k <= XVideoProperty.Gain.
Proof.
  intros Hkeys k v. unfold SetVideoProperty.
  destruct (Z.ltb_spec property XVideoProperty.Brightness);
    [apply Hkeys|].
  destruct (Z.gtb_spec property XVideoProperty.Gain); [apply Hkeys|].
  cbn [orb]. destruct (negb (DeviceIsRunning s)).
  - cbn. destruct (decide (k = property)) as [->|Hne]; [lia|].
    rewrite lookup_insert_ne by done. apply Hkeys.
  - destruct (VideoProcAmp s); apply Hkeys.
Qed.

Lemma camera_part_events (s : XLocalVideoDeviceData) hr ctl :
  DeviceIsRunning s = true ->
  Forall camera_event
    (let s := set_CameraControl ctl s in
     if SUCCEEDED hr && bool_decide (is_Some (CameraControl s)) then
       let '(configOK, s, ev) :=
         apply_properties SetCameraProperty
           (map_entries (CameraPropertiesToSet s)) true s in
       let s := set_CameraPropertiesToSet ∅ s in
       (s, ev ++ (if negb configOK
                  then NotifyError "Failed applying camera configuration"
                                   false s
                  else []))
     else (s, [])).2.
Proof.
  intros Hrun. cbv zeta.
  destruct (SUCCEEDED hr && _); [|done].
  destruct (apply_properties_camera_running
              (map_entries (CameraPropertiesToSet (set_CameraControl ctl s)))
              true (set_CameraControl ctl s) Hrun)
    as (ok & ev & -> & Hev).
  cbn [snd]. apply Forall_app. split; [done|].
  destruct ok; cbn; [done|]. unfold NotifyError.
  destruct (Listener _); [|done]. by apply Forall_cons.
Qed.

(** What [RunVideo_device_started] does when the video control interface
    is not offered. *)
Lemma RunVideo_device_started_not_offered pSourceFilter s :
  SUCCEEDED (QueryInterface_IAMVideoProcAmp pSourceFilter).1 &&
  bool_decide (is_Some (QueryInterface_IAMVideoProcAmp pSourceFilter).2)
    = false ->
  Forall camera_event (RunVideo_device_started pSourceFilter s).2 /\
  VideoPropertiesToSet (RunVideo_device_started pSourceFilter s).1
    = VideoPropertiesToSet s /\
  DeviceIsRunning (RunVideo_device_started pSourceFilter s).1 = true /\
  VideoProcAmp (RunVideo_device_started pSourceFilter s).1
    = (QueryInterface_IAMVideoProcAmp pSourceFilter).2.
Proof.
  unfold RunVideo_device_started.
  destruct (QueryInterface_IAMVideoProcAmp pSourceFilter) as [hr amp].
  cbn [fst snd VideoProcAmp set_VideoProcAmp]. intros ->.
  destruct (QueryInterface_IAMCameraControl pSourceFilter) as [hr2 ctl].
  pose proof (camera_part_events
                (set_VideoProcAmp amp (set_DeviceIsRunning true s)) hr2 ctl
                eq_refl) as Hcam.
  cbv zeta in Hcam.
  destruct (SUCCEEDED hr2 && _).
  - destruct (apply_properties_camera_running
                (map_entries (CameraPropertiesToSet
                   (set_CameraControl ctl
                      (set_VideoProcAmp amp (set_DeviceIsRunning true s)))))
                true
                (set_CameraControl ctl
                   (set_VideoProcAmp amp (set_DeviceIsRunning true s)))
                eq_refl) as (ok & ev & Heq & Hev).
    rewrite Heq in Hcam |- *. done.
  - done.
Qed.

(** C3, as the code has it: when the source filter offers the video
    control interface, every entry of the map of deferred video
    properties is given to the hardware once, in the order of the keys;
    the listener, if there is one, is told of a failure (not a fatal one)
    exactly when some entry was refused; the map is empty afterwards
    whether entries were refused or not; and the device is left
    running.  A source filter that does not offer the interface has no
    entry applied and the map left as it was. *)
Theorem RunVideo_device_started_applies_video_properties
    pSourceFilter s hr amp :
  QueryInterface_IAMVideoProcAmp pSourceFilter = (hr, Some amp) ->
  SUCCEEDED hr = true ->
  (forall k v, VideoPropertiesToSet s !! k = Some v ->
     XVideoProperty.Brightness <= k <= XVideoProperty.Gain) ->
  let entries := map_entries (VideoPropertiesToSet s) in
  let s' := (RunVideo_device_started pSourceFilter s).1 in
  entries ≡ₚ map_to_list (VideoPropertiesToSet s) /\
  (exists camera_events,
     (RunVideo_device_started pSourceFilter s).2
     = map video_set_event entries
       ++ (if forallb (video_set_ok amp) entries then []
           else NotifyError "Failed applying video configuration" false s)
       ++ camera_events /\
     Forall camera_event camera_events) /\
  VideoPropertiesToSet s' = ∅ /\
  DeviceIsRunning s' = true /\ DeviceIsRunningEvent s' = true /\
  VideoProcAmp s' = Some amp /\
  (forall pSourceFilter',
     SUCCEEDED (QueryInterface_IAMVideoProcAmp pSourceFilter').1 &&
     bool_decide (is_Some (QueryInterface_IAMVideoProcAmp pSourceFilter').2)
       = false ->
     Forall camera_event (RunVideo_device_started pSourceFilter' s).2 /\
     VideoPropertiesToSet (RunVideo_device_started pSourceFilter' s).1
       = VideoPropertiesToSet s).
Proof.
  intros Hqi Hhr Hkeys entries s'. subst s'.
  match goal with
  | |- ?A /\ ?B /\ ?C /\ ?D /\ ?E /\ ?F /\ ?G =>
      cut (A /\ B /\ C /\ D /\ E /\ F);
        [intros (a & b & c & d & e & f);
         refine (conj a (conj b (conj c (conj d (conj e (conj f _))))));
         intros pSourceFilter' Hno;
         destruct (RunVideo_device_started_not_offered pSourceFilter' s Hno)
           as (Hev & Hmap & _);
         exact (conj Hev Hmap)|]
  end.
  split; [apply map_entries_Permutation|].
  unfold RunVideo_device_started. rewrite Hqi, Hhr.
  cbn [VideoProcAmp set_VideoProcAmp andb].
  rewrite bool_decide_eq_true_2 by by eexists.
  cbn [VideoPropertiesToSet set_VideoProcAmp set_DeviceIsRunning].
  rewrite (apply_properties_video_running amp);
    [|done|done|].
  2:{ apply (map_entries_keys _
        (fun k => XVideoProperty.Brightness <= k <= XVideoProperty.Gain)).
      exact Hkeys. }
  cbn [andb]. fold entries.
  destruct (QueryInterface_IAMCameraControl pSourceFilter) as [hr2 ctl].
  set (s1 := set_VideoPropertiesToSet ∅ _).
  destruct (SUCCEEDED hr2 &&
            bool_decide (is_Some (CameraControl (set_CameraControl ctl s1)))).
  - destruct (apply_properties_camera_running
                (map_entries (CameraPropertiesToSet (set_CameraControl ctl s1)))
                true (set_CameraControl ctl s1) eq_refl)
      as (ok & ev & -> & Hev).
    cbn [fst snd]. split; [|done].
    eexists. split.
    + rewrite <- app_assoc. f_equal. f_equal.
      unfold NotifyError. cbn. by destruct (forallb _ _).
    + apply Forall_app. split; [done|].
      destruct ok; cbn; [done|]. unfold NotifyError.
      destruct (Listener _); [|done]. by apply Forall_cons.
  - cbn [fst snd]. split; [|done].
    exists []. split; [|done].
    rewrite <- app_assoc. f_equal. f_equal.
    unfold NotifyError. cbn. by destruct (forallb _ _).
Qed.

(** C3 as stated does not hold: a source filter without the video control
    interface leaves the map of deferred video properties as it was. *)
Lemma RunVideo_device_started_map_not_always_empty :
  ~ (forall pSourceFilter s,
       VideoPropertiesToSet (RunVideo_device_started pSourceFilter s).1 = ∅).
Proof.
  intros H.
  specialize (H
    {| QueryInterface_IAMVideoProcAmp := (E_NOINTERFACE, None);
       QueryInterface_IAMCameraControl := (E_NOINTERFACE, None) |}
    (set_VideoPropertiesToSet {[ XVideoProperty.Brightness := (5, false) ]}
       (XLocalVideoDeviceData_new
          {| pin_Index := 0; pin_Type := 0; pin_IsInput := true |} "cam"))).
  apply (f_equal (fun m => m !! XVideoProperty.Brightness)) in H.
  vm_compute in H. discriminate H.
Qed.

(** ** Format enumeration *)

Lemma cap_eqb_eq a b : cap_eqb a b = true <-> a = b.
Proof.
  unfold cap_eqb. rewrite !andb_true_iff, !Z.eqb_eq.
  destruct a, b; cbn. split.
  - intros (((((-> & ->) & ->) & ->) & ->) & ->). done.
  - intros [= -> -> -> -> -> ->]. done.
Qed.

Lemma existsb_cap_eqb (caps : list XDeviceCapabilities) xcap :
  existsb (fun c => cap_eqb c xcap) caps = true <-> xcap ∈ caps.
Proof.
  rewrite existsb_exists. split.
  - intros (c & Hin & Heq). apply cap_eqb_eq in Heq as ->.
    by apply list_elem_of_In.
  - intros Hin. exists xcap. split; [by apply list_elem_of_In|].
    by apply cap_eqb_eq.
Qed.

Lemma usable_capability_bits sc xcap :
  usable_capability sc = Some xcap ->
  exists pMediaType,
    sc_pMediaType sc = Some pMediaType /\
    cap_BitCount xcap = biBitCount pMediaType /\
    cap_Width xcap = biWidth pMediaType /\
    cap_Height xcap = biHeight pMediaType /\
    12 < cap_BitCount xcap /\ cap_Width xcap <> 0.
Proof.
  unfold usable_capability.
  destruct (sc_pMediaType sc) as [mt|]; [|done].
  destruct (SUCCEEDED (sc_hr sc)); [|done].
  intros H. apply bind_Some in H as (c & Hread & H).
  destruct (Z.eqb_spec (cap_Width c) 0); [done|].
  destruct (Z.gtb_spec (cap_BitCount c) 12); [|done].
  injection H as <-. exists mt. split; [done|].
  unfold read_capability in Hread.
  destruct (formattype mt).
  - apply bind_Some in Hread as (avg & _ & Hread).
    apply bind_Some in Hread as (r5 & _ & Hread).
    apply bind_Some in Hread as (r6 & _ & Hread).
    injection Hread as <-. cbn in *. repeat split; (done || lia).
  - apply bind_Some in Hread as (avg & _ & Hread).
    apply bind_Some in Hread as (r5 & _ & Hread).
    apply bind_Some in Hread as (r6 & _ & Hread).
    injection Hread as <-. cbn in *. repeat split; (done || lia).
  - injection Hread as <-. cbn in *. lia.
Qed.

Lemma enum_step_capabilites capToSet st sc :
  format_readable sc ->
  exists st',
    enum_step capToSet st sc = Some st' /\
    capabilites st' = add_capability (capabilites st) sc.
Proof.
  unfold format_readable, enum_step, add_capability, usable_capability.
  destruct (sc_pMediaType sc) as [mt|]; [|by eexists].
  destruct (SUCCEEDED (sc_hr sc)); [|by eexists].
  intros [xcap ->]; [done|]. cbn [mbind option_bind].
  destruct (negb (cap_Width xcap =? 0) && (cap_BitCount xcap >? 12));
    [|by eexists].
  destruct (cap_eqb xcap capToSet && _); [by eexists|].
  destruct (_ && _); by eexists.
Qed.

Lemma enum_loop_capabilites capToSet st formats :
  Forall format_readable formats ->
  exists st',
    enum_loop capToSet st formats = Some st' /\
    capabilites st' = fold_left add_capability formats (capabilites st).
Proof.
  intros Hread. revert st.
  induction Hread as [|sc formats Hsc _ IH]; intros st; [by eexists|].
  cbn [enum_loop fold_left].
  destruct (enum_step_capabilites capToSet st sc Hsc) as (st1 & -> & <-).
  cbn [mbind option_bind]. apply IH.
Qed.

Lemma add_capability_elem caps sc c :
  c ∈ add_capability caps sc <-> c ∈ caps \/ usable_capability sc = Some c.
Proof.
  unfold add_capability. destruct (usable_capability sc) as [xcap|].
  - destruct (existsb _ caps) eqn:He.
    + apply existsb_cap_eqb in He. split; [auto|].
      intros [?|[= <-]]; done.
    + rewrite elem_of_app, list_elem_of_singleton.
      split; intros [?|?]; auto; right; congruence.
  - split; [auto|]. by intros [?|?].
Qed.

Lemma add_capability_NoDup caps sc :
  NoDup caps -> NoDup (add_capability caps sc).
Proof.
  intros Hnd. unfold add_capability.
  destruct (usable_capability sc) as [xcap|]; [|done].
  destruct (existsb _ caps) eqn:He; [done|].
  apply NoDup_app. split; [done|]. split; [|apply NoDup_singleton].
  intros c Hc ->%list_elem_of_singleton.
  apply existsb_cap_eqb in Hc. congruence.
Qed.

Lemma fold_add_capability_elem formats caps c :
  c ∈ fold_left add_capability formats caps <->
  c ∈ caps \/ exists sc, sc ∈ formats /\ usable_capability sc = Some c.
Proof.
  revert caps. induction formats as [|sc formats IH]; intros caps.
  - cbn. split; [auto|]. intros [?|(sc & Hin & _)]; [done|].
    by apply not_elem_of_nil in Hin.
  - cbn [fold_left]. rewrite IH, add_capability_elem. split.
    + intros [[?|?]|(sc' & Hin & Hu)]; [by left|right..].
      * exists sc. split; [apply list_elem_of_here|done].
      * exists sc'. split; [by apply list_elem_of_further|done].
    + intros [?|(sc' & Hin & Hu)]; [by left; left|].
      apply elem_of_cons in Hin as [->|Hin]; [by left; right|].
      right. by exists sc'.
Qed.

Lemma fold_add_capability_NoDup formats caps :
  NoDup caps -> NoDup (fold_left add_capability formats caps).
Proof.
  revert caps. induction formats as [|sc formats IH]; intros caps Hnd;
    [done|].
  cbn [fold_left]. by apply IH, add_capability_NoDup.
Qed.

(** The capability of a format the enumeration keeps, from the fields of
    the format. *)
Lemma usable_capability_video sc c :
  usable_capability sc = Some c <->
  exists mt,
    sc_pMediaType sc = Some mt /\ SUCCEEDED (sc_hr sc) = true /\
    formattype mt <> FORMAT_Other /\
    biWidth mt <> 0 /\ 12 < biBitCount mt /\
    AvgTimePerFrame mt <> 0 /\ MinFrameInterval (sc_caps sc) <> 0 /\
    MaxFrameInterval (sc_caps sc) <> 0 /\
    c = {| cap_Width := biWidth mt; cap_Height := biHeight mt;
           cap_BitCount := biBitCount mt;
           cap_AverageFrameRate :=
             to_int32 (Z.quot 10000000 (AvgTimePerFrame mt));
           cap_MinimumFrameRate :=
             to_int32 (Z.quot 10000000 (MinFrameInterval (sc_caps sc)));
           cap_MaximumFrameRate :=
             to_int32 (Z.quot 10000000 (MaxFrameInterval (sc_caps sc))) |}.
Proof.
  unfold usable_capability, read_capability, frame_rate. split.
  - destruct (sc_pMediaType sc) as [mt|]; [|done].
    destruct (SUCCEEDED (sc_hr sc)); [|done].
    intros H. exists mt.
    destruct (formattype mt) eqn:Hf;
      [| |by cbn in H];
      (destruct (Z.eqb_spec (AvgTimePerFrame mt) 0); [done|];
       destruct (Z.eqb_spec (MinFrameInterval (sc_caps sc)) 0); [done|];
       destruct (Z.eqb_spec (MaxFrameInterval (sc_caps sc)) 0); [done|];
       cbn in H;
       destruct (Z.eqb_spec (biWidth mt) 0); [done|];
       destruct (Z.gtb_spec (biBitCount mt) 12); [|done];
       injection H as <-;
       refine (conj eq_refl (conj eq_refl (conj _ (conj _ (conj _
                 (conj _ (conj _ (conj _ eq_refl))))))));
       (done || lia)).
  - intros (mt & -> & -> & Hf & Hw & Hb & Ha & Hmin & Hmax & ->).
    destruct (Z.eqb_spec (AvgTimePerFrame mt) 0); [done|].
    destruct (Z.eqb_spec (MinFrameInterval (sc_caps sc)) 0); [done|].
    destruct (Z.eqb_spec (MaxFrameInterval (sc_caps sc)) 0); [done|].
    destruct (formattype mt); [| |done]; cbn;
      (destruct (Z.eqb_spec (biWidth mt) 0); [done|];
       destruct (Z.gtb_spec (biBitCount mt) 12); [done|lia]).
Qed.

(** A format that was delivered can be read: its frame intervals are not
    zero. *)
Lemma format_readable_intervals sc mt :
  format_readable sc -> sc_pMediaType sc = Some mt ->
  SUCCEEDED (sc_hr sc) = true -> formattype mt <> FORMAT_Other ->
  AvgTimePerFrame mt <> 0 /\ MinFrameInterval (sc_caps sc) <> 0 /\
  MaxFrameInterval (sc_caps sc) <> 0.
Proof.
  unfold format_readable, read_capability, frame_rate.
  intros Hread Hmt Hhr Hf. rewrite Hmt in Hread.
  specialize (Hread Hhr) as [c Hc].
  destruct (formattype mt); [| |done];
    (destruct (Z.eqb_spec (AvgTimePerFrame mt) 0); [done|];
     destruct (Z.eqb_spec (MinFrameInterval (sc_caps sc)) 0); [done|];
     destruct (Z.eqb_spec (MaxFrameInterval (sc_caps sc)) 0); [done|];
     done).
Qed.

(** Among formats that can be read, the formats the enumeration keeps are
    the delivered video formats with a width and more than 12 bits. *)
Lemma usable_capability_readable formats c :
  Forall format_readable formats ->
  (exists sc, sc ∈ formats /\ usable_capability sc = Some c) <->
  (exists sc mt,
     sc ∈ formats /\ sc_pMediaType sc = Some mt /\
     SUCCEEDED (sc_hr sc) = true /\ formattype mt <> FORMAT_Other /\
     biWidth mt <> 0 /\ 12 < biBitCount mt /\
     c = {| cap_Width := biWidth mt; cap_Height := biHeight mt;
            cap_BitCount := biBitCount mt;
            cap_AverageFrameRate :=
              to_int32 (Z.quot 10000000 (AvgTimePerFrame mt));
            cap_MinimumFrameRate :=
              to_int32 (Z.quot 10000000 (MinFrameInterval (sc_caps sc)));
            cap_MaximumFrameRate :=
              to_int32 (Z.quot 10000000 (MaxFrameInterval (sc_caps sc))) |}).
Proof.
  intros Hread. split.
  - intros (sc & Hsc & Hu).
    apply usable_capability_video in Hu
      as (mt & Hmt & Hhr & Hf & Hw & Hb & _ & _ & _ & ->).
    by exists sc, mt.
  - intros (sc & mt & Hsc & Hmt & Hhr & Hf & Hw & Hb & ->).
    exists sc. split; [done|]. apply usable_capability_video.
    exists mt.
    destruct (format_readable_intervals sc mt) as (Ha & Hmin & Hmax);
      [|done..].
    by eapply Forall_forall in Hread.
Qed.

(** C8. The enumeration returns a list without repetition that holds
    exactly the capabilities of the delivered video formats with a width
    and more than 12 bits per pixel, each with the width, the height and
    the bit count of its format and the three rates computed from the
    frame intervals; a format with 12 bits or less contributes nothing.
    Of a 12-bit and a delivered 24-bit video format of one resolution the
    list holds the capability of the 24-bit format and nothing else. *)
Theorem GetPinCapabilitiesAndConfigureIt_capabilities
    formats capToSet requestedFps :
  Forall format_readable formats ->
  exists caps format,
    GetPinCapabilitiesAndConfigureIt (Some formats) capToSet requestedFps
      = Some (caps, format) /\
    (forall c, c ∈ caps -> 12 < cap_BitCount c) /\
    NoDup caps /\
    (forall c, c ∈ caps <->
       exists sc, sc ∈ formats /\ usable_capability sc = Some c) /\
    (forall sc pMediaType,
       sc ∈ formats -> sc_pMediaType sc = Some pMediaType ->
       biBitCount pMediaType <= 12 -> usable_capability sc = None) /\
    (forall c, c ∈ caps <->
       exists sc mt,
         sc ∈ formats /\ sc_pMediaType sc = Some mt /\
         SUCCEEDED (sc_hr sc) = true /\ formattype mt <> FORMAT_Other /\
         biWidth mt <> 0 /\ 12 < biBitCount mt /\
         c = {| cap_Width := biWidth mt; cap_Height := biHeight mt;
                cap_BitCount := biBitCount mt;
                cap_AverageFrameRate :=
                  to_int32 (Z.quot 10000000 (AvgTimePerFrame mt));
                cap_MinimumFrameRate :=
                  to_int32 (Z.quot 10000000 (MinFrameInterval (sc_caps sc)));
                cap_MaximumFrameRate :=
                  to_int32
                    (Z.quot 10000000 (MaxFrameInterval (sc_caps sc))) |}) /\
    (forall f12 f24 mt12 mt24,
       formats = [f12; f24] ->
       sc_pMediaType f12 = Some mt12 -> sc_pMediaType f24 = Some mt24 ->
       biBitCount mt12 = 12 -> biBitCount mt24 = 24 ->
       biWidth mt12 = biWidth mt24 -> biHeight mt12 = biHeight mt24 ->
       SUCCEEDED (sc_hr f24) = true -> formattype mt24 <> FORMAT_Other ->
       biWidth mt24 <> 0 ->
       caps = [{| cap_Width := biWidth mt24; cap_Height := biHeight mt24;
                  cap_BitCount := 24;
                  cap_AverageFrameRate :=
                    to_int32 (Z.quot 10000000 (AvgTimePerFrame mt24));
                  cap_MinimumFrameRate :=
                    to_int32
                      (Z.quot 10000000 (MinFrameInterval (sc_caps f24)));
                  cap_MaximumFrameRate :=
                    to_int32
                      (Z.quot 10000000
                         (MaxFrameInterval (sc_caps f24))) |}]).
Proof.
  intros Hread. unfold GetPinCapabilitiesAndConfigureIt.
  destruct (enum_loop_capabilites capToSet
              {| capabilites := []; pExactMediaType := None;
                 pCloseMediaType := None |} formats Hread)
    as (st & -> & Hcaps).
  cbn [mbind option_bind capabilites] in *.
  eexists _, _. split; [reflexivity|]. rewrite Hcaps. clear Hcaps st.
  assert (forall sc pMediaType,
            sc_pMediaType sc = Some pMediaType ->
            biBitCount pMediaType <= 12 -> usable_capability sc = None)
    as Hlow.
  { intros sc mt Hmt Hbits.
    destruct (usable_capability sc) as [c|] eqn:Hu; [|done].
    apply usable_capability_bits in Hu as (mt' & Hmt' & Hb & _ & _ & Hc & _).
    rewrite Hmt in Hmt'. injection Hmt' as <-. lia. }
  assert (forall c, c ∈ fold_left add_capability formats [] <->
            exists sc, sc ∈ formats /\ usable_capability sc = Some c)
    as Hin.
  { intros c. rewrite fold_add_capability_elem. split; [|auto].
    intros [Hnil|?]; [|done]. by apply not_elem_of_nil in Hnil. }
  split; [|split; [|split; [|split; [|split]]]].
  - intros c (sc & _ & Hu)%Hin.
    by apply usable_capability_bits in Hu as (? & _ & _ & _ & _ & ? & _).
  - apply fold_add_capability_NoDup, NoDup_nil_2.
  - exact Hin.
  - intros sc mt _. apply Hlow.
  - intros c. rewrite Hin. split.
    + intros (sc & Hsc & Hu).
      apply usable_capability_video in Hu
        as (mt & Hmt & Hhr & Hf & Hw & Hb & _ & _ & _ & ->).
      by exists sc, mt.
    + intros (sc & mt & Hsc & Hmt & Hhr & Hf & Hw & Hb & ->).
      exists sc. split; [done|]. apply usable_capability_video.
      exists mt.
      destruct (format_readable_intervals sc mt) as (Ha & Hmin & Hmax);
        [|done..].
      by eapply Forall_forall in Hread.
  - intros f12 f24 mt12 mt24 -> Hmt12 Hmt24 Hb12 Hb24 _ _ Hhr Hf Hw.
    assert (format_readable f24) as Hr24.
    { eapply Forall_forall in Hread; [exact Hread|].
      apply list_elem_of_further, list_elem_of_here. }
    destruct (format_readable_intervals f24 mt24 Hr24 Hmt24 Hhr Hf)
      as (Ha & Hmin & Hmax).
    cbn [fold_left]. unfold add_capability at 2.
    rewrite (Hlow f12 mt12) by (done || lia).
    unfold add_capability.
    assert (12 < biBitCount mt24) as Hb by lia.
    rewrite (proj2 (usable_capability_video f24 _)
               (ex_intro _ mt24
                  (conj Hmt24 (conj Hhr (conj Hf (conj Hw
                     (conj Hb (conj Ha (conj Hmin
                        (conj Hmax eq_refl)))))))))).
    cbn. by rewrite Hb24.
Qed.

(** ** The operations on the sample values *)

Example RunVideo_device_started_sample :
  RunVideo_device_started sample_filter sample_configured
  = (set_VideoPropertiesToSet ∅
       (set_VideoProcAmp (Some sample_amp)
          (set_DeviceIsRunning true sample_configured)),
     [EvVideoProcAmpSet VideoProcAmp_Brightness (-5)
                        VideoProcAmp_Flags_Manual;
      EvVideoProcAmpSet VideoProcAmp_Contrast 7 VideoProcAmp_Flags_Auto;
      EvOnError "Failed applying video configuration"]).
Proof. vm_compute. reflexivity. Qed.

Example RunVideo_device_started_plain_filter :
  RunVideo_device_started plain_filter sample_configured
  = (set_DeviceIsRunning true sample_configured, []).
Proof. vm_compute. reflexivity. Qed.

Example GetPinCapabilitiesAndConfigureIt_sample :
  GetPinCapabilitiesAndConfigureIt
    (Some [sample_format 12; sample_format 24; sample_format 24])
    XDeviceCapabilities_default 0
  = Some ([{| cap_Width := 640; cap_Height := 480; cap_BitCount := 24;
              cap_AverageFrameRate := 30; cap_MinimumFrameRate := 30;
              cap_MaximumFrameRate := 10 |}], None).
Proof. vm_compute. reflexivity. Qed.

Example GetVideoProperty_sample :
  GetVideoProperty XVideoProperty.Gain true true sample_device
    = (ErrorDeivceNotReady, None, None, []) /\
  GetVideoProperty 10 true true sample_device
    = (ErrorInvalidProperty, None, None, []) /\
  GetVideoProperty XVideoProperty.Gain false true sample_device
    = (ErrorNullParameter, None, None, []).
Proof. repeat split. Qed.

Lemma BufferCB_rows_flipped_channels_swapped_witness :
  exists g' mParent' img',
    BufferCB Allocate_padded sample_grabber sample_device
             (Some sample_frame) 12
      = Some (g', mParent', [EvOnNewImage img']) /\
    mImage g' = Some img' /\
    img_Width img' = 2 /\ img_Height img' = 2 /\
    forall x y c,
      0 <= x < 2 -> 0 <= y < 2 -> 0 <= c < 3 ->
      image_byte img' x (2 - 1 - y) c
        = frame_byte sample_frame (Z.quot 12 2) x y (2 - c) /\
      is_Some (frame_byte sample_frame (Z.quot 12 2) x y (2 - c)).
Proof.
  apply (BufferCB_rows_flipped_channels_swapped
           Allocate_padded sample_grabber sample_device sample_frame 12
           {| img_Width := 2; img_Height := 2; img_Stride := 8;
              img_Data := replicate 16 0 |}).
  - by eexists.
  - reflexivity.
  - vm_compute. discriminate.
  - reflexivity.
  - reflexivity.
  - vm_compute. discriminate.
  - reflexivity.
  - repeat split; vm_compute; (reflexivity || discriminate).
Defined.

Lemma sample_configured_keys k v :
  VideoPropertiesToSet sample_configured !! k = Some v ->
  XVideoProperty.Brightness <= k <= XVideoProperty.Gain.
Proof.
  cbn. intros H.
  destruct (decide (k = XVideoProperty.Brightness)) as [->|H0];
    [unfold XVideoProperty.Brightness, XVideoProperty.Gain; lia|].
  rewrite lookup_insert_ne in H by done.
  destruct (decide (k = XVideoProperty.Contrast)) as [->|H1];
    [unfold XVideoProperty.Brightness, XVideoProperty.Contrast,
       XVideoProperty.Gain; lia|].
  rewrite lookup_insert_ne in H by done.
  by rewrite lookup_empty in H.
Qed.

Lemma RunVideo_device_started_applies_video_properties_witness :
  let entries := map_entries (VideoPropertiesToSet sample_configured) in
  let s' := (RunVideo_device_started sample_filter sample_configured).1 in
  entries ≡ₚ map_to_list (VideoPropertiesToSet sample_configured) /\
  (exists camera_events,
     (RunVideo_device_started sample_filter sample_configured).2
     = map video_set_event entries
       ++ (if forallb (video_set_ok sample_amp) entries then []
           else NotifyError "Failed applying video configuration" false
                            sample_configured)
       ++ camera_events /\
     Forall camera_event camera_events) /\
  VideoPropertiesToSet s' = ∅ /\
  DeviceIsRunning s' = true /\ DeviceIsRunningEvent s' = true /\
  VideoProcAmp s' = Some sample_amp /\
  Forall camera_event
    (RunVideo_device_started plain_filter sample_configured).2 /\
  VideoPropertiesToSet
    (RunVideo_device_started plain_filter sample_configured).1
    = VideoPropertiesToSet sample_configured.
Proof.
  destruct (RunVideo_device_started_applies_video_properties
              sample_filter sample_configured S_OK sample_amp
              eq_refl eq_refl sample_configured_keys)
    as (a & b & c & d & e & f & g).
  exact (conj a (conj b (conj c (conj d (conj e (conj f
           (g plain_filter eq_refl))))))).
Defined.

Lemma Start_empty_moniker_witness :
  let s := XLocalVideoDeviceData_new sample_pin "" in
  Start true s = (ErrorInvalidConfiguration, s, []) /\
  IsRunning (Start true s).1.2 = IsRunning s /\
  FramesReceived (Start true s).1.2 = FramesReceived s /\
  (reachable sample_pin s -> IsRunning (Start true s).1.2 = false).
Proof.
  apply (Start_empty_moniker sample_pin true
           (XLocalVideoDeviceData_new sample_pin "")).
  reflexivity.
Defined.

Lemma sample_started_reachable : reachable sample_pin sample_started.
Proof.
  apply (reachable_step _ sample_device); [|apply step_Start].
  apply (reachable_step _ (XLocalVideoDeviceData_new sample_pin "cam"));
    [apply reachable_new|apply step_SetListener].
Qed.

Lemma Start_while_running_witness :
  Start true sample_started = (SuccessCode, sample_started, []).
Proof.
  apply (Start_while_running sample_pin true sample_started).
  - exact sample_started_reachable.
  - reflexivity.
Defined.

Lemma SetDeviceMoniker_SetResolution_gated_witness :
  (SetDeviceMoniker sample_pin "other" sample_started
     = (false, sample_started) /\
   SetResolution XDeviceCapabilities_default 25 sample_started
     = (false, sample_started)) /\
  ((SetDeviceMoniker sample_pin "other" sample_device).1 = true /\
   DeviceMoniker (SetDeviceMoniker sample_pin "other" sample_device).2
     = "other"%string /\
   (SetResolution XDeviceCapabilities_default 25 sample_device).1 = true /\
   Resolution (SetResolution XDeviceCapabilities_default 25 sample_device).2
     = XDeviceCapabilities_default /\
   RequestedFps
     (SetResolution XDeviceCapabilities_default 25 sample_device).2 = 25).
Proof.
  split.
  - apply (SetDeviceMoniker_SetResolution_gated
             sample_pin "other" XDeviceCapabilities_default 25
             sample_started).
    reflexivity.
  - apply (SetDeviceMoniker_SetResolution_gated
             sample_pin "other" XDeviceCapabilities_default 25
             sample_device).
    reflexivity.
Defined.

Lemma SetDeviceMoniker_clears_discovery_witness :
  let s' := (SetDeviceMoniker sample_pin "other" sample_device).2 in
  DeviceMoniker s' = "other"%string /\
  Capabilities s' = [] /\ VideoPins s' = [] /\
  IsCrossbarAvailable s' = false /\ InfoCollectedEvent s' = false /\
  CollectInfo_source s' <> InfoCollected.
Proof.
  apply (SetDeviceMoniker_clears_discovery sample_pin "other" sample_device).
  reflexivity.
Defined.

Lemma SetVideoProperty_deferred_witness :
  exists s' stored,
    SetVideoProperty XVideoProperty.Hue (-3) true sample_device
      = (SuccessCode, s', []) /\
    VideoPropertiesToSet s'
      = <[XVideoProperty.Hue := (stored, true)]>
          (VideoPropertiesToSet sample_device) /\
    VideoPropertiesToSet s' !! XVideoProperty.Hue = Some (stored, true) /\
    to_int32 stored = -3 /\
    (forall other, other <> XVideoProperty.Hue ->
       VideoPropertiesToSet s' !! other
       = VideoPropertiesToSet sample_device !! other) /\
    DeviceIsRunning s' = false /\
    VideoProcAmp s' = VideoProcAmp sample_device.
Proof.
  apply (SetVideoProperty_deferred XVideoProperty.Hue (-3) true
           sample_device).
  - vm_compute. split; discriminate.
  - vm_compute. split; discriminate.
  - reflexivity.
Defined.

Lemma GetVideoProperty_not_running_witness :
  GetVideoProperty XVideoProperty.Gain false true sample_device
  = (ErrorNullParameter, None, None, []) /\
  GetVideoProperty XVideoProperty.Gain false true
    (RunVideo_device_started sample_filter sample_started).1
  = (ErrorNullParameter, None, None, []) /\
  GetVideoProperty (XVideoProperty.Gain + 1) true true sample_device
  = (ErrorInvalidProperty, None, None, []) /\
  GetVideoProperty (XVideoProperty.Brightness - 1) true true
    (RunVideo_device_started sample_filter sample_started).1
  = (ErrorInvalidProperty, None, None, []) /\
  GetVideoProperty XVideoProperty.Gain true false sample_device
  = (ErrorDeivceNotReady, None, None, []).
Proof.
  refine (conj _ (conj _ (conj _ (conj _ _)))).
  - apply (GetVideoProperty_not_running XVideoProperty.Gain false true
             sample_device).
    reflexivity.
  - apply (GetVideoProperty_not_running XVideoProperty.Gain false true
             (RunVideo_device_started sample_filter sample_started).1).
    reflexivity.
  - apply (GetVideoProperty_not_running (XVideoProperty.Gain + 1) true true
             sample_device).
    + reflexivity.
    + vm_compute. intros [_ H]. apply H. reflexivity.
  - apply (GetVideoProperty_not_running (XVideoProperty.Brightness - 1) true
             true (RunVideo_device_started sample_filter sample_started).1).
    + reflexivity.
    + vm_compute. intros [H _]. apply H. reflexivity.
  - apply (GetVideoProperty_not_running XVideoProperty.Gain true false
             sample_device).
    + reflexivity.
    + vm_compute. split; discriminate.
    + reflexivity.
Defined.

Lemma sample_formats_readable :
  Forall format_readable [sample_format 12; sample_format 24].
Proof. repeat constructor; intros _; by eexists. Qed.

Lemma GetPinCapabilitiesAndConfigureIt_capabilities_witness :
  exists caps format,
    GetPinCapabilitiesAndConfigureIt
      (Some [sample_format 12; sample_format 24])
      XDeviceCapabilities_default 0
      = Some (caps, format) /\
    caps = [{| cap_Width := 640; cap_Height := 480; cap_BitCount := 24;
               cap_AverageFrameRate := 30; cap_MinimumFrameRate := 30;
               cap_MaximumFrameRate := 10 |}] /\
    (forall c, c ∈ caps -> 12 < cap_BitCount c) /\
    NoDup caps.
Proof.
  destruct (GetPinCapabilitiesAndConfigureIt_capabilities
              [sample_format 12; sample_format 24]
              XDeviceCapabilities_default 0 sample_formats_readable)
    as (caps & format & Hret & Hbits & Hnodup & _ & _ & _ & Hpair).
  exists caps, format.
  refine (conj Hret (conj _ (conj Hbits Hnodup))).
  apply (Hpair (sample_format 12) (sample_format 24) _ _ eq_refl eq_refl
           eq_refl eq_refl eq_refl eq_refl eq_refl eq_refl).
  - discriminate.
  - discriminate.
Defined.

(** * More of the code *)

(** ** The frame callback: counter, listener, image *)

(** The parent record a callback leaves. *)
Lemma BufferCB_parent Allocate g mParent pBuffer bufferLen
    g' mParent' events :
  BufferCB Allocate g mParent pBuffer bufferLen = Some (g', mParent', events) ->
  mParent' = counted mParent.
Proof.
  unfold BufferCB. destruct (_ || _); [done|].
  fold (counted mParent).
  destruct (Listener mParent); [|by intros [= _ <- _]].
  destruct pBuffer as [buffer|]; [|by intros [= _ <- _]].
  destruct (negb (bufferLen =? 0)); [|by intros [= _ <- _]].
  intros H. apply bind_Some in H as (img & _ & H).
  apply bind_Some in H as (data & _ & H). by injection H as _ <- _.
Qed.

(** X1. Every callback that returns counts the frame, with or without
    listener and buffer, unless the exit event is signalled; the counter
    wraps at 32 bits and nothing else of the parent record changes. *)
Theorem BufferCB_counts_frames Allocate g mParent pBuffer bufferLen
    g' mParent' events :
  BufferCB Allocate g mParent pBuffer bufferLen = Some (g', mParent', events) ->
  mParent' = counted mParent /\
  FramesReceived mParent'
  = if ExitEvent mParent then FramesReceived mParent
    else (FramesReceived mParent + 1) mod 2 ^ 32.
Proof.
  intros ->%BufferCB_parent. split; [done|].
  unfold counted. by destruct (ExitEvent mParent).
Qed.

Lemma BufferCB_counts_frames_witness :
  (exists mParent',
     mParent' = counted sample_device /\
     FramesReceived mParent'
     = if ExitEvent sample_device then FramesReceived sample_device
       else (FramesReceived sample_device + 1) mod 2 ^ 32).
Proof.
  destruct (BufferCB Allocate_padded sample_grabber sample_device
              (Some sample_frame) 12) as [[[g' mParent'] events]|] eqn:H;
    [|vm_compute in H; discriminate H].
  exists mParent'.
  exact (BufferCB_counts_frames _ _ _ _ _ _ _ _ H).
Defined.

(** X2. After [SignalToStop] on a running device the callback delivers
    frames as before but no longer counts them. *)
Theorem BufferCB_after_SignalToStop Allocate g s pBuffer bufferLen
    g' mParent' events :
  IsRunning s = true ->
  BufferCB Allocate g (SignalToStop s) pBuffer bufferLen
    = Some (g', mParent', events) ->
  mParent' = SignalToStop s /\ FramesReceived mParent' = FramesReceived s.
Proof.
  intros Hrun H. apply BufferCB_parent in H as ->.
  unfold SignalToStop. rewrite Hrun. done.
Qed.

Lemma BufferCB_after_SignalToStop_witness :
  exists mParent',
    mParent' = SignalToStop sample_started /\
    FramesReceived mParent' = FramesReceived sample_started.
Proof.
  destruct (BufferCB Allocate_padded sample_grabber
              (SignalToStop sample_started) (Some sample_frame) 12)
    as [[[g' mParent'] events]|] eqn:H;
    [|vm_compute in H; discriminate H].
  exists mParent'.
  exact (BufferCB_after_SignalToStop Allocate_padded sample_grabber
           sample_started _ _ _ _ _ eq_refl H).
Defined.

(** X3. Without a listener, without a buffer or with an empty buffer the
    callback gives the listener nothing, leaves the grabber and its image
    as they are and does not allocate; it still counts the frame. *)
Theorem BufferCB_nothing_to_deliver Allocate g mParent pBuffer bufferLen :
  mWidth g <> 0 -> mHeight g <> 0 ->
  Listener mParent = None \/ pBuffer = None \/ bufferLen = 0 ->
  BufferCB Allocate g mParent pBuffer bufferLen
  = Some (g, counted mParent, []).
Proof.
  intros Hw Hh Hnone. unfold BufferCB. fold (counted mParent).
  destruct (Z.eqb_spec (mWidth g) 0); [done|].
  destruct (Z.eqb_spec (mHeight g) 0); [done|]. cbn [orb].
  destruct (Listener mParent); [|done].
  destruct pBuffer; [|done].
  destruct Hnone as [? | [? | ->]]; done.
Qed.

Lemma BufferCB_nothing_to_deliver_witness :
  BufferCB Allocate_padded sample_grabber
           (XLocalVideoDeviceData_new sample_pin "cam")
           (Some sample_frame) 12
  = Some (sample_grabber,
          counted (XLocalVideoDeviceData_new sample_pin "cam"), []).
Proof.
  apply (BufferCB_nothing_to_deliver Allocate_padded sample_grabber
           (XLocalVideoDeviceData_new sample_pin "cam")
           (Some sample_frame) 12).
  - discriminate.
  - discriminate.
  - left. reflexivity.
Defined.

Lemma frame_image_held Allocate g img :
  mImage g = Some img ->
  img_Width img = mWidth g -> img_Height img = mHeight g ->
  frame_image Allocate g = Some img.
Proof.
  intros Hi Hw Hh. unfold frame_image. rewrite Hi, Hw, Hh, !Z.eqb_refl. done.
Qed.

Lemma frame_image_size Allocate g img :
  allocates_size Allocate ->
  frame_image Allocate g = Some img ->
  img_Width img = mWidth g /\ img_Height img = mHeight g.
Proof.
  intros Halloc. unfold frame_image.
  destruct (mImage g) as [held|]; [|apply Halloc].
  destruct (Z.eqb_spec (img_Width held) (mWidth g)); cbn; [|apply Halloc].
  destruct (Z.eqb_spec (img_Height held) (mHeight g)); cbn; [|apply Halloc].
  by intros [= <-].
Qed.

(** X4. Once a frame has been delivered the grabber holds an image of the
    size of the frames, and the callbacks that follow write to it without
    asking the allocator: they run the same with any allocator. *)
Theorem BufferCB_steady_state Allocate g mParent pBuffer bufferLen
    g' mParent' img' :
  allocates_size Allocate ->
  BufferCB Allocate g mParent pBuffer bufferLen
    = Some (g', mParent', [EvOnNewImage img']) ->
  mImage g' = Some img' /\
  img_Width img' = mWidth g' /\ img_Height img' = mHeight g' /\
  forall Allocate' mParent2 pBuffer2 bufferLen2,
    BufferCB Allocate' g' mParent2 pBuffer2 bufferLen2
    = BufferCB Allocate g' mParent2 pBuffer2 bufferLen2.
Proof.
  intros Halloc H. unfold BufferCB in H.
  destruct (_ || _); [done|].
  destruct (Listener mParent); [|done].
  destruct pBuffer as [buffer|]; [|done].
  destruct (negb (bufferLen =? 0)); [|done].
  apply bind_Some in H as (img & Himg & H).
  apply bind_Some in H as (data & _ & H).
  injection H as <- _ <-.
  apply (frame_image_size _ _ _ Halloc) in Himg as [Hw Hh].
  cbn [mImage set_mImage mWidth mHeight img_Width img_Height with_Data].
  repeat split; [done..|].
  intros Allocate' mParent2 pBuffer2 bufferLen2. unfold BufferCB.
  rewrite !(frame_image_held _ _ (with_Data data img)); done.
Qed.

Lemma Allocate_padded_size : allocates_size Allocate_padded.
Proof. intros w h img [= <-]. done. Qed.

Lemma BufferCB_steady_state_witness :
  exists g' img',
    mImage g' = Some img' /\
    img_Width img' = mWidth g' /\ img_Height img' = mHeight g' /\
    forall Allocate' mParent2 pBuffer2 bufferLen2,
      BufferCB Allocate' g' mParent2 pBuffer2 bufferLen2
      = BufferCB Allocate_padded g' mParent2 pBuffer2 bufferLen2.
Proof.
  destruct (BufferCB Allocate_padded sample_grabber sample_device
              (Some sample_frame) 12) as [[[g' mParent'] events]|] eqn:H;
    [|vm_compute in H; discriminate H].
  destruct events as [|[img'| | | | |] [|]];
    try (vm_compute in H; discriminate H).
  exists g', img'.
  exact (BufferCB_steady_state _ _ _ _ _ _ _ _ Allocate_padded_size H).
Defined.

(** X5. A conversion keeps the size of the image data and writes only
    the [3 * mWidth] pixel bytes of each row: the padding of the rows and
    whatever else the data holds is as it was, on both paths. *)
Theorem convert_frame_keeps_padding ssse3 mWidth mHeight pBuffer bufferLen
    img data :
  convert_frame ssse3 mWidth mHeight pBuffer bufferLen img = Some data ->
  0 <= mWidth -> 3 * mWidth <= img_Stride img ->
  length data = length (img_Data img) /\
  forall i,
    (forall y, 0 <= y < mHeight ->
       i < y * img_Stride img \/ y * img_Stride img + 3 * mWidth <= i) ->
    load data i = load (img_Data img) i.
Proof.
  rewrite convert_frame_paths. unfold convert_frame. intros H Hw Hs.
  apply bind_Some in H as (srcStride & _ & H).
  apply bind_Some in H as (rows & Hrows & H).
  apply bind_Some in H as (dst & Hdst & H).
  unfold int_sub, int_mul, int_checked in Hrows, Hdst.
  destruct (in_int (mHeight - 1)); [|done]. injection Hrows as <-.
  destruct (in_int (img_Stride img * (mHeight - 1))); [|done].
  injection Hdst as <-. cbn [negb] in H. split.
  - apply row_loop_length in H; [done|].
    intros ?????. apply pixel_loop_length.
  - apply row_loop_scalar_spec in H as [_ Hout]; [|done..].
    intros i Hi. apply Hout. intros y' Hy'.
    specialize (Hi (mHeight - 1 - y') ltac:(lia)). lia.
Qed.

Lemma convert_frame_keeps_padding_witness :
  let img := {| img_Width := 2; img_Height := 2; img_Stride := 8;
                img_Data := replicate 16 7 |} in
  exists data,
    length data = length (img_Data img) /\
    forall i,
      (forall y, 0 <= y < 2 ->
         i < y * img_Stride img \/ y * img_Stride img + 3 * 2 <= i) ->
      load data i = load (img_Data img) i.
Proof.
  intros img.
  destruct (convert_frame true 2 2 sample_frame 12 img) as [data|] eqn:H;
    [|vm_compute in H; discriminate H].
  exists data.
  apply (convert_frame_keeps_padding true 2 2 sample_frame 12 img data H).
  - lia.
  - vm_compute. discriminate.
Defined.

(** ** The format given to [SetFormat] *)

Lemma same_size_decide capToSet xcap :
  (cap_Width xcap =? cap_Width capToSet) &&
  (cap_Height xcap =? cap_Height capToSet) = true
  <-> same_size capToSet xcap.
Proof. unfold same_size. rewrite andb_true_iff, !Z.eqb_eq. done. Qed.

Lemma enum_step_select capToSet st sc st' :
  enum_step capToSet st sc = Some st' ->
  (usable_capability sc = None /\
   pExactMediaType st' = pExactMediaType st /\
   pCloseMediaType st' = pCloseMediaType st) \/
  (exists xcap mt,
     usable_capability sc = Some xcap /\ sc_pMediaType sc = Some mt /\
     ((xcap = capToSet /\ pExactMediaType st = None /\
       pExactMediaType st' = Some mt /\
       pCloseMediaType st' = pCloseMediaType st) \/
      ((xcap <> capToSet \/ is_Some (pExactMediaType st)) /\
       same_size capToSet xcap /\ pCloseMediaType st = None /\
       pExactMediaType st' = pExactMediaType st /\
       pCloseMediaType st' = Some mt) \/
      ((xcap <> capToSet \/ is_Some (pExactMediaType st)) /\
       (~ same_size capToSet xcap \/ is_Some (pCloseMediaType st)) /\
       pExactMediaType st' = pExactMediaType st /\
       pCloseMediaType st' = pCloseMediaType st))).
Proof.
  unfold enum_step, usable_capability.
  destruct (sc_pMediaType sc) as [mt|]; [|intros [= <-]; by left].
  destruct (SUCCEEDED (sc_hr sc)); [|intros [= <-]; by left].
  destruct (read_capability mt (sc_caps sc)) as [xcap|]; [|done].
  cbn [mbind option_bind].
  destruct (negb (cap_Width xcap =? 0) && (cap_BitCount xcap >? 12));
    [|intros [= <-]; by left].
  intros Hst. right. exists xcap, mt. split; [done|]. split; [done|].
  revert Hst.
  destruct (cap_eqb xcap capToSet && _) eqn:He.
  - apply andb_true_iff in He as [->%cap_eqb_eq Hn%bool_decide_eq_true].
    intros [= <-]. left. done.
  - assert (xcap <> capToSet \/ is_Some (pExactMediaType st)) as Hne.
    { apply andb_false_iff in He as [He|He].
      - left. intros Heq%cap_eqb_eq. congruence.
      - right. apply bool_decide_eq_false in He.
        by apply not_eq_None_Some. }
    destruct (_ && _ && _) eqn:Hc.
    + apply andb_true_iff in Hc
        as [Hs%same_size_decide Hn%bool_decide_eq_true].
      intros [= <-]. right. left. done.
    + assert (~ same_size capToSet xcap \/ is_Some (pCloseMediaType st))
        as Hns.
      { apply andb_false_iff in Hc as [Hc|Hc].
        - left. intros Hs%same_size_decide. congruence.
        - right. apply bool_decide_eq_false in Hc.
          by apply not_eq_None_Some. }
      intros [= <-]. right. right. done.
Qed.

Lemma enum_step_selection_inv capToSet seen st sc st' :
  selection_inv capToSet seen st ->
  enum_step capToSet st sc = Some st' ->
  selection_inv capToSet (seen ++ [sc]) st'.
Proof.
  intros (I1 & I2 & I3 & I4) Hstep.
  assert (forall sc', sc' ∈ seen ++ [sc] <-> sc' ∈ seen \/ sc' = sc) as Hin.
  { intros sc'. rewrite elem_of_app, list_elem_of_singleton. done. }
  unfold selection_inv.
  apply enum_step_select in Hstep
    as [(Hu & -> & ->)
       |(xcap & mt & Hu & Hmt &
         [(-> & Hn & -> & ->)
         |[(Hne & Hs & Hn & -> & ->)|(Hne & Hns & -> & ->)]])].
  - repeat split.
    + intros m Hm. destruct (I1 m Hm) as (sc' & ? & ?).
      exists sc'. rewrite Hin. auto.
    + intros m Hm. destruct (I2 m Hm) as (sc' & x & ? & ?).
      exists sc', x. rewrite Hin. auto.
    + intros sc' [?| ->]%Hin Hu'; [by apply (I3 sc')|congruence].
    + intros sc' x [?| ->]%Hin Hu'; [by apply (I4 sc' x)|congruence].
  - repeat split.
    + intros m [= <-]. exists sc. rewrite Hin. auto.
    + intros m Hm. destruct (I2 m Hm) as (sc' & x & ? & ?).
      exists sc', x. rewrite Hin. auto.
    + intros. by eexists.
    + intros. left. by eexists.
  - repeat split.
    + intros m Hm. destruct (I1 m Hm) as (sc' & ? & ?).
      exists sc'. rewrite Hin. auto.
    + intros m [= <-]. exists sc, xcap. rewrite Hin. auto.
    + intros sc' [?| ->]%Hin Hu'; [by apply (I3 sc')|].
      destruct Hne as [Hne|?]; [congruence|done].
    + intros. right. by eexists.
  - repeat split.
    + intros m Hm. destruct (I1 m Hm) as (sc' & ? & ?).
      exists sc'. rewrite Hin. auto.
    + intros m Hm. destruct (I2 m Hm) as (sc' & x & ? & ?).
      exists sc', x. rewrite Hin. auto.
    + intros sc' [?| ->]%Hin Hu'; [by apply (I3 sc')|].
      destruct Hne as [Hne|?]; [congruence|done].
    + intros sc' x [?| ->]%Hin Hu' Hs; [by apply (I4 sc' x)|].
      assert (x = xcap) as -> by congruence.
      destruct Hns as [?|?]; [done|by right].
Qed.

Lemma enum_loop_selection_inv capToSet seen st formats st' :
  selection_inv capToSet seen st ->
  enum_loop capToSet st formats = Some st' ->
  selection_inv capToSet (seen ++ formats) st'.
Proof.
  revert seen st. induction formats as [|sc formats IH]; intros seen st Hinv.
  - intros [= <-]. by rewrite app_nil_r.
  - cbn [enum_loop]. intros H. apply bind_Some in H as (st1 & Hstep & H).
    replace (seen ++ sc :: formats) with ((seen ++ [sc]) ++ formats)
      by (by rewrite <- app_assoc).
    apply (IH _ st1); [|done].
    by apply (enum_step_selection_inv _ _ st).
Qed.

Lemma enum_loop_selection capToSet formats st' :
  enum_loop capToSet
    {| capabilites := []; pExactMediaType := None; pCloseMediaType := None |}
    formats = Some st' ->
  selection_inv capToSet formats st'.
Proof.
  intros H. apply (enum_loop_selection_inv capToSet [] _ formats) in H;
    [done|].
  repeat split; cbn; try done.
  - intros sc Hin. by apply not_elem_of_nil in Hin.
  - intros sc x Hin. by apply not_elem_of_nil in Hin.
Qed.

(** X6. A format is given to [SetFormat] exactly when some delivered
    video format with more than 12 bits has the requested width and
    height, and the format given is such a one (with its frame time
    overridden): never a format of another size or of 12 bits or less. *)
Theorem GetPinCapabilitiesAndConfigureIt_format
    formats capToSet requestedFps caps format :
  GetPinCapabilitiesAndConfigureIt (Some formats) capToSet requestedFps
    = Some (caps, format) ->
  (is_Some format <->
     exists sc xcap, sc ∈ formats /\ usable_capability sc = Some xcap /\
                     same_size capToSet xcap) /\
  (forall chosen, format = Some chosen ->
     exists sc mt xcap,
       sc ∈ formats /\ sc_pMediaType sc = Some mt /\
       usable_capability sc = Some xcap /\ same_size capToSet xcap /\
       12 < biBitCount mt /\
       chosen = OverrideAverageTimePerFrame mt requestedFps).
Proof.
  unfold GetPinCapabilitiesAndConfigureIt. intros H.
  apply bind_Some in H as (st & Hloop & H). injection H as _ <-.
  apply enum_loop_selection in Hloop as (I1 & I2 & I3 & I4).
  assert (forall chosen,
    match pExactMediaType st, pCloseMediaType st with
    | Some mt, _ => Some (OverrideAverageTimePerFrame mt requestedFps)
    | None, Some mt => Some (OverrideAverageTimePerFrame mt requestedFps)
    | None, None => None
    end = Some chosen ->
    exists sc mt xcap,
      sc ∈ formats /\ sc_pMediaType sc = Some mt /\
      usable_capability sc = Some xcap /\ same_size capToSet xcap /\
      12 < biBitCount mt /\
      chosen = OverrideAverageTimePerFrame mt requestedFps) as Hchosen.
  { intros chosen Hc.
    destruct (pExactMediaType st) as [mt|] eqn:He.
    - injection Hc as <-. destruct (I1 mt eq_refl) as (sc & Hin & Hmt & Hu).
      exists sc, mt, capToSet. repeat split; try done.
      apply usable_capability_bits in Hu as (mt' & Hmt' & Hb & _ & _ & ? & _).
      rewrite Hmt in Hmt'. injection Hmt' as <-. lia.
    - destruct (pCloseMediaType st) as [mt|] eqn:Hcl; [|done].
      injection Hc as <-.
      destruct (I2 mt eq_refl) as (sc & xcap & Hin & Hmt & Hu & Hs).
      exists sc, mt, xcap. repeat split; try done; try apply Hs.
      apply usable_capability_bits in Hu as (mt' & Hmt' & Hb & _ & _ & ? & _).
      rewrite Hmt in Hmt'. injection Hmt' as <-. lia. }
  split; [|exact Hchosen]. split.
  - intros [chosen Hc].
    destruct (Hchosen chosen Hc) as (sc & mt & xcap & ? & ? & ? & ? & _).
    by exists sc, xcap.
  - intros (sc & xcap & Hin & Hu & Hs).
    destruct (I4 sc xcap Hin Hu Hs) as [[mt ->]|[mt Hc]]; [by eexists|].
    rewrite Hc. destruct (pExactMediaType st); by eexists.
Qed.

Lemma GetPinCapabilitiesAndConfigureIt_format_witness :
  let capToSet :=
    {| cap_Width := 640; cap_Height := 480; cap_BitCount := 16;
       cap_AverageFrameRate := 0; cap_MinimumFrameRate := 0;
       cap_MaximumFrameRate := 0 |} in
  let format :=
    Some {| formattype := FORMAT_VideoInfo; biWidth := 640;
            biHeight := 480; biBitCount := 24;
            AvgTimePerFrame := 400000 |} in
  (is_Some format <->
     exists sc xcap,
       sc ∈ [sample_format 12; sample_format 24] /\
       usable_capability sc = Some xcap /\ same_size capToSet xcap) /\
  (forall chosen, format = Some chosen ->
     exists sc mt xcap,
       sc ∈ [sample_format 12; sample_format 24] /\
       sc_pMediaType sc = Some mt /\
       usable_capability sc = Some xcap /\ same_size capToSet xcap /\
       12 < biBitCount mt /\
       chosen = OverrideAverageTimePerFrame mt 25).
Proof.
  apply (GetPinCapabilitiesAndConfigureIt_format
           [sample_format 12; sample_format 24]
           {| cap_Width := 640; cap_Height := 480; cap_BitCount := 16;
              cap_AverageFrameRate := 0; cap_MinimumFrameRate := 0;
              cap_MaximumFrameRate := 0 |} 25
           [{| cap_Width := 640; cap_Height := 480; cap_BitCount := 24;
               cap_AverageFrameRate := 30; cap_MinimumFrameRate := 30;
               cap_MaximumFrameRate := 10 |}]).
  vm_compute. reflexivity.
Defined.

(** X7. The exact match comes first: when a delivered format has the
    requested capability, the format given to [SetFormat] is one of that
    capability, whatever formats of the same size come before it. *)
Theorem GetPinCapabilitiesAndConfigureIt_exact_first
    formats capToSet requestedFps caps format :
  GetPinCapabilitiesAndConfigureIt (Some formats) capToSet requestedFps
    = Some (caps, format) ->
  (exists sc, sc ∈ formats /\ usable_capability sc = Some capToSet) ->
  exists sc mt,
    sc ∈ formats /\ sc_pMediaType sc = Some mt /\
    usable_capability sc = Some capToSet /\
    format = Some (OverrideAverageTimePerFrame mt requestedFps).
Proof.
  unfold GetPinCapabilitiesAndConfigureIt. intros H (sc & Hin & Hu).
  apply bind_Some in H as (st & Hloop & H). injection H as _ <-.
  apply enum_loop_selection in Hloop as (I1 & _ & I3 & _).
  destruct (I3 sc Hin Hu) as [mt Hmt]. rewrite Hmt.
  destruct (I1 mt Hmt) as (sc' & ? & ? & ?). by exists sc', mt.
Qed.

Lemma GetPinCapabilitiesAndConfigureIt_exact_first_witness :
  exists sc mt,
    sc ∈ [sample_format 16; sample_format 24] /\
    sc_pMediaType sc = Some mt /\
    usable_capability sc
      = Some {| cap_Width := 640; cap_Height := 480; cap_BitCount := 24;
                cap_AverageFrameRate := 30; cap_MinimumFrameRate := 30;
                cap_MaximumFrameRate := 10 |} /\
    Some {| formattype := FORMAT_VideoInfo; biWidth := 640;
            biHeight := 480; biBitCount := 24;
            AvgTimePerFrame := 333333 |}
    = Some (OverrideAverageTimePerFrame mt 0).
Proof.
  apply (GetPinCapabilitiesAndConfigureIt_exact_first
           [sample_format 16; sample_format 24]
           {| cap_Width := 640; cap_Height := 480; cap_BitCount := 24;
              cap_AverageFrameRate := 30; cap_MinimumFrameRate := 30;
              cap_MaximumFrameRate := 10 |} 0
           [{| cap_Width := 640; cap_Height := 480; cap_BitCount := 16;
               cap_AverageFrameRate := 30; cap_MinimumFrameRate := 30;
               cap_MaximumFrameRate := 10 |};
            {| cap_Width := 640; cap_Height := 480; cap_BitCount := 24;
               cap_AverageFrameRate := 30; cap_MinimumFrameRate := 30;
               cap_MaximumFrameRate := 10 |}]).
  - vm_compute. reflexivity.
  - exists (sample_format 24). split; [|reflexivity].
    apply list_elem_of_further, list_elem_of_here.
Defined.

(** X8. A requested rate is read back: after
    [OverrideAverageTimePerFrame] with a rate from 1 to 3161 frames a
    second, the rate the enumeration computes from the frame time of a
    video format is that rate again; size and bit count are kept, and a
    requested rate of zero leaves the format as it is. *)
Theorem OverrideAverageTimePerFrame_rate mt requestedFps :
  formattype mt <> FORMAT_Other ->
  1 <= requestedFps -> requestedFps * (requestedFps + 1) <= 10000000 ->
  let mt' := OverrideAverageTimePerFrame mt requestedFps in
  frame_rate (AvgTimePerFrame mt') = Some requestedFps /\
  biWidth mt' = biWidth mt /\ biHeight mt' = biHeight mt /\
  biBitCount mt' = biBitCount mt /\ formattype mt' = formattype mt /\
  OverrideAverageTimePerFrame mt 0 = mt.
Proof.
  intros Hft Hfps Hmax mt'. subst mt'. unfold OverrideAverageTimePerFrame.
  destruct (Z.eqb_spec requestedFps 0); [lia|]. cbn [negb Z.eqb].
  assert (frame_rate (Z.quot 10000000 requestedFps) = Some requestedFps)
    as Hrate.
  { unfold frame_rate.
    rewrite (Z.quot_div_nonneg 10000000 requestedFps) by lia.
    pose proof (Z.div_mod 10000000 requestedFps ltac:(lia)) as Hdm.
    pose proof (Z.mod_pos_bound 10000000 requestedFps ltac:(lia)) as Hmb.
    set (q := 10000000 / requestedFps) in *.
    assert (requestedFps <= q) as Hq by nia.
    destruct (Z.eqb_spec q 0); [lia|].
    rewrite (Z.quot_div_nonneg 10000000 q) by lia.
    assert (10000000 / q = requestedFps) as ->.
    { symmetry. apply (Z.div_unique 10000000 q requestedFps
                         (10000000 - q * requestedFps)); nia. }
    f_equal. unfold to_int32. rewrite Z.mod_small; lia. }
  destruct (formattype mt) eqn:Hf; [..|done]; cbn; by rewrite Hrate.
Qed.

Lemma OverrideAverageTimePerFrame_rate_witness :
  let mt := {| formattype := FORMAT_VideoInfo; biWidth := 640;
               biHeight := 480; biBitCount := 24;
               AvgTimePerFrame := 333333 |} in
  let mt' := OverrideAverageTimePerFrame mt 25 in
  frame_rate (AvgTimePerFrame mt') = Some 25 /\
  biWidth mt' = biWidth mt /\ biHeight mt' = biHeight mt /\
  biBitCount mt' = biBitCount mt /\ formattype mt' = formattype mt /\
  OverrideAverageTimePerFrame mt 0 = mt.
Proof.
  apply (OverrideAverageTimePerFrame_rate
           {| formattype := FORMAT_VideoInfo; biWidth := 640;
              biHeight := 480; biBitCount := 24;
              AvgTimePerFrame := 333333 |} 25).
  - discriminate.
  - lia.
  - lia.
Defined.

Lemma add_capability_prefix caps sc : caps `prefix_of` add_capability caps sc.
Proof.
  unfold add_capability. destruct (usable_capability sc); [|done].
  destruct (existsb _ caps); [done|]. by apply prefix_app_r.
Qed.

Lemma fold_add_capability_prefix formats caps :
  caps `prefix_of` fold_left add_capability formats caps.
Proof.
  revert caps. induction formats as [|sc formats IH]; intros caps; [done|].
  cbn [fold_left]. etrans; [apply add_capability_prefix|apply IH].
Qed.

Lemma GetPinCapabilitiesAndConfigureIt_fold formats capToSet fps caps format :
  GetPinCapabilitiesAndConfigureIt (Some formats) capToSet fps
    = Some (caps, format) ->
  caps = fold_left add_capability formats [].
Proof.
  unfold GetPinCapabilitiesAndConfigureIt. intros H.
  apply bind_Some in H as (st & Hloop & H). injection H as <- _.
  assert (forall st0 st1,
            enum_loop capToSet st0 formats = Some st1 ->
            capabilites st1
            = fold_left add_capability formats (capabilites st0)) as Hgen.
  { clear. induction formats as [|sc formats IH]; intros st0 st1.
    - by intros [= <-].
    - cbn [enum_loop fold_left]. intros H.
      apply bind_Some in H as (st & Hstep & H).
      rewrite (IH _ _ H). f_equal. clear H IH.
      unfold enum_step, add_capability, usable_capability in *.
      destruct (sc_pMediaType sc) as [mt|]; [|by injection Hstep as <-].
      destruct (SUCCEEDED (sc_hr sc)); [|by injection Hstep as <-].
      destruct (read_capability mt (sc_caps sc)) as [xcap|]; [|done].
      cbn [mbind option_bind] in *.
      destruct (negb _ && _); [|by injection Hstep as <-].
      destruct (cap_eqb xcap capToSet && _); [by injection Hstep as <-|].
      destruct (_ && _ && _); by injection Hstep as <-. }
  by apply Hgen in Hloop.
Qed.

(** X9. The capabilities are listed in the order in which the formats
    first bring them: the list for the first formats of an enumeration is
    the beginning of the list for all of them. *)
Theorem GetPinCapabilitiesAndConfigureIt_prefix
    formats more capToSet requestedFps caps format caps' format' :
  GetPinCapabilitiesAndConfigureIt (Some formats) capToSet requestedFps
    = Some (caps, format) ->
  GetPinCapabilitiesAndConfigureIt (Some (formats ++ more)) capToSet
                                   requestedFps
    = Some (caps', format') ->
  caps `prefix_of` caps'.
Proof.
  intros H1 H2.
  apply GetPinCapabilitiesAndConfigureIt_fold in H1 as ->, H2 as ->.
  rewrite fold_left_app. apply fold_add_capability_prefix.
Qed.

Lemma GetPinCapabilitiesAndConfigureIt_prefix_witness :
  [{| cap_Width := 640; cap_Height := 480; cap_BitCount := 24;
      cap_AverageFrameRate := 30; cap_MinimumFrameRate := 30;
      cap_MaximumFrameRate := 10 |}]
  `prefix_of`
  [{| cap_Width := 640; cap_Height := 480; cap_BitCount := 24;
      cap_AverageFrameRate := 30; cap_MinimumFrameRate := 30;
      cap_MaximumFrameRate := 10 |};
   {| cap_Width := 640; cap_Height := 480; cap_BitCount := 16;
      cap_AverageFrameRate := 30; cap_MinimumFrameRate := 30;
      cap_MaximumFrameRate := 10 |}].
Proof.
  apply (GetPinCapabilitiesAndConfigureIt_prefix
           [sample_format 24] [sample_format 24; sample_format 16]
           XDeviceCapabilities_default 0 _ None _ None).
  - vm_compute. reflexivity.
  - vm_compute. reflexivity.
Defined.

(** ** The property store *)

(** X10. [SetVideoProperty] can change one field of the record only, the
    map of deferred video properties, and that only for a valid property
    on a device that does not run; it calls the hardware only on a running
    device that has the control interface; and it answers
    [ErrorInvalidProperty] exactly for the properties outside
    [Brightness] .. [Gain]. *)
Theorem SetVideoProperty_frame property value automatic s :
  let ret := (SetVideoProperty property value automatic s).1.1 in
  let s' := (SetVideoProperty property value automatic s).1.2 in
  let events := (SetVideoProperty property value automatic s).2 in
  s' = set_VideoPropertiesToSet (VideoPropertiesToSet s') s /\
  (VideoPropertiesToSet s' <> VideoPropertiesToSet s ->
     DeviceIsRunning s = false /\ valid_video_property property /\
     ret = SuccessCode) /\
  (events <> [] ->
     DeviceIsRunning s = true /\ valid_video_property property /\
     is_Some (VideoProcAmp s)) /\
  (ret = ErrorInvalidProperty <-> ~ valid_video_property property).
Proof.
  assert (s = set_VideoPropertiesToSet (VideoPropertiesToSet s) s) as Hs
    by by destruct s.
  unfold SetVideoProperty, valid_video_property.
  destruct (Z.ltb_spec property XVideoProperty.Brightness);
    [cbn; repeat split; (done || lia)|].
  destruct (Z.gtb_spec property XVideoProperty.Gain);
    [cbn; repeat split; (done || lia)|].
  cbn [orb]. destruct (DeviceIsRunning s) eqn:Hrun; cbn [negb].
  - destruct (VideoProcAmp s) as [amp|] eqn:Hamp.
    + cbn [fst snd]. repeat split; try (done || lia).
      destruct (FAILED _); [|done]. by destruct (_ =? _).
    + cbn. repeat split; (done || lia).
  - cbn. repeat split; (done || lia).
Qed.

Lemma native_video_property_inj k1 k2 :
  valid_video_property k1 -> valid_video_property k2 ->
  nth (Z.to_nat k1) nativeVideoProperties VideoProcAmp_Brightness
  = nth (Z.to_nat k2) nativeVideoProperties VideoProcAmp_Brightness ->
  k1 = k2.
Proof.
  unfold valid_video_property, XVideoProperty.Brightness, XVideoProperty.Gain.
  intros H1 H2.
  assert (exists n1, k1 = Z.of_nat n1 /\ (n1 <= 9)%nat) as (n1 & -> & Hn1).
  { exists (Z.to_nat k1). lia. }
  assert (exists n2, k2 = Z.of_nat n2 /\ (n2 <= 9)%nat) as (n2 & -> & Hn2).
  { exists (Z.to_nat k2). lia. }
  rewrite !Nat2Z.id. intros Hnth. f_equal.
  do 10 (destruct n1 as [|n1]; [
    do 10 (destruct n2 as [|n2]; [done || discriminate Hnth|]); lia|]).
  lia.
Qed.

Lemma apply_properties_video_state entries configOK s :
  DeviceIsRunning s = true ->
  (apply_properties SetVideoProperty entries configOK s).1.2 = s.
Proof.
  intros Hrun. revert configOK.
  induction entries as [|[k [v a]] entries IH]; intros configOK; [done|].
  cbn [apply_properties fst snd].
  assert ((SetVideoProperty k (to_int32 v) a s).1.2 = s) as Hs.
  { unfold SetVideoProperty. destruct (_ || _); [done|].
    rewrite Hrun. cbn. by destruct (VideoProcAmp s). }
  destruct (SetVideoProperty k (to_int32 v) a s) as [[ret s1] ev1].
  cbn in Hs. subst s1.
  specialize (IH (configOK && bool_decide (ret = SuccessCode))).
  destruct (apply_properties _ entries _ s) as [[ok s2] ev2].
  done.
Qed.

(** The shape of what [RunVideo_device_started] does when the video
    control interface is offered and the keys of the map are valid. *)
Lemma RunVideo_device_started_offered pSourceFilter s hr amp :
  QueryInterface_IAMVideoProcAmp pSourceFilter = (hr, Some amp) ->
  SUCCEEDED hr = true ->
  keys_valid valid_video_property (VideoPropertiesToSet s) ->
  let entries := map_entries (VideoPropertiesToSet s) in
  exists camera_events,
    Forall camera_event camera_events /\
    (RunVideo_device_started pSourceFilter s).2
    = map video_set_event entries
      ++ (if forallb (video_set_ok amp) entries then []
          else NotifyError "Failed applying video configuration" false s)
      ++ camera_events /\
    VideoPropertiesToSet (RunVideo_device_started pSourceFilter s).1 = ∅.
Proof.
  intros Hqi Hhr Hkeys entries.
  unfold RunVideo_device_started. rewrite Hqi, Hhr.
  cbn [VideoProcAmp set_VideoProcAmp andb].
  rewrite bool_decide_eq_true_2 by by eexists.
  cbn [VideoPropertiesToSet set_VideoProcAmp set_DeviceIsRunning].
  rewrite (apply_properties_video_running amp); [|done|done|].
  2:{ apply (map_entries_keys _ valid_video_property). exact Hkeys. }
  cbn [andb]. fold entries.
  destruct (QueryInterface_IAMCameraControl pSourceFilter) as [hr2 ctl].
  set (s1 := set_VideoPropertiesToSet ∅ _).
  destruct (SUCCEEDED hr2 &&
            bool_decide (is_Some (CameraControl (set_CameraControl ctl s1)))).
  - destruct (apply_properties_camera_running
                (map_entries (CameraPropertiesToSet (set_CameraControl ctl s1)))
                true (set_CameraControl ctl s1) eq_refl)
      as (ok & ev & -> & Hev).
    cbn [fst snd]. eexists. split; [|split; [|done]].
    2:{ rewrite <- app_assoc. f_equal. f_equal.
        unfold NotifyError. cbn. by destruct (forallb _ _). }
    apply Forall_app. split; [done|].
    destruct ok; cbn; [done|]. unfold NotifyError.
    destruct (Listener _); [|done]. by apply Forall_cons.
  - cbn [fst snd]. exists []. split; [done|]. split; [|done].
    rewrite <- app_assoc. f_equal. f_equal.
    unfold NotifyError. cbn. by destruct (forallb _ _).
Qed.

Lemma SetVideoProperty_keys_valid property value automatic s :
  keys_valid valid_video_property (VideoPropertiesToSet s) ->
  keys_valid valid_video_property
    (VideoPropertiesToSet (SetVideoProperty property value automatic s).1.2).
Proof. intros Hk k v. by apply SetVideoProperty_keys. Qed.

(** X11. A value set before the device runs reaches the hardware as it
    was given: when the device then starts with the control interface,
    the interface's [Set] is called for the property with that value and
    flag, and with no other value for that property. *)
Theorem SetVideoProperty_then_started
    property value automatic s pSourceFilter hr amp :
  DeviceIsRunning s = false ->
  valid_video_property property -> INT_MIN <= value <= INT_MAX ->
  keys_valid valid_video_property (VideoPropertiesToSet s) ->
  QueryInterface_IAMVideoProcAmp pSourceFilter = (hr, Some amp) ->
  SUCCEEDED hr = true ->
  let s1 := (SetVideoProperty property value automatic s).1.2 in
  let events := (RunVideo_device_started pSourceFilter s1).2 in
  let prop := nth (Z.to_nat property) nativeVideoProperties
                  VideoProcAmp_Brightness in
  let flags := if automatic then VideoProcAmp_Flags_Auto
               else VideoProcAmp_Flags_Manual in
  EvVideoProcAmpSet prop value flags ∈ events /\
  forall value' flags',
    EvVideoProcAmpSet prop value' flags' ∈ events ->
    value' = value /\ flags' = flags.
Proof.
  intros Hrun Hp Hv Hkeys Hqi Hhr s1 events prop flags.
  assert (VideoPropertiesToSet s1 !! property
          = Some (to_uint32 value, automatic)) as Hlook.
  { subst s1. unfold SetVideoProperty, valid_video_property in *.
    destruct (Z.ltb_spec property XVideoProperty.Brightness); [lia|].
    destruct (Z.gtb_spec property XVideoProperty.Gain); [lia|].
    rewrite Hrun. cbn. apply lookup_insert_eq. }
  destruct (RunVideo_device_started_offered pSourceFilter s1 hr amp Hqi Hhr)
    as (cam & Hcam & Hev & _).
  { by apply SetVideoProperty_keys_valid. }
  fold events in Hev.
  assert (forall k v a,
            (k, (v, a)) ∈ map_entries (VideoPropertiesToSet s1) <->
            VideoPropertiesToSet s1 !! k = Some (v, a)) as Hentries.
  { intros k v a. rewrite map_entries_Permutation.
    apply elem_of_map_to_list. }
  split.
  - rewrite Hev. apply elem_of_app. left.
    apply list_elem_of_fmap. exists (property, (to_uint32 value, automatic)).
    split; [|by apply Hentries].
    unfold video_set_event. cbn [fst snd]. fold prop flags.
    by rewrite to_int32_to_uint32.
  - intros value' flags'. rewrite Hev, !elem_of_app.
    intros [Hin|[Hin|Hin]].
    + apply list_elem_of_fmap in Hin as ([k [v a]] & Heq & Hin).
      unfold video_set_event in Heq. cbn [fst snd] in Heq.
      injection Heq as Hprop -> ->.
      apply Hentries in Hin.
      assert (k = property) as Hk.
      { apply native_video_property_inj; [|done|done].
        by apply (SetVideoProperty_keys_valid property value automatic s
                    Hkeys k (v, a)). }
      rewrite Hk in Hin.
      pose proof (eq_trans (eq_sym Hin) Hlook) as [= -> ->].
      by rewrite to_int32_to_uint32.
    + destruct (forallb _ _); [by apply not_elem_of_nil in Hin|].
      unfold NotifyError in Hin. destruct (Listener s1).
      * apply list_elem_of_singleton in Hin. done.
      * by apply not_elem_of_nil in Hin.
    + rewrite Forall_forall in Hcam. by apply Hcam in Hin.
Qed.

Lemma sample_device_keys :
  keys_valid valid_video_property (VideoPropertiesToSet sample_device).
Proof. intros k v H. cbn in H. by rewrite lookup_empty in H. Qed.

Lemma SetVideoProperty_then_started_witness :
  let s1 := (SetVideoProperty XVideoProperty.Hue (-3) true sample_device).1.2 in
  let events := (RunVideo_device_started sample_filter s1).2 in
  EvVideoProcAmpSet VideoProcAmp_Hue (-3) VideoProcAmp_Flags_Auto ∈ events /\
  forall value' flags',
    EvVideoProcAmpSet VideoProcAmp_Hue value' flags' ∈ events ->
    value' = -3 /\ flags' = VideoProcAmp_Flags_Auto.
Proof.
  apply (SetVideoProperty_then_started XVideoProperty.Hue (-3) true
           sample_device sample_filter S_OK sample_amp).
  - reflexivity.
  - vm_compute. split; discriminate.
  - vm_compute. split; discriminate.
  - exact sample_device_keys.
  - reflexivity.
  - reflexivity.
Defined.

(** X12. The last value wins and the order of different properties does
    not matter: on a device that does not run, setting a property twice
    leaves the record as setting it to the second value alone does, and
    setting two different properties gives the same record in either
    order. *)
Theorem SetVideoProperty_last_wins p q v1 a1 v2 a2 s :
  DeviceIsRunning s = false ->
  valid_video_property p -> valid_video_property q ->
  (SetVideoProperty p v2 a2 (SetVideoProperty p v1 a1 s).1.2).1.2
    = (SetVideoProperty p v2 a2 s).1.2 /\
  (p <> q ->
   (SetVideoProperty q v2 a2 (SetVideoProperty p v1 a1 s).1.2).1.2
     = (SetVideoProperty p v1 a1 (SetVideoProperty q v2 a2 s).1.2).1.2).
Proof.
  intros Hrun Hp Hq.
  assert (forall p v a s, DeviceIsRunning s = false ->
            valid_video_property p ->
            (SetVideoProperty p v a s).1.2
            = set_VideoPropertiesToSet
                (<[p := (to_uint32 v, a)]> (VideoPropertiesToSet s)) s)
    as Hset.
  { clear. intros p v a s Hrun Hp.
    unfold SetVideoProperty, valid_video_property in *.
    destruct (Z.ltb_spec p XVideoProperty.Brightness); [lia|].
    destruct (Z.gtb_spec p XVideoProperty.Gain); [lia|].
    by rewrite Hrun. }
  rewrite !Hset by (done || by rewrite Hset).
  unfold set_VideoPropertiesToSet. cbn. split.
  - f_equal. apply insert_insert_eq.
  - intros Hne. f_equal. by apply insert_insert_ne.
Qed.

Lemma SetVideoProperty_last_wins_witness :
  (SetVideoProperty XVideoProperty.Hue 2 false
     (SetVideoProperty XVideoProperty.Hue 1 true sample_device).1.2).1.2
    = (SetVideoProperty XVideoProperty.Hue 2 false sample_device).1.2 /\
  (XVideoProperty.Hue <> XVideoProperty.Gain ->
   (SetVideoProperty XVideoProperty.Gain 2 false
      (SetVideoProperty XVideoProperty.Hue 1 true sample_device).1.2).1.2
     = (SetVideoProperty XVideoProperty.Hue 1 true
          (SetVideoProperty XVideoProperty.Gain 2 false
             sample_device).1.2).1.2).
Proof.
  apply (SetVideoProperty_last_wins XVideoProperty.Hue XVideoProperty.Gain
           1 true 2 false sample_device).
  - reflexivity.
  - vm_compute. split; discriminate.
  - vm_compute. split; discriminate.
Defined.

Lemma map_entries_empty : map_entries ∅ = [].
Proof. unfold map_entries. by rewrite map_to_list_empty. Qed.

(** X13. The deferred video properties are applied once: when a start
    with the control interface has applied them, a stop and another start
    call the interface's [Set] for none of them and report no failure of
    the video configuration. *)
Theorem RunVideo_device_started_again pSourceFilter pSourceFilter' s hr amp :
  QueryInterface_IAMVideoProcAmp pSourceFilter = (hr, Some amp) ->
  SUCCEEDED hr = true ->
  keys_valid valid_video_property (VideoPropertiesToSet s) ->
  let s1 := (RunVideo_device_started pSourceFilter s).1 in
  let s2 := RunVideo_device_stopped s1 in
  Forall camera_event (RunVideo_device_started pSourceFilter' s2).2.
Proof.
  intros Hqi Hhr Hkeys s1 s2.
  destruct (RunVideo_device_started_offered pSourceFilter s hr amp Hqi Hhr
              Hkeys) as (_ & _ & _ & Hempty).
  fold s1 in Hempty.
  assert (VideoPropertiesToSet s2 = ∅) as Hempty2 by exact Hempty.
  destruct (SUCCEEDED (QueryInterface_IAMVideoProcAmp pSourceFilter').1 &&
            bool_decide
              (is_Some (QueryInterface_IAMVideoProcAmp pSourceFilter').2))
    eqn:Hoff.
  - apply andb_true_iff in Hoff as [Hhr' [amp' Hamp']%bool_decide_eq_true].
    destruct (RunVideo_device_started_offered pSourceFilter' s2
                (QueryInterface_IAMVideoProcAmp pSourceFilter').1 amp')
      as (cam & Hcam & -> & _).
    + clear Hhr'. revert Hamp'.
      destruct (QueryInterface_IAMVideoProcAmp pSourceFilter') as [h a].
      cbn. by intros ->.
    + done.
    + rewrite Hempty2. intros k v Hk. by rewrite lookup_empty in Hk.
    + by rewrite Hempty2, map_entries_empty.
  - by apply RunVideo_device_started_not_offered.
Qed.

Lemma sample_configured_keys_valid :
  keys_valid valid_video_property (VideoPropertiesToSet sample_configured).
Proof. exact sample_configured_keys. Qed.

Lemma RunVideo_device_started_again_witness :
  Forall camera_event
    (RunVideo_device_started sample_filter
       (RunVideo_device_stopped
          (RunVideo_device_started sample_filter sample_configured).1)).2.
Proof.
  apply (RunVideo_device_started_again sample_filter sample_filter
           sample_configured S_OK sample_amp).
  - reflexivity.
  - reflexivity.
  - exact sample_configured_keys_valid.
Defined.

(** X14. A device that starts without the video control interface keeps
    the deferred video properties and applies none; while it runs,
    [SetVideoProperty] for a valid property answers
    [ErrorConfigurationNotSupported] and neither stores the value nor
    calls hardware. *)
Theorem RunVideo_device_started_without_interface
    pSourceFilter s hr property value automatic :
  QueryInterface_IAMVideoProcAmp pSourceFilter = (hr, None) ->
  valid_video_property property ->
  let s' := (RunVideo_device_started pSourceFilter s).1 in
  VideoPropertiesToSet s' = VideoPropertiesToSet s /\
  Forall (fun e => ~ is_video_set e)
         (RunVideo_device_started pSourceFilter s).2 /\
  SetVideoProperty property value automatic s'
    = (ErrorConfigurationNotSupported, s', []).
Proof.
  intros Hqi Hp s'.
  destruct (RunVideo_device_started_not_offered pSourceFilter s)
    as (Hev & Hmap & Hrun & Hamp).
  { rewrite Hqi. cbn. by rewrite andb_false_r. }
  rewrite Hqi in Hamp. cbn in Hamp.
  change (DeviceIsRunning s' = true) in Hrun.
  change (VideoProcAmp s' = None) in Hamp.
  split; [exact Hmap|]. split.
  - eapply Forall_impl; [exact Hev|]. intros e Hc Hv. by destruct e.
  - unfold SetVideoProperty, valid_video_property in *.
    destruct (Z.ltb_spec property XVideoProperty.Brightness); [lia|].
    destruct (Z.gtb_spec property XVideoProperty.Gain); [lia|].
    by rewrite Hrun, Hamp.
Qed.

Lemma RunVideo_device_started_without_interface_witness :
  let s' := (RunVideo_device_started plain_filter sample_configured).1 in
  VideoPropertiesToSet s' = VideoPropertiesToSet sample_configured /\
  Forall (fun e => ~ is_video_set e)
         (RunVideo_device_started plain_filter sample_configured).2 /\
  SetVideoProperty XVideoProperty.Gain 3 false s'
    = (ErrorConfigurationNotSupported, s', []).
Proof.
  apply (RunVideo_device_started_without_interface plain_filter
           sample_configured E_NOINTERFACE XVideoProperty.Gain 3 false).
  - reflexivity.
  - vm_compute. split; discriminate.
Defined.

(** X15. [GetVideoProperty] and [GetVideoPropertyRange] call the control
    interface only with all places for the answer, a valid property, a
    running device and the interface; they write an answer exactly when
    they return [SuccessCode], and the automatic flag only where there is
    a place for it. *)
Theorem GetVideoProperty_guards GetRange property value automatic pointers s :
  let get := GetVideoProperty property value automatic s in
  let range := GetVideoPropertyRange GetRange property pointers s in
  (get.2 <> [] <->
     value = true /\ valid_video_property property /\
     DeviceIsRunning s = true /\ is_Some (VideoProcAmp s)) /\
  (is_Some get.1.1.2 <-> get.1.1.1 = SuccessCode) /\
  (is_Some get.1.2 -> automatic = true /\ get.1.1.1 = SuccessCode) /\
  (range.2 = true <->
     pointers = true /\ valid_video_property property /\
     DeviceIsRunning s = true /\ is_Some (VideoProcAmp s)) /\
  (is_Some range.1.2 <-> range.1.1 = SuccessCode).
Proof.
  unfold GetVideoProperty, GetVideoPropertyRange, valid_video_property.
  assert (forall (A : Type), ~ is_Some (@None A)) as Hnone
      by (intros A [? ?]; done).
  split; [|split; [|split; [|split]]].
  - destruct value; cbn [negb]; [|split; [done|by intros [? _]]].
    destruct (Z.ltb_spec property XVideoProperty.Brightness);
      [split; [done|lia]|].
    destruct (Z.gtb_spec property XVideoProperty.Gain);
      [split; [done|lia]|].
    cbn [orb]. destruct (DeviceIsRunning s); cbn [negb];
      [|split; [done|by intros (_ & _ & ? & _)]].
    destruct (VideoProcAmp s) as [amp|];
      [|split; [done|by intros (_ & _ & _ & ?%Hnone)]].
    destruct (vpa_Get amp _) as [[hr v] f].
    destruct (FAILED hr); cbn; (split; [intros _; repeat split; (lia || by eexists)|done]).
  - destruct value; cbn [negb]; [|split; [by intros ?%Hnone|done]].
    destruct (_ || _); [split; [by intros ?%Hnone|done]|].
    destruct (negb _); [split; [by intros ?%Hnone|done]|].
    destruct (VideoProcAmp s) as [amp|]; [|split; [by intros ?%Hnone|done]].
    destruct (vpa_Get amp _) as [[hr v] f].
    destruct (FAILED hr); cbn; [|split; [done|by eexists]].
    split; [by intros ?%Hnone|]. by destruct (_ =? _).
  - destruct value; cbn [negb]; [|by intros ?%Hnone].
    destruct (_ || _); [by intros ?%Hnone|].
    destruct (negb _); [by intros ?%Hnone|].
    destruct (VideoProcAmp s) as [amp|]; [|by intros ?%Hnone].
    destruct (vpa_Get amp _) as [[hr v] f].
    destruct (FAILED hr); cbn; [by intros ?%Hnone|].
    destruct automatic; [done|by intros ?%Hnone].
  - destruct pointers; cbn [negb]; [|split; [done|by intros [? _]]].
    destruct (Z.ltb_spec property XVideoProperty.Brightness);
      [split; [done|lia]|].
    destruct (Z.gtb_spec property XVideoProperty.Gain);
      [split; [done|lia]|].
    cbn [orb]. destruct (DeviceIsRunning s); cbn [negb];
      [|split; [done|by intros (_ & _ & ? & _)]].
    destruct (VideoProcAmp s) as [amp|];
      [|split; [done|by intros (_ & _ & _ & ?%Hnone)]].
    destruct (GetRange _) as [[hr [[[? ?] ?] ?]] f].
    destruct (FAILED hr); cbn; (split; [intros _; repeat split; (lia || by eexists)|done]).
  - destruct pointers; cbn [negb]; [|split; [by intros ?%Hnone|done]].
    destruct (_ || _); [split; [by intros ?%Hnone|done]|].
    destruct (negb _); [split; [by intros ?%Hnone|done]|].
    destruct (VideoProcAmp s) as [amp|]; [|split; [by intros ?%Hnone|done]].
    destruct (GetRange _) as [[hr [[[? ?] ?] ?]] f].
    destruct (FAILED hr); cbn; [|split; [done|by eexists]].
    split; [by intros ?%Hnone|]. by destruct (_ =? _).
Qed.

(** X16. [SetCameraProperty] on a device that does not run stores the
    value in the map of deferred camera properties and in no other field,
    answers [SuccessCode] and calls no hardware; the map of deferred video
    properties is not touched. *)
Theorem SetCameraProperty_deferred property value automatic s :
  valid_camera_property property -> INT_MIN <= value <= INT_MAX ->
  DeviceIsRunning s = false ->
  exists stored,
    SetCameraProperty property value automatic s
    = (SuccessCode,
       set_CameraPropertiesToSet
         (<[property := (stored, automatic)]> (CameraPropertiesToSet s)) s,
       []) /\
    to_int32 stored = value /\
    VideoPropertiesToSet (SetCameraProperty property value automatic s).1.2
    = VideoPropertiesToSet s.
Proof.
  intros Hp Hv Hrun. unfold SetCameraProperty, valid_camera_property in *.
  destruct (Z.ltb_spec property XCameraProperty.Pan); [lia|].
  destruct (Z.gtb_spec property XCameraProperty.Focus); [lia|].
  rewrite Hrun. cbn [orb negb]. exists (to_uint32 value).
  split; [done|]. split; [by apply to_int32_to_uint32|done].
Qed.

Lemma SetCameraProperty_deferred_witness :
  exists stored,
    SetCameraProperty XCameraProperty.Zoom (-2) false sample_device
    = (SuccessCode,
       set_CameraPropertiesToSet
         (<[XCameraProperty.Zoom := (stored, false)]>
            (CameraPropertiesToSet sample_device)) sample_device,
       []) /\
    to_int32 stored = -2 /\
    VideoPropertiesToSet
      (SetCameraProperty XCameraProperty.Zoom (-2) false sample_device).1.2
    = VideoPropertiesToSet sample_device.
Proof.
  apply (SetCameraProperty_deferred XCameraProperty.Zoom (-2) false
           sample_device).
  - vm_compute. split; discriminate.
  - vm_compute. split; discriminate.
  - reflexivity.
Defined.

Lemma SetVideoProperty_frame_witness :
  let ret := (SetVideoProperty 10 1 false sample_started).1.1 in
  let s' := (SetVideoProperty 10 1 false sample_started).1.2 in
  let events := (SetVideoProperty 10 1 false sample_started).2 in
  s' = set_VideoPropertiesToSet (VideoPropertiesToSet s') sample_started /\
  (VideoPropertiesToSet s' <> VideoPropertiesToSet sample_started ->
     DeviceIsRunning sample_started = false /\ valid_video_property 10 /\
     ret = SuccessCode) /\
  (events <> [] ->
     DeviceIsRunning sample_started = true /\ valid_video_property 10 /\
     is_Some (VideoProcAmp sample_started)) /\
  (ret = ErrorInvalidProperty <-> ~ valid_video_property 10).
Proof. exact (SetVideoProperty_frame 10 1 false sample_started). Defined.

Lemma GetVideoProperty_guards_witness :
  let get := GetVideoProperty XVideoProperty.Hue true false sample_device in
  let range :=
    GetVideoPropertyRange (fun _ => (S_OK, (0, 255, 1, 128), 1))
                          XVideoProperty.Hue true sample_device in
  (get.2 <> [] <->
     true = true /\ valid_video_property XVideoProperty.Hue /\
     DeviceIsRunning sample_device = true /\
     is_Some (VideoProcAmp sample_device)) /\
  (is_Some get.1.1.2 <-> get.1.1.1 = SuccessCode) /\
  (is_Some get.1.2 -> false = true /\ get.1.1.1 = SuccessCode) /\
  (range.2 = true <->
     true = true /\ valid_video_property XVideoProperty.Hue /\
     DeviceIsRunning sample_device = true /\
     is_Some (VideoProcAmp sample_device)) /\
  (is_Some range.1.2 <-> range.1.1 = SuccessCode).
Proof.
  exact (GetVideoProperty_guards (fun _ => (S_OK, (0, 255, 1, 128), 1))
           XVideoProperty.Hue true false true sample_device).
Defined.

(** ** The facade: start, stop, identity *)

(** X17. [Start] answers [SuccessCode] exactly when there is a moniker
    and the thread runs already or could be created.  Whenever it tries to
    create the thread it first sets the frame counter to zero and resets
    the exit and the info-collected events, also when the creation then
    fails; the moniker, the resolution request, the listener and the
    deferred properties are kept. *)
Theorem Start_result created s :
  let ret := (Start created s).1.1 in
  let s' := (Start created s).1.2 in
  let events := (Start created s).2 in
  (ret = SuccessCode <->
     DeviceMoniker s <> ""%string /\ (IsRunning s = true \/ created = true)) /\
  (events <> [] ->
     events = [EvThreadCreate] /\ IsRunning s = false /\
     IsRunning s' = created /\
     FramesReceived s' = 0 /\ ExitEvent s' = false /\
     InfoCollectedEvent s' = false) /\
  DeviceMoniker s' = DeviceMoniker s /\ Resolution s' = Resolution s /\
  RequestedFps s' = RequestedFps s /\ Listener s' = Listener s /\
  same_session s s'.
Proof.
  unfold Start, same_session.
  destruct (string_empty (DeviceMoniker s)) eqn:He.
  - apply string_empty_spec in He. cbn. repeat split; try done.
    by intros [? _].
  - assert (DeviceMoniker s <> ""%string) as Hm.
    { intros Hm%string_empty_spec. congruence. }
    unfold IsRunning. destruct (XThread_IsRunning (BackgroundThread s)) eqn:Hr.
    + cbn. repeat split; try done. by left.
    + cbn. repeat split; try done.
      * destruct created; [by right|done].
      * destruct created; [done|]. by intros [_ [?|?]].
      * destruct created; [done|exact Hr].
Qed.

Lemma Start_result_witness :
  let ret := (Start false sample_device).1.1 in
  let s' := (Start false sample_device).1.2 in
  let events := (Start false sample_device).2 in
  (ret = SuccessCode <->
     DeviceMoniker sample_device <> ""%string /\
     (IsRunning sample_device = true \/ false = true)) /\
  (events <> [] ->
     events = [EvThreadCreate] /\ IsRunning sample_device = false /\
     IsRunning s' = false /\
     FramesReceived s' = 0 /\ ExitEvent s' = false /\
     InfoCollectedEvent s' = false) /\
  DeviceMoniker s' = DeviceMoniker sample_device /\
  Resolution s' = Resolution sample_device /\
  RequestedFps s' = RequestedFps sample_device /\
  Listener s' = Listener sample_device /\
  same_session sample_device s'.
Proof. exact (Start_result false sample_device). Defined.

(** X18. A change of the moniker takes back the resolution request: on
    an idle device [SetResolution] followed by [SetDeviceMoniker] leaves
    the record as [SetDeviceMoniker] alone does, with the
    default-constructed resolution, no requested rate and the
    default-constructed input; the listener, the frame counter and the
    deferred properties are kept. *)
Theorem SetDeviceMoniker_after_SetResolution
    pin0 moniker resolution requestedFps s :
  IsRunning s = false ->
  let s' := (SetDeviceMoniker pin0 moniker s).2 in
  (SetDeviceMoniker pin0 moniker
     (SetResolution resolution requestedFps s).2).2 = s' /\
  Resolution s' = XDeviceCapabilities_default /\ RequestedFps s' = 0 /\
  VideoInput s' = pin0 /\
  Listener s' = Listener s /\ FramesReceived s' = FramesReceived s /\
  same_session s s'.
Proof.
  intros Hrun. unfold SetDeviceMoniker, SetResolution. rewrite Hrun.
  cbn [negb snd]. unfold IsRunning in *. cbn. rewrite Hrun. cbn.
  unfold same_session. repeat split.
Qed.

Lemma SetDeviceMoniker_after_SetResolution_witness :
  let s' := (SetDeviceMoniker sample_pin "other" sample_device).2 in
  (SetDeviceMoniker sample_pin "other"
     (SetResolution XDeviceCapabilities_default 25 sample_device).2).2 = s' /\
  Resolution s' = XDeviceCapabilities_default /\ RequestedFps s' = 0 /\
  VideoInput s' = sample_pin /\
  Listener s' = Listener sample_device /\
  FramesReceived s' = FramesReceived sample_device /\
  same_session sample_device s'.
Proof.
  apply (SetDeviceMoniker_after_SetResolution sample_pin "other"
           XDeviceCapabilities_default 25 sample_device).
  reflexivity.
Defined.

(** X19. [SignalToStop] only signals the exit event, and only on a
    running device; signalling twice is signalling once; and the device
    it was signalled to still counts as running: [SetDeviceMoniker] and
    [SetResolution] are refused and [Start] answers [SuccessCode] without
    creating a thread. *)
Theorem SignalToStop_still_running pin0 moniker resolution requestedFps
    created s :
  IsRunning s = true -> DeviceMoniker s <> ""%string ->
  let s' := SignalToStop s in
  s' = set_ExitEvent true s /\ SignalToStop s' = s' /\
  IsRunning s' = true /\
  SetDeviceMoniker pin0 moniker s' = (false, s') /\
  SetResolution resolution requestedFps s' = (false, s') /\
  Start created s' = (SuccessCode, s', []).
Proof.
  intros Hrun Hm s'. subst s'. unfold SignalToStop. rewrite Hrun.
  assert (IsRunning (set_ExitEvent true s) = true) as Hrun' by exact Hrun.
  rewrite Hrun'. repeat split.
  - unfold SetDeviceMoniker. by rewrite Hrun'.
  - unfold SetResolution. by rewrite Hrun'.
  - by apply Start_running_with_moniker.
Qed.

Lemma SignalToStop_still_running_witness :
  let s' := SignalToStop sample_started in
  s' = set_ExitEvent true sample_started /\ SignalToStop s' = s' /\
  IsRunning s' = true /\
  SetDeviceMoniker sample_pin "other" s' = (false, s') /\
  SetResolution XDeviceCapabilities_default 25 s' = (false, s') /\
  Start true s' = (SuccessCode, s', []).
Proof.
  apply (SignalToStop_still_running sample_pin "other"
           XDeviceCapabilities_default 25 true sample_started).
  - reflexivity.
  - discriminate.
Defined.

(** ** The fields under the running-state lock *)

Lemma apply_properties_camera_state entries configOK s :
  DeviceIsRunning s = true ->
  (apply_properties SetCameraProperty entries configOK s).1.2 = s.
Proof.
  intros Hrun.
  destruct (apply_properties_camera_running entries configOK s Hrun)
    as (ok & ev & -> & _). done.
Qed.

(** The record [RunVideo_device_started] leaves. *)
Lemma RunVideo_device_started_record pSourceFilter s :
  let '(hr, amp) := QueryInterface_IAMVideoProcAmp pSourceFilter in
  let '(hr2, ctl) := QueryInterface_IAMCameraControl pSourceFilter in
  let s1 := set_VideoProcAmp amp (set_DeviceIsRunning true s) in
  let s2 := if SUCCEEDED hr && bool_decide (is_Some amp)
            then set_VideoPropertiesToSet ∅ s1 else s1 in
  let s3 := set_CameraControl ctl s2 in
  (RunVideo_device_started pSourceFilter s).1
  = if SUCCEEDED hr2 && bool_decide (is_Some ctl)
    then set_CameraPropertiesToSet ∅ s3 else s3.
Proof.
  unfold RunVideo_device_started.
  destruct (QueryInterface_IAMVideoProcAmp pSourceFilter) as [hr amp].
  destruct (QueryInterface_IAMCameraControl pSourceFilter) as [hr2 ctl].
  cbn [VideoProcAmp set_VideoProcAmp]. cbv zeta.
  destruct (SUCCEEDED hr && bool_decide (is_Some amp)).
  - pose proof (apply_properties_video_state
      (map_entries (VideoPropertiesToSet
         (set_VideoProcAmp amp (set_DeviceIsRunning true s))))
      true (set_VideoProcAmp amp (set_DeviceIsRunning true s)) eq_refl) as Hv.
    destruct (apply_properties SetVideoProperty _ true _) as [[ok sv] ev].
    cbn in Hv. subst sv. cbn [CameraControl set_CameraControl].
    destruct (SUCCEEDED hr2 && bool_decide (is_Some ctl)); [|done].
    pose proof (apply_properties_camera_state
      (map_entries (CameraPropertiesToSet (set_CameraControl ctl
         (set_VideoPropertiesToSet ∅
            (set_VideoProcAmp amp (set_DeviceIsRunning true s))))))
      true (set_CameraControl ctl
         (set_VideoPropertiesToSet ∅
            (set_VideoProcAmp amp (set_DeviceIsRunning true s))))
      eq_refl) as Hc.
    destruct (apply_properties SetCameraProperty _ true _) as [[ok2 sc] ev2].
    cbn in Hc. by subst sc.
  - cbn [CameraControl set_CameraControl].
    destruct (SUCCEEDED hr2 && bool_decide (is_Some ctl)); [|done].
    pose proof (apply_properties_camera_state
      (map_entries (CameraPropertiesToSet (set_CameraControl ctl
         (set_VideoProcAmp amp (set_DeviceIsRunning true s)))))
      true (set_CameraControl ctl
         (set_VideoProcAmp amp (set_DeviceIsRunning true s)))
      eq_refl) as Hc.
    destruct (apply_properties SetCameraProperty _ true _) as [[ok2 sc] ev2].
    cbn in Hc. by subst sc.
Qed.

Lemma SetCameraProperty_keys property value automatic s :
  keys_valid valid_camera_property (CameraPropertiesToSet s) ->
  keys_valid valid_camera_property
    (CameraPropertiesToSet (SetCameraProperty property value automatic s).1.2).
Proof.
  intros Hkeys k v. unfold SetCameraProperty, valid_camera_property.
  destruct (Z.ltb_spec property XCameraProperty.Pan); [apply Hkeys|].
  destruct (Z.gtb_spec property XCameraProperty.Focus); [apply Hkeys|].
  cbn [orb]. destruct (negb (DeviceIsRunning s)).
  - cbn. destruct (decide (k = property)) as [->|Hne]; [lia|].
    rewrite lookup_insert_ne by done. apply Hkeys.
  - destruct (CameraControl s); apply Hkeys.
Qed.

Lemma SetProperty_same_running property value automatic s :
  let v := (SetVideoProperty property value automatic s).1.2 in
  let c := (SetCameraProperty property value automatic s).1.2 in
  (DeviceIsRunning v = DeviceIsRunning s /\
   DeviceIsRunningEvent v = DeviceIsRunningEvent s /\
   VideoProcAmp v = VideoProcAmp s /\ CameraControl v = CameraControl s /\
   CameraPropertiesToSet v = CameraPropertiesToSet s) /\
  (DeviceIsRunning c = DeviceIsRunning s /\
   DeviceIsRunningEvent c = DeviceIsRunningEvent s /\
   VideoProcAmp c = VideoProcAmp s /\ CameraControl c = CameraControl s /\
   VideoPropertiesToSet c = VideoPropertiesToSet s).
Proof.
  cbv zeta. unfold SetVideoProperty, SetCameraProperty. split.
  - destruct (_ || _); [done|]. destruct (negb _); [done|].
    by destruct (VideoProcAmp s) eqn:E.
  - destruct (_ || _); [done|]. destruct (negb _); [done|].
    by destruct (CameraControl s) eqn:E.
Qed.

(** X20. Of a device record, at every point where the running-state lock
    is free: the running event is signalled exactly while the device
    runs; the control interfaces are held only while the device runs, so
    [IsVideoConfigSupported] and [IsCameraConfigSupported] imply
    [IsDeviceRunning]; and the keys of the two maps of deferred properties
    are valid properties. *)
Theorem session_invariant pin0 s :
  session_reachable pin0 s ->
  DeviceIsRunningEvent s = DeviceIsRunning s /\
  (IsVideoConfigSupported s = true -> IsDeviceRunning s = true) /\
  (IsCameraConfigSupported s = true -> IsDeviceRunning s = true) /\
  keys_valid valid_video_property (VideoPropertiesToSet s) /\
  keys_valid valid_camera_property (CameraPropertiesToSet s).
Proof.
  unfold IsVideoConfigSupported, IsCameraConfigSupported, IsDeviceRunning.
  assert (keys_valid valid_video_property ∅ /\
          keys_valid valid_camera_property ∅) as [K1 K2].
  { split; intros k v Hk; by rewrite lookup_empty in Hk. }
  induction 1 as [moniker|s s' _ (I1 & I2 & I3 & I4 & I5) Hstep].
  - cbn. refine (conj _ (conj _ (conj _ (conj _ _)))); done.
  - destruct Hstep as [p v a s|p v a s|f s|s|s s' Hsame].
    + destruct (SetProperty_same_running p v a s)
        as [(E1 & E2 & E3 & E4 & E5) _].
      rewrite E1, E2, E3, E4, E5.
      refine (conj _ (conj _ (conj _ (conj _ _)))); try done.
      by apply SetVideoProperty_keys_valid.
    + destruct (SetProperty_same_running p v a s)
        as [_ (E1 & E2 & E3 & E4 & E5)].
      rewrite E1, E2, E3, E4, E5.
      refine (conj _ (conj _ (conj _ (conj _ _)))); try done.
      by apply SetCameraProperty_keys.
    + pose proof (RunVideo_device_started_record f s) as Hrec.
      destruct (QueryInterface_IAMVideoProcAmp f) as [hr amp].
      destruct (QueryInterface_IAMCameraControl f) as [hr2 ctl].
      cbv zeta in Hrec. rewrite Hrec.
      destruct (SUCCEEDED hr && _), (SUCCEEDED hr2 && _); cbn;
        refine (conj _ (conj _ (conj _ (conj _ _)))); done.
    + cbn. refine (conj _ (conj _ (conj _ (conj _ _)))); done.
    + destruct Hsame as (E1 & E2 & E3 & E4 & E5 & E6).
      rewrite E1, E2, E3, E4, E5, E6. done.
Qed.

Lemma sample_configured_session : session_reachable sample_pin sample_configured.
Proof.
  apply (session_next _ (SetVideoProperty XVideoProperty.Contrast 7 true
                           sample_device).1.2);
    [|apply (session_SetVideoProperty XVideoProperty.Brightness (-5) false)].
  apply (session_next _ sample_device);
    [|apply (session_SetVideoProperty XVideoProperty.Contrast 7 true)].
  apply (session_next _ (XLocalVideoDeviceData_new sample_pin "cam"));
    [apply session_new|].
  apply session_other. repeat split.
Qed.

Lemma session_invariant_witness :
  DeviceIsRunningEvent sample_configured = DeviceIsRunning sample_configured /\
  (IsVideoConfigSupported sample_configured = true ->
   IsDeviceRunning sample_configured = true) /\
  (IsCameraConfigSupported sample_configured = true ->
   IsDeviceRunning sample_configured = true) /\
  keys_valid valid_video_property (VideoPropertiesToSet sample_configured) /\
  keys_valid valid_camera_property (CameraPropertiesToSet sample_configured).
Proof.
  apply (session_invariant sample_pin sample_configured).
  exact sample_configured_session.
Defined.

(** ** Discovery *)

(** The three ways a discovery run ends. *)
Lemma RunVideo_discover_cases newPin basic pSourceFilter s s' events format :
  RunVideo_discover newPin basic pSourceFilter s = Some (s', events, format) ->
  (basic = false /\ s' = set_InfoCollectedEvent true s /\
   events = NotifyError "Failed DirectShow initialization" true s /\
   format = None) \/
  (basic = true /\ pSourceFilter = None /\
   s' = set_InfoCollectedEvent true (set_NeedToSetVideoInput true s) /\
   events = NotifyError "Did not find video device. Unplugged?" false s /\
   format = None) \/
  (basic = true /\ events = [] /\
   exists device caps,
     pSourceFilter = Some device /\
     GetPinCapabilitiesAndConfigureIt (dev_streamConfig device)
       (Resolution s) (RequestedFps s) = Some (caps, format) /\
     let s1 := set_NeedToSetVideoInput true s in
     let s2 :=
       if SUCCEEDED (dev_crossbar device).1 &&
          bool_decide (is_Some (dev_crossbar device).2)
       then set_VideoPins
              (ColletCrossbarVideoInputs newPin (dev_crossbar device).2) s1
       else s1 in
     s' = set_InfoCollectedEvent true
            (set_InfoCollectedEvent true (set_Capabilities caps s2))).
Proof.
  unfold RunVideo_discover. destruct basic.
  - destruct pSourceFilter as [device|].
    + destruct (dev_crossbar device) as [hr pCrossbar] eqn:Hcb.
      cbn [fst snd]. intros H.
      apply bind_Some in H as ([[s0 ev0] f0] & H & Hres).
      injection Hres as <- <- <-.
      apply bind_Some in H as ([caps f1] & Hcaps & H).
      right. right. split; [done|].
      destruct (SUCCEEDED hr && bool_decide (is_Some pCrossbar)) eqn:Hoff.
      * injection H as <- <- <-. split; [done|].
        exists device, caps. rewrite Hcb. cbn [fst snd]. rewrite Hoff. done.
      * injection H as <- <- <-. split; [done|].
        exists device, caps. rewrite Hcb. cbn [fst snd]. rewrite Hoff. done.
    + cbn. intros [= <- <- <-]. right. left. done.
  - cbn. intros [= <- <- <-]. left. done.
Qed.

Lemma RunVideo_discover_kept newPin basic pSourceFilter s s' events format :
  RunVideo_discover newPin basic pSourceFilter s = Some (s', events, format) ->
  InfoCollectedEvent s' = true /\
  DeviceMoniker s' = DeviceMoniker s /\ Resolution s' = Resolution s /\
  RequestedFps s' = RequestedFps s /\ VideoInput s' = VideoInput s /\
  Listener s' = Listener s /\ ExitEvent s' = ExitEvent s /\
  BackgroundThread s' = BackgroundThread s /\
  FramesCounter s' = FramesCounter s /\ same_session s s'.
Proof.
  intros H. unfold same_session.
  apply RunVideo_discover_cases in H
    as [(_ & -> & _)|[(_ & _ & -> & _)|(_ & _ & dev & caps & _ & _ & ->)]].
  - repeat split.
  - repeat split.
  - cbv zeta. destruct (SUCCEEDED _ && _); repeat split.
Qed.

(** X21. A discovery run does not run the video: the thread, the frame
    counter, the exit event, the moniker, the resolution request, the
    listener and every field under the running-state lock are as before;
    and whether the graph could be built and the device found or not, the
    info-collected event is signalled afterwards. *)
Theorem RunVideo_discover_runs_nothing
    newPin basic pSourceFilter s s' events format :
  RunVideo_discover newPin basic pSourceFilter s = Some (s', events, format) ->
  InfoCollectedEvent s' = true /\
  IsRunning s' = IsRunning s /\ FramesReceived s' = FramesReceived s /\
  ExitEvent s' = ExitEvent s /\
  DeviceMoniker s' = DeviceMoniker s /\ Resolution s' = Resolution s /\
  RequestedFps s' = RequestedFps s /\ Listener s' = Listener s /\
  same_session s s' /\
  Forall (fun e => exists message, e = EvOnError message) events.
Proof.
  intros H.
  destruct (RunVideo_discover_kept _ _ _ _ _ _ _ H)
    as (K1 & K2 & K3 & K4 & K5 & K6 & K7 & K8 & K9 & K10).
  unfold IsRunning, FramesReceived. rewrite K8, K9.
  refine (conj K1 (conj eq_refl (conj eq_refl (conj K7 (conj K2 (conj K3
            (conj K4 (conj K6 (conj K10 _))))))))).
  assert (forall message fatal,
            Forall (fun e => exists message, e = EvOnError message)
                   (NotifyError message fatal s)) as Hnotify.
  { intros message fatal. unfold NotifyError.
    destruct (Listener s); [|done]. apply Forall_cons. split; [|done].
    by eexists. }
  apply RunVideo_discover_cases in H
    as [(_ & _ & -> & _)|[(_ & _ & _ & -> & _)|(_ & -> & _)]];
    [apply Hnotify|apply Hnotify|done].
Qed.

Lemma RunVideo_discover_runs_nothing_witness :
  exists s' events,
    InfoCollectedEvent s' = true /\
    IsRunning s' = IsRunning sample_device /\
    FramesReceived s' = FramesReceived sample_device /\
    ExitEvent s' = ExitEvent sample_device /\
    DeviceMoniker s' = DeviceMoniker sample_device /\
    Resolution s' = Resolution sample_device /\
    RequestedFps s' = RequestedFps sample_device /\
    Listener s' = Listener sample_device /\
    same_session sample_device s' /\
    Forall (fun e => exists message, e = EvOnError message) events.
Proof.
  destruct (RunVideo_discover (fun i t => sample_pin) true None sample_device)
    as [[[s' events] format]|] eqn:H; [|vm_compute in H; discriminate H].
  exists s', events.
  exact (RunVideo_discover_runs_nothing _ _ _ _ _ _ _ H).
Defined.

(** X22. Discovery is done once: after [GetCapabilities] on an idle
    device, [GetCapabilities] answers the same list again and
    [GetInputVideoPins] and [IsCrossbarSupported] answer what the record
    holds, whatever the platform would deliver now, without building a
    graph, changing the record or telling the listener anything. *)
Theorem GetCapabilities_once
    newPin awaited basic pSourceFilter s caps s1 events :
  IsRunning s = false ->
  GetCapabilities newPin awaited basic pSourceFilter s
    = Some (caps, s1, events) ->
  forall awaited' basic' pSourceFilter',
    GetCapabilities newPin awaited' basic' pSourceFilter' s1
      = Some (caps, s1, []) /\
    GetInputVideoPins newPin awaited' basic' pSourceFilter' s1
      = Some (if string_empty (DeviceMoniker s1) then [] else VideoPins s1,
              s1, []) /\
    IsCrossbarSupported newPin awaited' basic' pSourceFilter' s1
      = Some (if string_empty (DeviceMoniker s1) then false
              else IsCrossbarAvailable s1, s1, []).
Proof.
  unfold GetCapabilities, GetInputVideoPins, IsCrossbarSupported, CollectInfo.
  unfold IsRunning. intros Hrun H awaited' basic' pSourceFilter'.
  destruct (string_empty (DeviceMoniker s)) eqn:He; cbn [negb] in H.
  - injection H as <- <- <-. rewrite He. done.
  - destruct (InfoCollectedEvent s) eqn:Hc.
    + injection H as <- <- <-. rewrite He, Hc. done.
    + rewrite Hrun in H.
      apply bind_Some in H as ([[ok s'] ev] & H & Hres).
      apply bind_Some in H as ([[s2 ev2] f2] & Hd & H).
      injection H as <- <- <-. injection Hres as <- <- <-.
      destruct (RunVideo_discover_kept _ _ _ _ _ _ _ Hd) as (K1 & K2 & _).
      rewrite K2, He, K1. done.
Qed.

Lemma GetCapabilities_once_witness :
  exists caps s1,
    forall awaited' basic' pSourceFilter',
      GetCapabilities (fun i t => sample_pin) awaited' basic'
                      pSourceFilter' s1
        = Some (caps, s1, []) /\
      GetInputVideoPins (fun i t => sample_pin) awaited' basic'
                        pSourceFilter' s1
        = Some (if string_empty (DeviceMoniker s1) then [] else VideoPins s1,
                s1, []) /\
      IsCrossbarSupported (fun i t => sample_pin) awaited' basic'
                          pSourceFilter' s1
        = Some (if string_empty (DeviceMoniker s1) then false
                else IsCrossbarAvailable s1, s1, []).
Proof.
  destruct (GetCapabilities (fun i t => sample_pin) None true
              (Some {| dev_crossbar := (E_NOINTERFACE, None);
                       dev_streamConfig :=
                         Some [sample_format 12; sample_format 24] |})
              sample_device)
    as [[[caps s1] events]|] eqn:H; [|vm_compute in H; discriminate H].
  exists caps, s1.
  exact (GetCapabilities_once _ _ _ _ sample_device _ _ _ eq_refl H).
Defined.

Lemma GetCapabilities_collected newPin awaited basic pSourceFilter s :
  string_empty (DeviceMoniker s) = false -> InfoCollectedEvent s = true ->
  GetCapabilities newPin awaited basic pSourceFilter s
  = Some (Capabilities s, s, []).
Proof.
  intros He Hc. unfold GetCapabilities, CollectInfo. by rewrite He, Hc.
Qed.

(** X23. A discovery that fails is kept like one that succeeds: when the
    device of the moniker is not found (or the graph cannot be built),
    [GetCapabilities] on an idle device answers the list the record held,
    the listener is told once, and the next call answers the same list
    without looking for the device again, even if it is there by then. *)
Theorem GetCapabilities_device_not_found
    newPin awaited basic (s : XLocalVideoDeviceData) :
  IsRunning s = false -> DeviceMoniker s <> ""%string ->
  InfoCollectedEvent s = false ->
  exists s1,
    GetCapabilities newPin awaited basic None s
      = Some (Capabilities s, s1,
              if basic
              then NotifyError "Did not find video device. Unplugged?"
                               false s
              else NotifyError "Failed DirectShow initialization" true s) /\
    InfoCollectedEvent s1 = true /\
    forall awaited' basic' pSourceFilter',
      GetCapabilities newPin awaited' basic' pSourceFilter' s1
      = Some (Capabilities s, s1, []).
Proof.
  intros Hrun Hm Hc.
  assert (string_empty (DeviceMoniker s) = false) as He.
  { destruct (string_empty (DeviceMoniker s)) eqn:He; [|done].
    by apply string_empty_spec in He. }
  exists (set_InfoCollectedEvent true
            (if basic then set_NeedToSetVideoInput true s else s)).
  split; [|split].
  - unfold GetCapabilities, CollectInfo. rewrite He, Hc.
    unfold IsRunning in Hrun. rewrite Hrun. cbn [negb].
    unfold RunVideo_discover. by destruct basic.
  - by destruct basic.
  - intros awaited' basic' pSourceFilter'.
    rewrite GetCapabilities_collected; by destruct basic.
Qed.

Lemma GetCapabilities_device_not_found_witness :
  exists s1,
    GetCapabilities (fun i t => sample_pin) None true None sample_device
      = Some (Capabilities sample_device, s1,
              NotifyError "Did not find video device. Unplugged?"
                          false sample_device) /\
    InfoCollectedEvent s1 = true /\
    forall awaited' basic' pSourceFilter',
      GetCapabilities (fun i t => sample_pin) awaited' basic'
                      pSourceFilter' s1
      = Some (Capabilities sample_device, s1, []).
Proof.
  apply (GetCapabilities_device_not_found (fun i t => sample_pin) None true
           sample_device).
  - reflexivity.
  - discriminate.
  - reflexivity.
Defined.

(** X24. What [GetCapabilities] answers after a change of the moniker
    comes from the device of the new moniker: every capability in the
    answer is the capability of a usable format of the source filter made
    for it, and the answer is empty when there is no such filter. *)
Theorem GetCapabilities_after_SetDeviceMoniker
    pin0 newPin awaited basic pSourceFilter moniker s caps s1 events :
  IsRunning s = false ->
  GetCapabilities newPin awaited basic pSourceFilter
                  (SetDeviceMoniker pin0 moniker s).2
    = Some (caps, s1, events) ->
  forall c, c ∈ caps ->
    exists device formats sc,
      pSourceFilter = Some device /\
      dev_streamConfig device = Some formats /\
      sc ∈ formats /\ usable_capability sc = Some c.
Proof.
  intros Hrun. unfold SetDeviceMoniker. rewrite Hrun. cbn [negb snd].
  unfold GetCapabilities, CollectInfo. cbn [DeviceMoniker InfoCollectedEvent
    BackgroundThread]. unfold IsRunning in Hrun. rewrite Hrun.
  destruct (string_empty moniker); cbn [negb].
  { intros [= <- _ _] c Hc. by apply not_elem_of_nil in Hc. }
  intros H. apply bind_Some in H as ([[ok s'] ev] & H & Hres).
  apply bind_Some in H as ([[s2 ev2] f2] & Hd & H).
  injection H as <- <- <-. injection Hres as <- <- <-.
  apply RunVideo_discover_cases in Hd
    as [(_ & -> & _)|[(_ & _ & -> & _)
       |(_ & _ & dev & caps & -> & Hcaps & ->)]].
  - intros c Hc. by apply not_elem_of_nil in Hc.
  - intros c Hc. by apply not_elem_of_nil in Hc.
  - intros c Hc. cbv zeta in Hc.
    assert (c ∈ caps) as Hin.
    { revert Hc. by destruct (SUCCEEDED _ && _). }
    clear Hc. destruct (dev_streamConfig dev) as [formats|] eqn:Hf.
    + apply GetPinCapabilitiesAndConfigureIt_fold in Hcaps as ->.
      apply fold_add_capability_elem in Hin as [Hin|(sc & ? & ?)].
      * by apply not_elem_of_nil in Hin.
      * by exists dev, formats, sc.
    + injection Hcaps as <- _. by apply not_elem_of_nil in Hin.
Qed.

Lemma GetCapabilities_after_SetDeviceMoniker_witness :
  exists device formats sc,
    Some {| dev_crossbar := (E_NOINTERFACE, None);
            dev_streamConfig :=
              Some [sample_format 12; sample_format 24] |}
      = Some device /\
    dev_streamConfig device = Some formats /\
    sc ∈ formats /\
    usable_capability sc
    = Some {| cap_Width := 640; cap_Height := 480; cap_BitCount := 24;
              cap_AverageFrameRate := 30; cap_MinimumFrameRate := 30;
              cap_MaximumFrameRate := 10 |}.
Proof.
  destruct (GetCapabilities (fun i t => sample_pin) None true
              (Some {| dev_crossbar := (E_NOINTERFACE, None);
                       dev_streamConfig :=
                         Some [sample_format 12; sample_format 24] |})
              (SetDeviceMoniker sample_pin "other" sample_device).2)
    as [[[caps s1] events]|] eqn:H; [|vm_compute in H; discriminate H].
  assert (caps = [{| cap_Width := 640; cap_Height := 480; cap_BitCount := 24;
                     cap_AverageFrameRate := 30; cap_MinimumFrameRate := 30;
                     cap_MaximumFrameRate := 10 |}]) as Hcaps.
  { vm_compute in H. by injection H as <- _ _. }
  apply (GetCapabilities_after_SetDeviceMoniker sample_pin _ _ _ _ "other"
           sample_device caps s1 events eq_refl H).
  rewrite Hcaps. constructor.
Defined.

(** What a discovery run gives when the device is there. *)
Lemma RunVideo_discover_found newPin device caps format s :
  GetPinCapabilitiesAndConfigureIt (dev_streamConfig device)
    (Resolution s) (RequestedFps s) = Some (caps, format) ->
  RunVideo_discover newPin true (Some device) s
  = Some (set_InfoCollectedEvent true
            (set_InfoCollectedEvent true
               (set_Capabilities caps
                  (if SUCCEEDED (dev_crossbar device).1 &&
                      bool_decide (is_Some (dev_crossbar device).2)
                   then set_VideoPins
                          (ColletCrossbarVideoInputs newPin
                             (dev_crossbar device).2)
                          (set_NeedToSetVideoInput true s)
                   else set_NeedToSetVideoInput true s))),
          [], format).
Proof.
  intros Hpin. unfold RunVideo_discover.
  destruct (dev_crossbar device) as [hr pCrossbar]. cbn [fst snd].
  destruct (SUCCEEDED hr && bool_decide (is_Some pCrossbar)).
  - change (Resolution (set_VideoPins _ _)) with (Resolution s).
    change (RequestedFps (set_VideoPins _ _)) with (RequestedFps s).
    by rewrite Hpin.
  - change (Resolution (set_NeedToSetVideoInput _ _)) with (Resolution s).
    change (RequestedFps (set_NeedToSetVideoInput _ _)) with (RequestedFps s).
    by rewrite Hpin.
Qed.

(** X25. A discovery that finds the device: on an idle device with a
    moniker and nothing collected yet, [GetCapabilities] answers the list
    of the capabilities of the usable formats of the device (the
    delivered video formats with a width and more than 12 bits, each with
    its size, bit count and the rates of its frame intervals), without
    repetition and none with 12 bits or less, stores it in the record,
    asks for the video input to be set again, and takes the video pins
    from the crossbar if the device has one. *)
Theorem GetCapabilities_discovers
    newPin awaited device formats (s : XLocalVideoDeviceData) :
  IsRunning s = false -> DeviceMoniker s <> ""%string ->
  InfoCollectedEvent s = false ->
  dev_streamConfig device = Some formats ->
  Forall format_readable formats ->
  exists caps s1,
    GetCapabilities newPin awaited true (Some device) s
      = Some (caps, s1, []) /\
    Capabilities s1 = caps /\ InfoCollectedEvent s1 = true /\
    NeedToSetVideoInput s1 = true /\
    NoDup caps /\ (forall c, c ∈ caps -> 12 < cap_BitCount c) /\
    (forall c, c ∈ caps <->
       exists sc, sc ∈ formats /\ usable_capability sc = Some c) /\
    (forall c, c ∈ caps <->
       exists sc mt,
         sc ∈ formats /\ sc_pMediaType sc = Some mt /\
         SUCCEEDED (sc_hr sc) = true /\ formattype mt <> FORMAT_Other /\
         biWidth mt <> 0 /\ 12 < biBitCount mt /\
         c = {| cap_Width := biWidth mt; cap_Height := biHeight mt;
                cap_BitCount := biBitCount mt;
                cap_AverageFrameRate :=
                  to_int32 (Z.quot 10000000 (AvgTimePerFrame mt));
                cap_MinimumFrameRate :=
                  to_int32 (Z.quot 10000000 (MinFrameInterval (sc_caps sc)));
                cap_MaximumFrameRate :=
                  to_int32
                    (Z.quot 10000000 (MaxFrameInterval (sc_caps sc))) |}) /\
    (if SUCCEEDED (dev_crossbar device).1 &&
        bool_decide (is_Some (dev_crossbar device).2)
     then VideoPins s1
          = ColletCrossbarVideoInputs newPin (dev_crossbar device).2 /\
          IsCrossbarAvailable s1 = true
     else VideoPins s1 = VideoPins s /\
          IsCrossbarAvailable s1 = IsCrossbarAvailable s).
Proof.
  intros Hrun Hm Hc Hf Hread.
  assert (string_empty (DeviceMoniker s) = false) as He.
  { destruct (string_empty (DeviceMoniker s)) eqn:He; [|done].
    by apply string_empty_spec in He. }
  destruct (enum_loop_capabilites (Resolution s)
              {| capabilites := []; pExactMediaType := None;
                 pCloseMediaType := None |} formats Hread)
    as (st & Hloop & Hcaps).
  cbn [capabilites] in Hcaps.
  assert (exists format,
            GetPinCapabilitiesAndConfigureIt (dev_streamConfig device)
              (Resolution s) (RequestedFps s)
            = Some (capabilites st, format)) as [format Hpin].
  { rewrite Hf. unfold GetPinCapabilitiesAndConfigureIt. rewrite Hloop.
    cbn [mbind option_bind]. by eexists. }
  exists (capabilites st). eexists. split.
  - unfold GetCapabilities, CollectInfo. rewrite He, Hc.
    unfold IsRunning in Hrun. rewrite Hrun. cbn [negb].
    rewrite (RunVideo_discover_found _ _ _ _ _ Hpin). reflexivity.
  - assert (forall c, c ∈ capabilites st <->
              exists sc, sc ∈ formats /\ usable_capability sc = Some c)
      as Hin.
    { rewrite Hcaps. intros c. rewrite fold_add_capability_elem.
      split; [|auto]. intros [Hin|?]; [|done].
      by apply not_elem_of_nil in Hin. }
    refine (conj _ (conj _ (conj _ (conj _ (conj _ (conj _ (conj _ _))))))).
    + done.
    + done.
    + by destruct (SUCCEEDED _ && _).
    + rewrite Hcaps. apply fold_add_capability_NoDup, NoDup_nil_2.
    + intros c (sc & _ & Hu)%Hin.
      by apply usable_capability_bits in Hu as (? & _ & _ & _ & _ & ? & _).
    + exact Hin.
    + intros c. rewrite Hin. by apply usable_capability_readable.
    + by destruct (SUCCEEDED _ && _).
Qed.

Lemma GetCapabilities_discovers_witness :
  exists caps s1,
    GetCapabilities sample_newPin None true (Some sample_capture)
                    sample_device
      = Some (caps, s1, []) /\
    caps = [{| cap_Width := 640; cap_Height := 480; cap_BitCount := 24;
               cap_AverageFrameRate := 30; cap_MinimumFrameRate := 30;
               cap_MaximumFrameRate := 10 |}] /\
    Capabilities s1 = caps /\ InfoCollectedEvent s1 = true /\
    NeedToSetVideoInput s1 = true /\
    NoDup caps /\ (forall c, c ∈ caps -> 12 < cap_BitCount c) /\
    VideoPins s1
      = ColletCrossbarVideoInputs sample_newPin (Some sample_crossbar) /\
    IsCrossbarAvailable s1 = true.
Proof.
  destruct (GetCapabilities_discovers sample_newPin None sample_capture
              [sample_format 12; sample_format 24] sample_device
              eq_refl ltac:(discriminate) eq_refl eq_refl
              sample_formats_readable)
    as (caps & s1 & Hret & Hcaps & Hinfo & Hneed & Hnodup & Hbits & _ & _
        & Hpins & Hbar).
  exists caps, s1.
  refine (conj Hret (conj _ (conj Hcaps (conj Hinfo (conj Hneed
            (conj Hnodup (conj Hbits (conj Hpins Hbar)))))))).
  vm_compute in Hret. by injection Hret as <- _.
Defined.

(** ** The crossbar *)

(** The search loops stop at the first pin that has information and passes
    the test, and leave [-1] when there is none. *)
Lemma find_pin_spec test info n i :
  0 <= i ->
  (find_pin test info n i = -1 /\
   forall j, i <= j < i + Z.of_nat n -> pin_passes test info j = false) \/
  (i <= find_pin test info n i < i + Z.of_nat n /\
   pin_passes test info (find_pin test info n i) = true /\
   forall j, i <= j < find_pin test info n i ->
             pin_passes test info j = false).
Proof.
  revert i. induction n as [|n IH]; intros i Hi.
  - left. split; [done|]. intros j Hj. lia.
  - cbn [find_pin].
    assert (pin_passes test info i
            = negb (FAILED (info i).1.1) && test i (info i).2) as Hp by done.
    destruct (info i) as [[hr rel] pinType] eqn:Hinfo. cbn [fst snd] in Hp.
    assert (pin_passes test info i = false ->
            forall j, i <= j < i + 1 -> pin_passes test info j = false)
      as Hone.
    { intros Hf j Hj. by replace j with i by lia. }
    destruct (FAILED hr) eqn:Hhr; [|destruct (test i pinType) eqn:Ht].
    + destruct (IH (i + 1) ltac:(lia)) as [(-> & Hall)|(Hr & Hpass & Hall)].
      * left. split; [done|]. intros j Hj.
        destruct (decide (j = i)) as [->|]; [done|]. apply Hall. lia.
      * right. split; [lia|]. split; [done|]. intros j Hj.
        destruct (decide (j = i)) as [->|]; [done|]. apply Hall. lia.
    + right. split; [lia|]. split; [done|]. intros j Hj. lia.
    + cbn in Hp.
      destruct (IH (i + 1) ltac:(lia)) as [(-> & Hall)|(Hr & Hpass & Hall)].
      * left. split; [done|]. intros j Hj.
        destruct (decide (j = i)) as [->|]; [done|]. apply Hall. lia.
      * right. split; [lia|]. split; [done|]. intros j Hj.
        destruct (decide (j = i)) as [->|]; [done|]. apply Hall. lia.
Qed.

(** The first pin that passes is what the search leaves. *)
Lemma find_pin_first test info n r :
  0 <= r < Z.of_nat n -> pin_passes test info r = true ->
  (forall j, 0 <= j < r -> pin_passes test info j = false) ->
  find_pin test info n 0 = r.
Proof.
  intros Hr Hpass Hbefore.
  destruct (find_pin_spec test info n 0 ltac:(lia))
    as [(_ & Hall)|(Hf & Hfp & Hall)].
  - rewrite Hall in Hpass by lia. done.
  - destruct (Z.lt_trichotomy (find_pin test info n 0) r) as [Hlt|[->|Hgt]].
    + rewrite Hbefore in Hfp by lia. done.
    + done.
    + rewrite Hall in Hpass by lia. done.
Qed.

(** X26. [SetCurrentCrossbarInput] routes at most once, and exactly when
    there is a crossbar, the requested pin is an input pin of a known
    type, the crossbar has an input pin of that index and type, it has a
    video decoder output, and it answers that the two can be routed; the
    route then goes from the first video decoder output to the requested
    input pin. *)
Theorem SetCurrentCrossbarInput_route
    Unknown pCrossbar (videoInput : XDevicePinInfo) output input :
  SetCurrentCrossbarInput Unknown pCrossbar videoInput
    = Some (output, input) <->
  exists crossbar,
    pCrossbar = Some crossbar /\
    pin_Type videoInput <> Unknown /\ pin_IsInput videoInput = true /\
    input = pin_Index videoInput /\
    0 <= input < (get_PinCounts crossbar).2 /\
    FAILED (get_CrossbarPinInfo crossbar true input).1.1 = false /\
    (get_CrossbarPinInfo crossbar true input).2 = pin_Type videoInput /\
    0 <= output < (get_PinCounts crossbar).1 /\
    pin_passes is_decoder (get_CrossbarPinInfo crossbar false) output
      = true /\
    (forall j, 0 <= j < output ->
       pin_passes is_decoder (get_CrossbarPinInfo crossbar false) j
         = false) /\
    SUCCEEDED (CanRoute crossbar output input) = true.
Proof.
  unfold SetCurrentCrossbarInput.
  destruct pCrossbar as [crossbar|];
    [|split; [done|by intros (? & ? & _)]].
  destruct (get_PinCounts crossbar) as [outPinsCount inPinsCount] eqn:Hpc.
  cbn [fst snd].
  set (itest := fun i pinType : Z =>
         (pinType =? pin_Type videoInput) && (i =? pin_Index videoInput)).
  change (fun _ pinType : Z => pinType =? PhysConn_Video_VideoDecoder)
    with is_decoder.
  set (out := find_pin is_decoder (get_CrossbarPinInfo crossbar false)
                (Z.to_nat outPinsCount) 0).
  set (inp := find_pin itest (get_CrossbarPinInfo crossbar true)
                (Z.to_nat inPinsCount) 0).
  pose proof (find_pin_spec is_decoder (get_CrossbarPinInfo crossbar false)
                (Z.to_nat outPinsCount) 0 ltac:(lia)) as Hout.
  pose proof (find_pin_spec itest (get_CrossbarPinInfo crossbar true)
                (Z.to_nat inPinsCount) 0 ltac:(lia)) as Hinp.
  fold out in Hout. fold inp in Hinp.
  split.
  - intros H. exists crossbar. rewrite Hpc. cbn [fst snd].
    destruct (pin_Type videoInput =? Unknown) eqn:Hty; [done|].
    destruct (pin_IsInput videoInput) eqn:Hin; [|done].
    cbn [negb andb] in H.
    destruct (inp =? -1) eqn:Hi; [done|].
    destruct (out =? -1) eqn:Ho; [done|].
    cbn [negb andb] in H.
    destruct (SUCCEEDED (CanRoute crossbar out inp)) eqn:Hroute; [|done].
    injection H as <- <-.
    destruct Hout as [(? & _)|(Hro & Hpo & Hfo)]; [lia|].
    destruct Hinp as [(? & _)|(Hri & Hpi & _)]; [lia|].
    unfold pin_passes, itest in Hpi.
    apply andb_true_iff in Hpi as [Hfail Hpi].
    apply andb_true_iff in Hpi as [Hpt Hpx].
    apply negb_true_iff in Hfail.
    apply Z.eqb_neq in Hty, Hi, Ho. apply Z.eqb_eq in Hpt, Hpx.
    clearbody out inp.
    refine (conj eq_refl (conj _ (conj eq_refl (conj _ (conj _ (conj Hfail
              (conj _ (conj _ (conj Hpo (conj Hfo Hroute)))))))))); lia.
  - intros (cb & [= <-] & Hty & Hin & -> & Hri & Hfail & Hpt & Hro & Hpo
            & Hfo & Hroute).
    rewrite Hpc in Hri, Hro. cbn [fst snd] in Hri, Hro.
    assert (out = output) as Eo.
    { apply find_pin_first; [lia|done|done]. }
    assert (inp = pin_Index videoInput) as Ei.
    { destruct Hinp as [(_ & Hall)|(Hr & Hpass & _)].
      - specialize (Hall (pin_Index videoInput) ltac:(lia)).
        unfold pin_passes, itest in Hall.
        rewrite Hfail, Hpt, !Z.eqb_refl in Hall. done.
      - unfold pin_passes, itest in Hpass.
        apply andb_true_iff in Hpass as [_ Hpass].
        apply andb_true_iff in Hpass as [_ Hpass]. lia. }
    rewrite Eo, Ei, Hin, Hroute.
    destruct (pin_Type videoInput =? Unknown) eqn:E; [lia|].
    cbn [negb andb].
    destruct (pin_Index videoInput =? -1) eqn:E1; [lia|].
    destruct (output =? -1) eqn:E2; [lia|]. done.
Qed.

Lemma collect_inputs_elem newPin info n i p :
  p ∈ collect_inputs newPin info n i <->
  exists j, i <= j < i + Z.of_nat n /\ pin_passes is_video info j = true /\
            p = newPin j (info j).2.
Proof.
  revert i. induction n as [|n IH]; intros i.
  - cbn. split; [by intros ?%not_elem_of_nil|]. intros (j & Hj & _). lia.
  - cbn [collect_inputs].
    assert (pin_passes is_video info i
            = negb (FAILED (info i).1.1) && is_video i (info i).2)
      as Hp by done.
    assert (exists pinType, (info i).2 = pinType) as [pinType' Hty]
      by by eexists.
    destruct (info i) as [[hr rel] pinType] eqn:Hinfo.
    cbn [fst snd] in Hp, Hty. subst pinType'.
    change (pinType <? PhysConn_Audio_Tuner) with (is_video i pinType).
    assert (forall b,
              pin_passes is_video info i = b ->
              (exists j, i <= j < i + Z.of_nat (S n) /\
                         pin_passes is_video info j = true /\
                         p = newPin j (info j).2) <->
              (b = true /\ p = newPin i (info i).2) \/
              (exists j, i + 1 <= j < i + 1 + Z.of_nat n /\
                         pin_passes is_video info j = true /\
                         p = newPin j (info j).2)) as Hsplit.
    { intros b Hb. split.
      - intros (j & Hj & Hpass & ->).
        destruct (decide (j = i)) as [->|].
        + left. by rewrite <- Hb.
        + right. exists j. split; [lia|done].
      - intros [[-> ->]|(j & Hj & Hpass & ->)].
        + exists i. split; [lia|done].
        + exists j. split; [lia|done]. }
    destruct (FAILED hr); [|destruct (is_video i pinType)]; cbn in Hp.
    + rewrite IH, (Hsplit false Hp). split; [auto|].
      by intros [[? _]|?].
    + rewrite elem_of_cons, IH, (Hsplit true Hp), Hinfo. cbn [snd].
      split; [intros [->|?]; auto|intros [[_ ->]|?]; auto].
    + rewrite IH, (Hsplit false Hp). split; [auto|].
      by intros [[? _]|?].
Qed.

Lemma collect_inputs_sorted newPin info n i :
  (forall index type, pin_Index (newPin index type) = index) ->
  Forall (fun x => i <= x) (pin_Index <$> collect_inputs newPin info n i) /\
  StronglySorted Z.lt (pin_Index <$> collect_inputs newPin info n i).
Proof.
  intros Hnew. revert i. induction n as [|n IH]; intros i.
  - cbn. split; constructor.
  - cbn [collect_inputs]. destruct (IH (i + 1)) as [Hge Hs].
    assert (Forall (fun x => i <= x)
              (pin_Index <$> collect_inputs newPin info n (i + 1))) as Hge'.
    { eapply Forall_impl; [exact Hge|]. cbn. intros; lia. }
    destruct (info i) as [[hr rel] pinType].
    destruct (FAILED hr); [done|].
    destruct (pinType <? PhysConn_Audio_Tuner); [|done].
    rewrite fmap_cons, Hnew. split.
    + constructor; [lia|done].
    + constructor; [done|].
      eapply Forall_impl; [exact Hge|]. cbn. intros; lia.
Qed.

(** X27. [ColletCrossbarVideoInputs] answers the input pins of the
    crossbar that have information and a type below the audio tuner type,
    each once and in the order of their indexes; without a crossbar it
    answers no pin. *)
Theorem ColletCrossbarVideoInputs_pins newPin crossbar :
  (forall index type, pin_Index (newPin index type) = index) ->
  (forall p,
     p ∈ ColletCrossbarVideoInputs newPin (Some crossbar) <->
     exists i, 0 <= i < (get_PinCounts crossbar).2 /\
               FAILED (get_CrossbarPinInfo crossbar true i).1.1 = false /\
               (get_CrossbarPinInfo crossbar true i).2
                 < PhysConn_Audio_Tuner /\
               p = newPin i (get_CrossbarPinInfo crossbar true i).2) /\
  StronglySorted Z.lt
    (pin_Index <$> ColletCrossbarVideoInputs newPin (Some crossbar)) /\
  ColletCrossbarVideoInputs newPin None = [].
Proof.
  intros Hnew. unfold ColletCrossbarVideoInputs.
  destruct (get_PinCounts crossbar) as [outPinsCount inPinsCount].
  cbn [snd]. split; [|split; [|done]].
  - intros p. rewrite collect_inputs_elem. unfold pin_passes, is_video.
    split.
    + intros (j & Hj & Hpass & ->). exists j.
      apply andb_true_iff in Hpass as [Hf Ht].
      apply negb_true_iff in Hf. repeat split; [lia|lia|done|lia].
    + intros (j & Hj & Hf & Ht & ->). exists j.
      rewrite Hf. cbn. repeat split; [lia|lia|lia].
  - by apply collect_inputs_sorted.
Qed.

Lemma ColletCrossbarVideoInputs_pins_witness :
  (forall p,
     p ∈ ColletCrossbarVideoInputs sample_newPin (Some sample_crossbar) <->
     exists i, 0 <= i < (get_PinCounts sample_crossbar).2 /\
               FAILED (get_CrossbarPinInfo sample_crossbar true i).1.1
                 = false /\
               (get_CrossbarPinInfo sample_crossbar true i).2
                 < PhysConn_Audio_Tuner /\
               p = sample_newPin i
                     (get_CrossbarPinInfo sample_crossbar true i).2) /\
  StronglySorted Z.lt
    (pin_Index <$> ColletCrossbarVideoInputs sample_newPin
                     (Some sample_crossbar)) /\
  ColletCrossbarVideoInputs sample_newPin None = [].
Proof.
  apply (ColletCrossbarVideoInputs_pins sample_newPin sample_crossbar).
  reflexivity.
Defined.

(** ** The event loop *)

(** X28. A video input given to [SetVideoInput] is taken up by the next
    turn of the event loop and only by that one: the turn clears the
    request, stores what the crossbar answers after being set (the input
    as given when the device has no crossbar), tells the listener nothing
    and leaves the fields under the running-state lock alone, and further
    turns change nothing.  A turn that sees the device lost tells the
    listener, ends the loop and leaves the request pending. *)
Theorem RunVideo_loop_body_SetVideoInput
    pMediaEventEx routed input (s : XLocalVideoDeviceData) :
  exists s2,
    NeedToSetVideoInput s2 = false /\
    VideoInput s2
      = (if IsCrossbarAvailable s then routed input else input) /\
    same_session s s2 /\
    (device_lost pMediaEventEx = false ->
     RunVideo_loop_body pMediaEventEx routed (SetVideoInput input s)
       = (true, s2, [])) /\
    (device_lost pMediaEventEx = true ->
     RunVideo_loop_body pMediaEventEx routed (SetVideoInput input s)
       = (false, SetVideoInput input s,
          NotifyError "Device was lost. Unplugged?" false s)) /\
    (forall pMediaEventEx' routed',
       device_lost pMediaEventEx' = false ->
       RunVideo_loop_body pMediaEventEx' routed' s2 = (true, s2, [])).
Proof.
  exists (if IsCrossbarAvailable s
          then set_VideoInput (routed input)
                 (set_NeedToSetVideoInput false (SetVideoInput input s))
          else set_NeedToSetVideoInput false (SetVideoInput input s)).
  unfold RunVideo_loop_body. fold (device_lost pMediaEventEx).
  refine (conj _ (conj _ (conj _ (conj _ (conj _ _))))).
  - by destruct (IsCrossbarAvailable s).
  - by destruct (IsCrossbarAvailable s).
  - unfold same_session. by destruct (IsCrossbarAvailable s).
  - intros ->. cbn. by destruct (IsCrossbarAvailable s).
  - by intros ->.
  - intros ev' routed' Hl. fold (device_lost ev'). rewrite Hl.
    by destruct (IsCrossbarAvailable s).
Qed.

(** X29. Outside the two blocks of [RunVideo] that hold the running-state
    lock and the two property setters, nothing writes the fields the lock
    guards: the setters of the moniker, the resolution, the video input
    and the listener, [Start], [SignalToStop], the frame callback, a turn
    of the event loop and a discovery run leave the running flag and its
    event, the two control interfaces and the two maps of deferred
    properties as they were. *)
Theorem facade_step_same_session pin0 (s s' : XLocalVideoDeviceData) :
  facade_step pin0 s s' -> same_session s s'.
Proof.
  unfold same_session.
  destruct 1 as [moniker s|res fps s|input s|listener s|created s|s
                 |Allocate g s pBuffer bufferLen g' s' events H
                 |ev routed s|newPin basic f s s' events format H
                 |newPin basic f s ok s' events H].
  - unfold SetDeviceMoniker. by destruct (negb (IsRunning s)).
  - unfold SetResolution. by destruct (negb (IsRunning s)).
  - done.
  - done.
  - unfold Start.
    destruct (string_empty (DeviceMoniker s)); [done|].
    destruct (IsRunning s); [done|]. by destruct created.
  - unfold SignalToStop. by destruct (IsRunning s).
  - unfold BufferCB in H.
    destruct ((mWidth g =? 0) || (mHeight g =? 0)); [done|].
    assert (same_session s
              (if negb (ExitEvent s)
               then set_FramesCounter (to_uint32 (FramesCounter s + 1)) s
               else s)) as Hs.
    { unfold same_session. by destruct (negb (ExitEvent s)). }
    destruct (Listener s), pBuffer; try (injection H as <- <- <-; exact Hs).
    destruct (negb (bufferLen =? 0));
      [|injection H as <- <- <-; exact Hs].
    apply bind_Some in H as (img & _ & H).
    apply bind_Some in H as (data & _ & H).
    injection H as <- <- <-. exact Hs.
  - unfold RunVideo_loop_body. fold (device_lost ev).
    destruct (device_lost ev); [by cbn|].
    destruct (NeedToSetVideoInput s); [|by cbn]. cbn.
    by destruct (IsCrossbarAvailable s).
  - by apply RunVideo_discover_kept in H as (_ & _ & _ & _ & _ & _ & _ & _
                                             & _ & H).
  - unfold CollectInfo in H.
    destruct (negb (string_empty (DeviceMoniker s)));
      [|by injection H as <- <- <-].
    destruct (InfoCollectedEvent s); [by injection H as <- <- <-|].
    destruct (XThread_IsRunning (BackgroundThread s));
      [by injection H as <- <- <-|].
    apply bind_Some in H as ([[s0 ev0] f0] & H & Hres).
    injection Hres as <- <- <-.
    by apply RunVideo_discover_kept in H as (_ & _ & _ & _ & _ & _ & _ & _
                                             & _ & H).
Qed.

Lemma facade_step_same_session_witness :
  same_session sample_configured (SignalToStop sample_configured).
Proof.
  apply (facade_step_same_session sample_pin).
  apply facade_SignalToStop.
Defined.
